(** * testingview: a shallow embedding of the walk-forward backtesting core

    The development follows [testingview/strategybase.py] (class
    [StrategyBase]: indicator registry, crossover predicate, signal loop)
    and [testingview/strategyrun.py] (class [BacktestRun]: broker ledger
    and report).

    Numbers.  pandas and numpy columns hold IEEE doubles.  They are modelled
    by [fnum]: not-a-number, the two infinities, and the finite values as
    exact rationals.  What the model leaves out is rounding, overflow and the
    sign of zero; the special values, on which the code's [fillna], [shift],
    [diff], comparisons and [nan_to_num] depend, are kept.  Where a figure
    depends on the rounding, the lines are taken again on binary64 numbers
    (module [f64]). *)

From Stdlib Require Import Floats.
From Stdlib Require Import QArith Qcanon ZArith Lia Lqa.
From stdpp Require Import base numbers list strings option.

(** ** Floating-point cells *)

Section float_cells.
Local Open Scope Qc_scope.

Inductive fnum : Type :=
  | NaN
  | Inf (neg : bool)
  | Fin (q : Qc).

Definition fzero : fnum := Fin 0.
Definition fone : fnum := Fin 1.

Definition Qc_neg (q : Qc) : bool :=
  match q ?= 0 with Lt => true | _ => false end.

Definition fneg (x : fnum) : fnum :=
  match x with
  | NaN => NaN
  | Inf s => Inf (negb s)
  | Fin q => Fin (- q)
  end.

Definition fabs (x : fnum) : fnum :=
  match x with
  | NaN => NaN
  | Inf _ => Inf false
  | Fin q => Fin (if Qc_neg q then - q else q)
  end.

Definition fadd (x y : fnum) : fnum :=
  match x, y with
  | NaN, _ | _, NaN => NaN
  | Inf s, Inf s' => if Bool.eqb s s' then Inf s else NaN
  | Inf s, Fin _ | Fin _, Inf s => Inf s
  | Fin a, Fin b => Fin (a + b)
  end.

Definition fsub (x y : fnum) : fnum := fadd x (fneg y).

Definition fmul (x y : fnum) : fnum :=
  match x, y with
  | NaN, _ | _, NaN => NaN
  | Inf s, Inf s' => Inf (xorb s s')
  | Inf s, Fin q | Fin q, Inf s =>
      match q ?= 0 with
      | Eq => NaN
      | Lt => Inf (negb s)
      | Gt => Inf s
      end
  | Fin a, Fin b => Fin (a * b)
  end.

Definition fdiv (x y : fnum) : fnum :=
  match x, y with
  | NaN, _ | _, NaN => NaN
  | Inf _, Inf _ => NaN
  | Inf s, Fin q => Inf (xorb s (Qc_neg q))
  | Fin _, Inf _ => Fin 0
  | Fin a, Fin b =>
      if decide (b = 0) then
        match a ?= 0 with
        | Eq => NaN
        | Lt => Inf true
        | Gt => Inf false
        end
      else Fin (a / b)
  end.

(** Ordered comparison; [None] when an operand is not a number. *)
Definition fcmp (x y : fnum) : option comparison :=
  match x, y with
  | NaN, _ | _, NaN => None
  | Inf s, Inf s' =>
      Some (match s, s' with
            | true, false => Lt
            | false, true => Gt
            | _, _ => Eq
            end)
  | Inf s, Fin _ => Some (if s then Lt else Gt)
  | Fin _, Inf s => Some (if s then Gt else Lt)
  | Fin a, Fin b => Some (a ?= b)
  end.

Definition fltb (x y : fnum) : bool :=
  match fcmp x y with Some Lt => true | _ => false end.
Definition fgtb (x y : fnum) : bool :=
  match fcmp x y with Some Gt => true | _ => false end.
Definition fleb (x y : fnum) : bool :=
  match fcmp x y with Some Lt | Some Eq => true | _ => false end.
Definition feqb (x y : fnum) : bool :=
  match fcmp x y with Some Eq => true | _ => false end.
(** Python's [!=]: true as soon as an operand is not a number. *)
Definition fneb (x y : fnum) : bool := negb (feqb x y).

Definition isnan (x : fnum) : bool :=
  match x with NaN => true | _ => false end.

(** [np.maximum]: not-a-number propagates. *)
Definition np_maximum (x y : fnum) : fnum :=
  match fcmp x y with
  | None => NaN
  | Some Lt => y
  | Some _ => x
  end.

(** The largest finite double, [(2^53 - 1) * 2^971]. *)
Definition DBL_MAX : Qc := Qc_of_Z ((2 ^ 53 - 1) * 2 ^ 971).

(** [np.nan_to_num] with its default arguments. *)
Definition nan_to_num (x : fnum) : fnum :=
  match x with
  | NaN => Fin 0
  | Inf false => Fin DBL_MAX
  | Inf true => Fin (- DBL_MAX)
  | Fin q => Fin q
  end.

End float_cells.

(** ** Python results *)

(** The exceptions the modelled code raises; the fields are the values the
    source interpolates into the message. *)
Inductive exn : Type :=
  | IndexError
  | KeyError (column : string)
  | ZeroDivisionError
  | TypeError (what : string)
  | LengthMismatch (values index : nat)
  | IndicatorErrored (name : string) (cause : string)
  | IndicatorShape (data_shape : list nat) (name : string)
                   (indicator_shape : option (list nat))
  | ArgmaxEmpty
  | MissingColumns
  | MissingValues
  | FrameShape (value_shape : list nat) (rows cols : nat).

Inductive result (A : Type) : Type :=
  | Ok (a : A)
  | Raise (e : exn).
Arguments Ok {A} a.
Arguments Raise {A} e.

(** What [crossover] and [next] hand back: [True], or the [None] of a
    function that falls off its end. *)
Inductive pyval : Type :=
  | PyTrue
  | PyNone.

Definition truthy (v : pyval) : bool :=
  match v with PyTrue => true | PyNone => false end.

(** [xs[-k]] for [k >= 1] on a one-dimensional sequence. *)
Definition index_neg {A} (xs : list A) (k : nat) : result A :=
  if decide (k <= length xs)%nat then
    match xs !! (length xs - k)%nat with
    | Some x => Ok x
    | None => Raise IndexError
    end
  else Raise IndexError.

(** ** [StrategyBase.crossover] (strategybase.py, lines 133-143) *)

Definition crossover (series1 series2 : list fnum) : result pyval :=
  match index_neg series1 2 with
  | Raise e => Raise e
  | Ok a2 =>
  match index_neg series2 2 with
  | Raise e => Raise e
  | Ok b2 =>
    if fltb a2 b2 then
      match index_neg series1 1 with
      | Raise e => Raise e
      | Ok a1 =>
      match index_neg series2 1 with
      | Raise e => Raise e
      | Ok b1 => if fgtb a1 b1 then Ok PyTrue else Ok PyNone
      end end
    else Ok PyNone
  end end.

(** [long], [offset] and [short] (lines 145-164): the three order
    constructors a decision step returns. *)
Definition long : Qc := 1%Qc.
Definition offset : Qc := 0%Qc.
Definition short : Qc := (- 1)%Qc.

(** ** pandas Series operations on a numeric column *)

(** [Series.shift()]: one step down, not-a-number in front. *)
Definition shift (xs : list fnum) : list fnum := take (length xs) (NaN :: xs).

(** [Series.diff()]. *)
Definition diff (xs : list fnum) : list fnum := zip_with fsub xs (shift xs).

(** [Series.fillna(v)]. *)
Definition fillna (v : fnum) (xs : list fnum) : list fnum :=
  (fun x => if isnan x then v else x) <$> xs.

(** [Series.fillna(method='ffill')]: [last] is the latest value seen that is
    a number (not-a-number while there is none). *)
Fixpoint ffill_from (last : fnum) (xs : list fnum) : list fnum :=
  match xs with
  | [] => []
  | x :: rest =>
      let v := if isnan x then last else x in
      v :: ffill_from v rest
  end.
Definition ffill (xs : list fnum) : list fnum := ffill_from NaN xs.

(** [Series.cumsum()], which skips not-a-number cells. *)
Fixpoint cumsum_from (acc : fnum) (xs : list fnum) : list fnum :=
  match xs with
  | [] => []
  | x :: rest =>
      if isnan x then NaN :: cumsum_from acc rest
      else let acc' := fadd acc x in acc' :: cumsum_from acc' rest
  end.
Definition cumsum (xs : list fnum) : list fnum := cumsum_from fzero xs.

(** [Series.max()], which skips not-a-number cells and is not-a-number when
    nothing is left. *)
Definition series_max_step (m x : fnum) : fnum :=
  if isnan x then m else if isnan m then x else if fltb m x then x else m.
Definition series_max (xs : list fnum) : fnum := foldl series_max_step NaN xs.

(** [np.maximum.accumulate]. *)
Fixpoint accumulate_from (m : fnum) (xs : list fnum) : list fnum :=
  match xs with
  | [] => []
  | x :: rest => let m' := np_maximum m x in m' :: accumulate_from m' rest
  end.
Definition maximum_accumulate (xs : list fnum) : list fnum :=
  match xs with
  | [] => []
  | x :: rest => x :: accumulate_from x rest
  end.

(** ** DataFrames *)

Inductive column : Type :=
  | NumCol (xs : list fnum)
  | BoolCol (bs : list bool).

Definition col_length (c : column) : nat :=
  match c with NumCol xs => length xs | BoolCol bs => length bs end.

Definition col_take (k : nat) (c : column) : column :=
  match c with NumCol xs => NumCol (take k xs) | BoolCol bs => BoolCol (take k bs) end.

(** A frame: the datetime index (nanoseconds since the epoch) and the
    columns in order, by name. *)
Record DataFrame : Type := mkFrame {
  index : list Z;
  columns : list (string * column)
}.

Definition frame_len (df : DataFrame) : nat := length (index df).

Fixpoint assoc_get (name : string) (cols : list (string * column)) : option column :=
  match cols with
  | [] => None
  | (n, c) :: rest => if decide (n = name) then Some c else assoc_get name rest
  end.

(** [cols[name] = c] on the column list: an existing column is replaced in
    its place, a new one goes last. *)
Fixpoint assoc_set (name : string) (c : column) (cols : list (string * column))
  : list (string * column) :=
  match cols with
  | [] => [(name, c)]
  | (n, c') :: rest =>
      if decide (n = name) then (n, c) :: rest
      else (n, c') :: assoc_set name c rest
  end.

(** [df.name] / [df['name']] for a numeric column. *)
Definition get_num (df : DataFrame) (name : string) : result (list fnum) :=
  match assoc_get name (columns df) with
  | Some (NumCol xs) => Ok xs
  | Some (BoolCol bs) => Ok ((fun b : bool => if b then fone else fzero) <$> bs)
  | None => Raise (KeyError name)
  end.

(** [df['name'] = values] for a list or Series of values: the lengths must
    agree. *)
Definition set_col (df : DataFrame) (name : string) (c : column) : result DataFrame :=
  if decide (col_length c = frame_len df) then
    Ok (mkFrame (index df) (assoc_set name c (columns df)))
  else Raise (LengthMismatch (col_length c) (frame_len df)).

(** [df.iloc[:k, ]]. *)
Definition iloc_to (k : nat) (df : DataFrame) : DataFrame :=
  mkFrame (take k (index df)) (prod_map id (col_take k) <$> columns df).

(** Label alignment of a column indexed by [src] onto the index [tgt]. *)
Fixpoint label_pos (t : Z) (src : list Z) : option nat :=
  match src with
  | [] => None
  | s :: rest => if decide (s = t) then Some 0%nat else S <$> label_pos t rest
  end.
Definition reindex_num (src : list Z) (xs : list fnum) (tgt : list Z) : list fnum :=
  (fun t => match label_pos t src with
            | Some i => default NaN (xs !! i)
            | None => NaN
            end) <$> tgt.
Definition reindex_col (src : list Z) (c : column) (tgt : list Z) : column :=
  match c with
  | NumCol xs => NumCol (reindex_num src xs tgt)
  | BoolCol bs =>
      NumCol (reindex_num src ((fun b : bool => if b then fone else fzero) <$> bs) tgt)
  end.

(** [df[other.columns] = other]: every column of [other] is aligned on the
    index of [df] and stored under its name. *)
Definition set_frame (df other : DataFrame) : DataFrame :=
  mkFrame (index df)
    (foldl (fun cols nc => assoc_set nc.1 (reindex_col (index other) nc.2 (index df)) cols)
           (columns df) (columns other)).

(** [pd.concat([df, other], axis=1)] for two frames over the same index. *)
Definition concat_columns (df other : DataFrame) : DataFrame :=
  mkFrame (index df) (columns df ++ columns other).

(** ** numpy arrays: a shape and the cells in row-major order *)

Record ndarray : Type := mkArray {
  shape : list nat;
  flat : list fnum
}.

Definition size_of (sh : list nat) : nat := foldr Nat.mul 1%nat sh.

(** Multi-index of the linear position [p] in an array of shape [sh], and
    back. *)
Fixpoint unravel (sh : list nat) (p : nat) : list nat :=
  match sh with
  | [] => []
  | _ :: rest => (p / size_of rest)%nat :: unravel rest (p mod size_of rest)%nat
  end.
Fixpoint ravel (sh idx : list nat) : nat :=
  match sh, idx with
  | _ :: rest, i :: idx' => (i * size_of rest + ravel rest idx')%nat
  | _, _ => 0%nat
  end.

(** [a.T]: the axes reversed. *)
Definition transpose (a : ndarray) : ndarray :=
  let sh' := reverse (shape a) in
  mkArray sh'
    ((fun p => default NaN (flat a !! ravel (shape a) (reverse (unravel sh' p))))
       <$> seq 0 (size_of sh')).

(** [np.argmax] of a tuple of dimensions: the first position of the largest
    one; it raises on the empty tuple. *)
Fixpoint argmax_from (best_pos best : nat) (pos : nat) (xs : list nat) : nat :=
  match xs with
  | [] => best_pos
  | x :: rest =>
      if decide (best < x)%nat then argmax_from pos x (S pos) rest
      else argmax_from best_pos best (S pos) rest
  end.
Definition argmax (xs : list nat) : result nat :=
  match xs with
  | [] => Raise ArgmaxEmpty
  | x :: rest => Ok (argmax_from 0%nat x 1%nat rest)
  end.

(** [pd.DataFrame(value, index=idx, columns=[name])]: a one-dimensional
    value of the index's length, or a single column of that height. *)
Definition frame_of_array (value : ndarray) (idx : list Z) (name : string)
  : result DataFrame :=
  match shape value with
  | [n] =>
      if decide (n = length idx) then Ok (mkFrame idx [(name, NumCol (flat value))])
      else Raise (FrameShape (shape value) (length idx) 1%nat)
  | [n; 1%nat] =>
      if decide (n = length idx) then Ok (mkFrame idx [(name, NumCol (flat value))])
      else Raise (FrameShape (shape value) (length idx) 1%nat)
  | _ => Raise (FrameShape (shape value) (length idx) 1%nat)
  end.

(** ** The object store

    DataFrames are mutable objects: [BacktestRun._data] is bound to the very
    object the strategy holds, and [_broker] assigns columns into it.  The
    store keeps every frame under its address; the slots of the strategy
    object hold addresses.  [s_indicators] is the list object created by
    [StrategyBase.__init__] (line 41), of which [BacktestRun._indicators]
    (strategyrun.py line 30) is another name. *)

Record State : Type := mkState {
  heap : list DataFrame;
  s_data : nat;                   (* StrategyBase._data *)
  s_data0 : nat;                  (* StrategyBase.__data, never rebound *)
  s_indicators : list DataFrame
}.

Definition empty_frame : DataFrame := mkFrame [] [].

Definition M (A : Type) : Type := State -> result A * State.

Definition ret {A} (a : A) : M A := fun st => (Ok a, st).
Definition raise {A} (e : exn) : M A := fun st => (Raise e, st).
Definition bind {A B} (m : M A) (k : A -> M B) : M B :=
  fun st => match m st with
            | (Ok a, st') => k a st'
            | (Raise e, st') => (Raise e, st')
            end.
Definition lift {A} (r : result A) : M A := fun st => (r, st).

Notation "'let*' x := m 'in' k" := (bind m (fun x => k))
  (at level 10, x name, m at level 100, k at level 200).
Notation "m ;; k" := (bind m (fun _ => k))
  (at level 100, k at level 200, right associativity).

Definition deref (l : nat) : M DataFrame :=
  fun st => (Ok (default empty_frame (heap st !! l)), st).
Definition alloc (df : DataFrame) : M nat :=
  fun st => (Ok (length (heap st)),
             mkState (heap st ++ [df]) (s_data st) (s_data0 st) (s_indicators st)).
Definition store (l : nat) (df : DataFrame) : M unit :=
  fun st => (Ok tt,
             mkState (<[l := df]> (heap st)) (s_data st) (s_data0 st) (s_indicators st)).
Definition get_s_data : M nat := fun st => (Ok (s_data st), st).
Definition get_s_data0 : M nat := fun st => (Ok (s_data0 st), st).
Definition set_s_data (l : nat) : M unit :=
  fun st => (Ok tt, mkState (heap st) l (s_data0 st) (s_indicators st)).
Definition get_indicators : M (list DataFrame) := fun st => (Ok (s_indicators st), st).
Definition append_indicator (f : DataFrame) : M unit :=
  fun st => (Ok tt, mkState (heap st) (s_data st) (s_data0 st) (s_indicators st ++ [f])).

(** [self.data] (the property of lines 46-51). *)
Definition data : M DataFrame := let* l := get_s_data in deref l.

(** ** The strategy contract

    A concrete strategy overrides [set_indicators] and [next].  Its
    [set_indicators] is a sequence of [self.ind(func, ...)] calls; each
    call is given by the display name [ind] derives for it (lines 75-94, not
    modelled) and by what the call of [func] does on the frame [self.data] shows
    at that moment and on the indicator values declared before it.  [next]
    reads [self.data] and the declared values and returns an order, [None],
    or raises. *)

Inductive returned : Type :=
  | RetNone
  | RetFrame (values : ndarray)
  | RetArray (a : ndarray)
  | RetUnconvertible.

Inductive outcome : Type :=
  | Returned (v : returned)
  | Errored (cause : string).

Record IndicatorCall : Type := mkCall {
  ic_name : string;
  ic_func : DataFrame -> list ndarray -> outcome
}.

Record Strategy : Type := mkStrategy {
  strategy_name : string;
  indicator_calls : list IndicatorCall;
  next : DataFrame -> list ndarray -> result (option Qc)
}.

(** ** [StrategyBase.__init__] (lines 23-43) *)

Definition ohlcv : list string := ["open"; "high"; "low"; "close"; "volume"].

Definition has_column (df : DataFrame) (name : string) : bool :=
  bool_decide (is_Some (assoc_get name (columns df))).

Definition col_has_nan (c : column) : bool :=
  match c with NumCol xs => existsb isnan xs | BoolCol _ => false end.

Definition any_null (df : DataFrame) : bool :=
  existsb (fun name => from_option col_has_nan false (assoc_get name (columns df))) ohlcv.

Fixpoint is_monotonic_increasing (idx : list Z) : bool :=
  match idx with
  | [] => true
  | t :: rest =>
      match rest with
      | [] => true
      | t' :: _ => bool_decide (t <= t')%Z && is_monotonic_increasing rest
      end
  end.

(** [df.sort_index()]: the rows in ascending order of their label. *)
Fixpoint insert_pos (idx : list Z) (p : nat) (sorted : list nat) : list nat :=
  match sorted with
  | [] => [p]
  | q :: rest =>
      if bool_decide (default 0%Z (idx !! p) <= default 0%Z (idx !! q))%Z
      then p :: sorted
      else q :: insert_pos idx p rest
  end.
Definition sorted_positions (idx : list Z) : list nat :=
  foldr (insert_pos idx) [] (seq 0 (length idx)).
Definition col_permute (perm : list nat) (c : column) : column :=
  match c with
  | NumCol xs => NumCol ((fun p => default NaN (xs !! p)) <$> perm)
  | BoolCol bs => BoolCol ((fun p => default false (bs !! p)) <$> perm)
  end.
Definition sort_index (df : DataFrame) : DataFrame :=
  let perm := sorted_positions (index df) in
  mkFrame ((fun p => default 0%Z (index df !! p)) <$> perm)
          (prod_map id (col_permute perm) <$> columns df).

(** The caller owns a store [h] and passes the frame at address [input]. *)
Definition StrategyBase_init (h : list DataFrame) (input : nat) : result State :=
  let df := default empty_frame (h !! input) in
  if negb (forallb (has_column df) ohlcv) then Raise MissingColumns
  else if any_null df then Raise MissingValues
  else if negb (is_monotonic_increasing (index df)) then
    Ok (mkState (h ++ [sort_index df]) (length h) (length h) [])
  else Ok (mkState h input input []).

(** ** [StrategyBase.ind] (lines 56-131) *)

(** [len(value)] of an array. *)
Definition array_len (a : ndarray) : result nat :=
  match shape a with
  | [] => Raise (TypeError "len() of unsized object")
  | n :: _ => Ok n
  end.

(** Lines 116-117: the array is transposed when its first axis is the
    longest. *)
Definition flip_back (a : ndarray) : result ndarray :=
  match argmax (shape a) with
  | Raise e => Raise e
  | Ok k => Ok (if decide (k = 0%nat) then transpose a else a)
  end.

(** Lines 103-111: what [np.asarray] makes of the returned value. *)
Definition as_array (v : returned) : option ndarray :=
  match v with
  | RetFrame values => Some (transpose values)
  | RetArray a => Some a
  | RetNone | RetUnconvertible => None
  end.

Definition ind (name : string) (out : outcome) : M ndarray :=
  match out with
  | Errored cause => raise (IndicatorErrored name cause)       (* lines 97-100 *)
  | Returned v =>
      match as_array v with                                    (* lines 103-111 *)
      | None =>                                                (* lines 120-124 *)
          let* d := data in
          let* close := lift (get_num d "close") in
          raise (IndicatorShape [length close] name None)
      | Some a =>
          let* value := lift (flip_back a) in                  (* lines 116-117 *)
          let* last := lift (index_neg (shape value) 1) in     (* line 120 *)
          let* d := data in
          let* close := lift (get_num d "close") in
          if decide (last = length close) then
            let* n := lift (array_len value) in                (* line 127 *)
            let* l0 := get_s_data0 in
            let* d0 := deref l0 in
            if decide (n = frame_len d0) then
              let* d := data in
              let* f := lift (frame_of_array value (index d) name) in
              append_indicator f ;;                            (* line 128 *)
              let* d := data in
              let* f' := lift (frame_of_array value (index d) name) in
              let* l := alloc (concat_columns d f') in         (* line 129 *)
              set_s_data l ;;
              ret value
            else ret value
          else raise (IndicatorShape [length close] name (Some (shape value)))
      end
  end.

(** [self.set_indicators()] of a concrete strategy. *)
Fixpoint declare_all (calls : list IndicatorCall) (declared : list ndarray)
  : M (list ndarray) :=
  match calls with
  | [] => ret declared
  | c :: rest =>
      let* d := data in
      let* v := ind (ic_name c) (ic_func c d declared) in
      declare_all rest (declared ++ [v])
  end.
Definition set_indicators (s : Strategy) : M (list ndarray) :=
  declare_all (indicator_calls s) [].

(** ** [StrategyBase._sig] (lines 187-196) *)

Fixpoint sig_loop (s : Strategy) (_d_f : nat) (bars : list nat)
  (siglist : list (option Qc)) : M (list (option Qc)) :=
  match bars with
  | [] => ret siglist
  | i :: rest =>
      let* whole := deref _d_f in
      let* l := alloc (iloc_to (i + 1) whole) in               (* line 193 *)
      set_s_data l ;;
      let* declared := set_indicators s in                     (* line 194 *)
      let* d := data in
      let* a := lift (next s d declared) in                    (* line 195 *)
      sig_loop s _d_f rest (siglist ++ [a])
  end.

Definition _sig (s : Strategy) : M (list (option Qc)) :=
  let* d := data in
  let* _d_f := alloc d in                                      (* line 189 *)
  let length := frame_len d in
  sig_loop s _d_f (seq 2 (length - 2)) [None; None].

(** ** [BacktestRun] (strategyrun.py) *)

Record BacktestRun : Type := mkRun {
  r_data : nat;                   (* BacktestRun._data *)
  r_strategy : Strategy           (* BacktestRun._strategy *)
}.

(** [__init__] (lines 24-32): [self._data = strategy.data] binds the frame
    object the strategy shows at that time; no copy is made. *)
Definition BacktestRun_init (s : Strategy) : M BacktestRun :=
  let* l := get_s_data in ret (mkRun l s).

(** The four numbers [run] stores on [self] before it calls [_broker]. *)
Record Params : Type := mkParams {
  cash : Qc;
  size : Qc;
  comm : Qc;
  amount : Qc
}.

Definition scale (xs : list fnum) (q : Qc) : list fnum :=
  (fun x => fmul x (Fin q)) <$> xs.

(** The column a list of orders becomes: [None] is not-a-number. *)
Definition signal_column (siglist : list (option Qc)) : list fnum :=
  from_option Fin NaN <$> siglist.

(** Every statement of [_broker] reads columns of the frame object behind
    [self._data] and assigns one column into that same object: [update]
    runs such a statement, given as a function of the frame, in place. *)
Definition update (l : nat) (f : DataFrame -> result DataFrame) : M unit :=
  let* d := deref l in
  let* d' := lift (f d) in
  store l d'.

(** [self._data.name]. *)
Definition read (l : nat) (name : string) : M (list fnum) :=
  let* d := deref l in lift (get_num d name).

Definition rbind {A B} (r : result A) (k : A -> result B) : result B :=
  match r with
  | Ok a => k a
  | Raise e => Raise e
  end.
Notation "'let?' x := r 'in' k" := (rbind r (fun x => k))
  (at level 10, x name, r at level 100, k at level 200).

(** The column expressions of lines 40-50. *)
Definition positions (signal : list fnum) : list fnum :=
  fillna fzero (shift (ffill signal)).
Definition trading_pnl_of (change pos : list fnum) (p : Params) : list fnum :=
  scale (zip_with fmul change pos) (size p).
Definition fee_of (close pos pos' : list fnum) (p : Params) : list fnum :=
  zip_with fmul
    (scale (scale (scale close (size p)) (amount p)) (comm p))
    (fillna fzero (fabs <$> zip_with fsub pos (shift pos'))).
Definition capital_of (cumpnl : list fnum) (p : Params) : list fnum :=
  (fun x => fadd x (Fin (cash p))) <$> cumpnl.
Definition outofmoney_of (capital close fee fee' : list fnum) (p : Params) : list bool :=
  zip_with andb
    (zip_with fleb (shift capital)
       (zip_with fadd (scale (scale close (size p)) (amount p)) fee))
    ((fun x => fneb x fzero) <$> fee').

(** The statements of [_broker], each as a function of the frame. *)
Definition set_change (d : DataFrame) : result DataFrame :=              (* line 36 *)
  let? close := get_num d "close" in
  set_col d "change" (NumCol (diff close)).
Definition set_signal (siglist : list (option Qc)) (d : DataFrame)      (* line 37 *)
  : result DataFrame :=
  set_col d "signal" (NumCol (signal_column siglist)).
Definition set_indicator (f : DataFrame) (d : DataFrame)                (* line 39 *)
  : result DataFrame :=
  Ok (set_frame d f).
Definition set_pos (d : DataFrame) : result DataFrame :=                 (* line 40 *)
  let? signal := get_num d "signal" in
  set_col d "pos" (NumCol (positions signal)).
Definition set_trading_pnl (p : Params) (d : DataFrame) : result DataFrame := (* line 41 *)
  let? change := get_num d "change" in
  let? pos := get_num d "pos" in
  set_col d "trading_pnl" (NumCol (trading_pnl_of change pos p)).
Definition set_fee (p : Params) (d : DataFrame) : result DataFrame :=    (* lines 42-43 *)
  let? close := get_num d "close" in
  let? pos := get_num d "pos" in
  let? pos' := get_num d "pos" in
  set_col d "fee" (NumCol (fee_of close pos pos' p)).
Definition set_netpnl (d : DataFrame) : result DataFrame :=              (* line 44 *)
  let? trading_pnl := get_num d "trading_pnl" in
  let? fee := get_num d "fee" in
  set_col d "netpnl" (NumCol (zip_with fsub trading_pnl fee)).
Definition fill_netpnl (d : DataFrame) : result DataFrame :=             (* line 45 *)
  let? netpnl := get_num d "netpnl" in
  set_col d "netpnl" (NumCol (fillna fzero netpnl)).
Definition set_cumpnl (d : DataFrame) : result DataFrame :=              (* line 46 *)
  let? netpnl := get_num d "netpnl" in
  set_col d "cumpnl" (NumCol (cumsum netpnl)).
Definition set_capital (p : Params) (d : DataFrame) : result DataFrame := (* line 47 *)
  let? cumpnl := get_num d "cumpnl" in
  set_col d "capital" (NumCol (capital_of cumpnl p)).
Definition set_outofmoney (p : Params) (d : DataFrame) : result DataFrame := (* lines 48-50 *)
  let? capital := get_num d "capital" in
  let? close := get_num d "close" in
  let? fee := get_num d "fee" in
  let? fee' := get_num d "fee" in
  set_col d "outofmoney" (BoolCol (outofmoney_of capital close fee fee' p)).

(** Lines 38-39: [for df in self._indicators: self._data[df.columns] = df]. *)
Fixpoint assign_indicators (l : nat) (inds : list DataFrame) : M unit :=
  match inds with
  | [] => ret tt
  | f :: rest => update l (set_indicator f) ;; assign_indicators l rest
  end.

(** [_broker] (lines 34-50).  The call [self._strategy._sig()] of line 37 is
    the argument [sig]. *)
Definition _broker_with (sig : M (list (option Qc))) (self : BacktestRun) (p : Params)
  : M unit :=
  let l := r_data self in
  update l set_change ;;
  let* siglist := sig in
  update l (set_signal siglist) ;;
  let* inds := get_indicators in
  assign_indicators l inds ;;
  update l set_pos ;;
  update l (set_trading_pnl p) ;;
  update l (set_fee p) ;;
  update l set_netpnl ;;
  update l fill_netpnl ;;
  update l set_cumpnl ;;
  update l (set_capital p) ;;
  update l (set_outofmoney p).

Definition _broker (self : BacktestRun) (p : Params) : M unit :=
  _broker_with (_sig (r_strategy self)) self p.

(** The report of [run]. *)
Record Report : Type := mkReport {
  rep_name : string;              (* 'Strategy name' *)
  rep_valid : bool;               (* 'Valid or not' *)
  rep_start : Z;                  (* 'Start' *)
  rep_end : Z;                    (* 'End' *)
  rep_days : Z;                   (* the days of 'Duration' *)
  rep_exposure : fnum;            (* 'Exposure Time %' *)
  rep_final : fnum;               (* 'Capital Final $' *)
  rep_peak : fnum;                (* 'Capital Peak $' *)
  rep_return : fnum;              (* 'Return %' *)
  rep_drawdown : fnum             (* 'Max Drawdown %' *)
}.

Definition ns_per_day : Z := 86400000000000.

Definition hundred : Qc := Qc_of_Z 100.

(** Lines 86-87. *)
Definition drawdown (capital : list fnum) : list fnum :=
  fsub fone <$> zip_with fdiv capital (maximum_accumulate capital).
Definition max_drawdown (capital : list fnum) : fnum :=
  fmul (fneg (nan_to_num (series_max (drawdown capital)))) (Fin hundred).

(** Line 82: Python integers, so a zero duration raises. *)
Definition exposure_time (days : Z) (flat_bars : nat) : result fnum :=
  if decide (days = 0)%Z then Raise ZeroDivisionError
  else Ok (Fin ((Qc_of_Z (days - Z.of_nat flat_bars) / Qc_of_Z days) * hundred)%Qc).

(** Line 85. *)
Definition return_percent (final first : fnum) : fnum :=
  fmul (fdiv (fsub final first) first) (Fin hundred).

(** [run] (lines 52-90); the four parameters are numbers by their type. *)
Definition run (self : BacktestRun) (p : Params) : M Report :=
  let l := r_data self in
  _broker self p ;;                                            (* line 71 *)
  let* outofmoney := read l "outofmoney" in                    (* line 76 *)
  let valid := feqb (foldl fadd fzero outofmoney) fzero in
  let* d := deref l in
  let* start := lift (from_option Ok (Raise IndexError) (index d !! 0%nat)) in
  let* end_ := lift (index_neg (index d) 1) in
  let days := ((end_ - start) / ns_per_day)%Z in
  let* pos := read l "pos" in                                  (* line 82 *)
  let flat_bars := length (filter (fun x => feqb x fzero = true) pos) in
  let* exposure := lift (exposure_time days flat_bars) in
  let* capital := read l "capital" in                          (* line 83 *)
  let* final := lift (index_neg capital 1) in
  let* capital' := read l "capital" in                         (* line 84 *)
  let peak := series_max capital' in
  let* first := lift (from_option Ok (Raise IndexError) (capital !! 0%nat)) in
  let ret_pct := return_percent final first in                 (* line 85 *)
  let* capital'' := read l "capital" in                        (* lines 86-87 *)
  ret (mkReport (strategy_name (r_strategy self)) valid start end_ days exposure
                final peak ret_pct (max_drawdown capital'')).

(** ** A concrete strategy: the moving-average cross of simple_example.py

    [talib.SMA] is an external library function; it is taken here as the
    plain rolling mean, not-a-number until the window is full. *)

Definition window_mean (k : nat) (xs : list fnum) (t : nat) : fnum :=
  if decide (k <= S t)%nat then
    fdiv (foldl fadd fzero (take k (drop (S t - k) xs))) (Fin (Qc_of_Z (Z.of_nat k)))
  else NaN.
Definition SMA (k : nat) (xs : list fnum) : list fnum :=
  window_mean k xs <$> seq 0 (length xs).

Definition sma_call (name : string) (k : nat) : IndicatorCall :=
  mkCall name
    (fun d _ =>
       match get_num d "close" with
       | Ok close => Returned (RetArray (mkArray [length close] (SMA k close)))
       | Raise _ => Errored "close"
       end).

Definition sma_next (_ : DataFrame) (declared : list ndarray) : result (option Qc) :=
  match declared with
  | [fast; slow] =>
      match crossover (flat fast) (flat slow) with
      | Raise e => Raise e
      | Ok PyTrue => Ok (Some long)
      | Ok PyNone =>
          match crossover (flat slow) (flat fast) with
          | Raise e => Raise e
          | Ok PyTrue => Ok (Some short)
          | Ok PyNone => Ok None
          end
      end
  | _ => Ok None
  end.

Definition sma_cross (fast slow : nat) : Strategy :=
  mkStrategy "SMA" [sma_call "SMA(c,fast)" fast; sma_call "SMA(c,slow)" slow] sma_next.

(** A strategy without indicators that goes long once, at bar [k]. *)
Definition long_at (k : nat) : Strategy :=
  mkStrategy "LongAt" []
    (fun d _ => Ok (if decide (frame_len d = S k) then Some long else None)).


(** The ledger columns of a frame after [_broker]. *)
Record Ledger : Type := mkLedger {
  led_change : list fnum;
  led_pos : list fnum;
  led_trading_pnl : list fnum;
  led_fee : list fnum;
  led_netpnl : list fnum;
  led_cumpnl : list fnum;
  led_capital : list fnum;
  led_outofmoney : option column
}.
Definition ledger_of (d : DataFrame) : result Ledger :=
  match get_num d "change", get_num d "pos", get_num d "trading_pnl",
        get_num d "fee", get_num d "netpnl", get_num d "cumpnl",
        get_num d "capital" with
  | Ok ch, Ok po, Ok tp, Ok fe, Ok ne, Ok cu, Ok ca =>
      Ok (mkLedger ch po tp fe ne cu ca (assoc_get "outofmoney" (columns d)))
  | _, _, _, _, _, _, _ => Raise (KeyError "ledger")
  end.

(** A cell as a plain value, for reading computed examples. *)
Definition show (x : fnum) : option (bool + Q) :=
  match x with
  | NaN => None
  | Inf b => Some (inl b)
  | Fin q => Some (inr (this q))
  end.

(** A table from its bars: open, high, low, close, volume per row, one day
    apart. *)
Definition qz (n : Z) : fnum := Fin (Qc_of_Z n).
Definition table_of_closes (closes : list Z) : DataFrame :=
  let c := NumCol (qz <$> closes) in
  mkFrame ((fun i => Z.of_nat i * ns_per_day)%Z <$> seq 0 (length closes))
          [("open", c); ("high", c); ("low", c); ("close", c);
           ("volume", NumCol (replicate (length closes) (qz 1)))].

(** ** The statements of [_broker] composed on one frame

    On a run without exception the in-place updates of [_broker] amount to
    these functions of the frame. *)

Definition with_frame (st : State) (l : nat) (d : DataFrame) : State :=
  mkState (<[l := d]> (heap st)) (s_data st) (s_data0 st) (s_indicators st).

Definition ledger_lines (p : Params) (d : DataFrame) : result DataFrame :=
  let? d := set_pos d in
  let? d := set_trading_pnl p d in
  let? d := set_fee p d in
  let? d := set_netpnl d in
  let? d := fill_netpnl d in
  let? d := set_cumpnl d in
  let? d := set_capital p d in
  set_outofmoney p d.

Definition broker_frame (siglist : list (option Qc)) (inds : list DataFrame)
  (p : Params) (d : DataFrame) : result DataFrame :=
  let? d := set_change d in
  let? d := set_signal siglist d in
  ledger_lines p (foldl set_frame d inds).

(** Every column has the height of the index. *)
Definition frame_wf (d : DataFrame) : Prop :=
  Forall (fun nc => col_length nc.2 = frame_len d) (columns d).

(** The display names under which indicators were recorded. *)
Definition indicator_names (inds : list DataFrame) : list string :=
  inds ≫= (fun f => (columns f).*1).

(** What one column assignment does to a frame. *)
Definition assigned (n : string) (c : column) (d d' : DataFrame) : Prop :=
  index d' = index d /\
  assoc_get n (columns d') = Some c /\
  (forall m, m <> n -> assoc_get m (columns d') = assoc_get m (columns d)) /\
  (frame_wf d -> frame_wf d').

(** The ledger columns as expressions of the three columns lines 40-50
    read. *)
Definition ledger_columns (close change signal : list fnum) (p : Params) : Ledger :=
  let pos := positions signal in
  let tp := trading_pnl_of change pos p in
  let fee := fee_of close pos pos p in
  let net := fillna fzero (zip_with fsub tp fee) in
  let cum := cumsum net in
  let cap := capital_of cum p in
  mkLedger change pos tp fee net cum cap
           (Some (BoolCol (outofmoney_of cap close fee fee p))).

Definition ledger_names : list string :=
  ["pos"; "trading_pnl"; "fee"; "netpnl"; "cumpnl"; "capital"; "outofmoney"].

(** No indicator was recorded under the name of a column lines 40-50 read. *)
Definition reserved_free (inds : list DataFrame) : Prop :=
  forall n, n ∈ ["close"; "change"; "signal"] -> n ∉ indicator_names inds.

(** ** The terms of the specification

    The position the specification describes: the last order that is not
    [None] among the bars strictly before [t], and 0 when there is none. *)
Definition last_action_before (sigs : list (option Qc)) (t : nat) : option Qc :=
  list.last (omap id (take t sigs)).
Definition position_at (sigs : list (option Qc)) (t : nat) : Qc :=
  default 0%Qc (last_action_before sigs t).

(** The price change of bar [k] (undefined at bar 0), the trading profit of
    bar [k] with an undefined price change counted as 0, and plain sums. *)
Definition price_change_at (closes : list Qc) (k : nat) : option Qc :=
  match k with
  | O => None
  | S j =>
      match closes !! k, closes !! j with
      | Some c, Some c' => Some (c - c')%Qc
      | _, _ => None
      end
  end.
Definition trading_pnl_at (closes : list Qc) (sigs : list (option Qc)) (size : Qc)
  (k : nat) : Qc :=
  default 0%Qc ((fun dc => dc * position_at sigs k * size)%Qc <$> price_change_at closes k).
Definition sum_list (qs : list Qc) : Qc := foldr Qcplus 0%Qc qs.

(** The state right after [StrategyBase(df)] on a frame [df] whose index is
    ascending: the caller's frame is the only object, and both slots of the
    strategy name it. *)
Definition fresh_state (df : DataFrame) : State := mkState [df] 0 0 [].

(** [m] is the running peak of [cs] at bar [t]: the largest of the values
    up to and including [t]. *)
Definition is_peak (cs : list Qc) (t : nat) (m : Qc) : Prop :=
  (exists k, (k <= t)%nat /\ cs !! k = Some m) /\
  (forall k x, (k <= t)%nat -> cs !! k = Some x -> (x <= m)%Qc).

Definition non_decreasing (cs : list Qc) : Prop :=
  forall i j a b, (i <= j)%nat -> cs !! i = Some a -> cs !! j = Some b -> (a <= b)%Qc.

(** ** State relations

    [preserves R m]: whatever [m] does, with or without exception, the state
    it leaves is related by [R] to the state it started from. *)
Definition preserves {A} (R : State -> State -> Prop) (m : M A) : Prop :=
  forall st r st', m st = (r, st') -> R st st'.

(** What the signal loop may do to the store: add frames, rebind
    [self._data], record indicators.  No existing frame is touched. *)
Definition grows (st st' : State) : Prop :=
  heap st `prefix_of` heap st' /\
  s_data0 st' = s_data0 st /\
  s_indicators st `prefix_of` s_indicators st'.

(** ** The decision of one bar as a function of the visible prefix

    [ind_value] is the validation of lines 97-124, which reads only the
    frame [self.data] shows; [bar_action] is one turn of the loop of [_sig]
    on that frame when no indicator is recorded. *)
Definition ind_value (name : string) (out : outcome) (d : DataFrame) : result ndarray :=
  match out with
  | Errored cause => Raise (IndicatorErrored name cause)
  | Returned v =>
      match as_array v with
      | None =>
          let? close := get_num d "close" in
          Raise (IndicatorShape [length close] name None)
      | Some a =>
          let? value := flip_back a in
          let? last := index_neg (shape value) 1 in
          let? close := get_num d "close" in
          if decide (last = length close) then Ok value
          else Raise (IndicatorShape [length close] name (Some (shape value)))
      end
  end.

Fixpoint declare_values (calls : list IndicatorCall) (declared : list ndarray)
  (d : DataFrame) : result (list ndarray) :=
  match calls with
  | [] => Ok declared
  | c :: rest =>
      let? v := ind_value (ic_name c) (ic_func c d declared) d in
      declare_values rest (declared ++ [v]) d
  end.

Definition bar_action (s : Strategy) (d : DataFrame) : result (option Qc) :=
  let? declared := declare_values (indicator_calls s) [] d in
  next s d declared.


(** ** What a run may change

    [touches_only l W]: every frame object other than the one at [l] is as
    it was; the one at [l] keeps its index and every column whose name is
    not in [W]. *)
Definition touches_only (l : nat) (W : string -> Prop) (st st' : State) : Prop :=
  (forall l' d, l' <> l -> heap st !! l' = Some d -> heap st' !! l' = Some d) /\
  (forall d, heap st !! l = Some d ->
     exists d', heap st' !! l = Some d' /\ index d' = index d /\
                forall m, ~ W m -> assoc_get m (columns d') = assoc_get m (columns d)).

(** The names [_broker] assigns besides those of the indicators. *)
Definition broker_names : list string := "change" :: "signal" :: ledger_names.

Definition written (inds : list DataFrame) (m : string) : Prop :=
  m ∈ broker_names \/ m ∈ indicator_names inds.

(** The relation between the states before and after (a part of) a run. *)
Definition run_rel (l : nat) (st st' : State) : Prop :=
  touches_only l (written (s_indicators st')) st st' /\
  s_indicators st `prefix_of` s_indicators st' /\
  s_data0 st' = s_data0 st.

(** The relation for the statements after [_sig] has returned. *)
Definition tail_rel (l : nat) (W : string -> Prop) (st st' : State) : Prop :=
  touches_only l W st st' /\
  s_indicators st' = s_indicators st /\
  s_data0 st' = s_data0 st.

(** A statement of [_broker] that keeps the index and writes only columns
    named in [W]. *)
Definition bounded (W : string -> Prop) (f : DataFrame -> result DataFrame) : Prop :=
  forall d d', f d = Ok d' ->
    index d' = index d /\
    forall m, ~ W m -> assoc_get m (columns d') = assoc_get m (columns d).

(** ** Strategies whose own steps do not raise

    On every frame that has its close column, each indicator function
    returns a one-dimensional array of the height of the frame, and [next]
    returns. *)
Definition close_ok (d : DataFrame) : Prop :=
  exists close, get_num d "close" = Ok close /\ length close = frame_len d.

Definition well_behaved (s : Strategy) : Prop :=
  (forall c d declared, c ∈ indicator_calls s -> close_ok d ->
     exists xs, ic_func c d declared = Returned (RetArray (mkArray [frame_len d] xs))) /\
  (forall d declared, exists a, next s d declared = Ok a).

(** The strategy shows a frame with its close column, and its original
    table is in the store. *)
Definition loop_inv (d0 : DataFrame) (n : nat) (st : State) : Prop :=
  heap st !! s_data0 st = Some d0 /\
  exists d, heap st !! s_data st = Some d /\ close_ok d /\ frame_len d = n.

(** ** Lines 86-87 on binary64 numbers

    The cells of the capital column are IEEE 754 doubles.  The same two
    lines as [drawdown] and [max_drawdown], on the doubles themselves, with
    the rounding of every division, subtraction and product. *)
Module f64.

Definition isnan (x : float) : bool := negb (PrimFloat.eqb x x).

(** [np.maximum]: not-a-number propagates. *)
Definition np_maximum (x y : float) : float :=
  if isnan x then x else if isnan y then y
  else if PrimFloat.ltb x y then y else x.

(** [np.maximum.accumulate]. *)
Fixpoint accumulate_from (m : float) (xs : list float) : list float :=
  match xs with
  | [] => []
  | x :: rest => let m' := np_maximum m x in m' :: accumulate_from m' rest
  end.
Definition maximum_accumulate (xs : list float) : list float :=
  match xs with
  | [] => []
  | x :: rest => x :: accumulate_from x rest
  end.

(** [Series.max()], which skips not-a-number cells and is not-a-number when
    nothing is left. *)
Definition series_max_step (m x : float) : float :=
  if isnan x then m else if isnan m then x
  else if PrimFloat.ltb m x then x else m.
Definition series_max (xs : list float) : float :=
  foldl series_max_step PrimFloat.nan xs.

(** The largest finite double. *)
Definition DBL_MAX : float := 0x1.fffffffffffffp+1023%float.

(** [np.nan_to_num] with its default arguments. *)
Definition nan_to_num (x : float) : float :=
  if isnan x then 0%float
  else if PrimFloat.eqb x PrimFloat.infinity then DBL_MAX
  else if PrimFloat.eqb x PrimFloat.neg_infinity then PrimFloat.opp DBL_MAX
  else x.

Definition drawdown (capital : list float) : list float :=
  (fun q => PrimFloat.sub 1%float q)
    <$> zip_with PrimFloat.div capital (maximum_accumulate capital).
Definition max_drawdown (capital : list float) : float :=
  PrimFloat.mul (PrimFloat.opp (nan_to_num (series_max (drawdown capital)))) 100%float.

End f64.

(** ** The ledger bar by bar

    The cells of the fee and net-profit columns of a table of finite
    prices, written with the positions of [position_at]. *)
Definition abs_Qc (q : Qc) : Qc := if Qc_neg q then (- q)%Qc else q.

(** The size of the position change at bar [k]; bar 0 has no bar before
    it. *)
Definition position_change_at (sigs : list (option Qc)) (k : nat) : Qc :=
  match k with
  | O => 0%Qc
  | S j => abs_Qc (position_at sigs k - position_at sigs j)%Qc
  end.

Definition fee_at (closes : list Qc) (sigs : list (option Qc)) (p : Params) (k : nat) : Qc :=
  default 0%Qc
    ((fun c => c * size p * amount p * comm p * position_change_at sigs k)%Qc
       <$> closes !! k).

Definition netpnl_at (closes : list Qc) (sigs : list (option Qc)) (p : Params) (k : nat)
  : Qc :=
  (trading_pnl_at closes sigs (size p) k - fee_at closes sigs p k)%Qc.

(** Every order replaced by its opposite: long for short and short for
    long. *)
Definition mirror (sigs : list (option Qc)) : list (option Qc) :=
  (fun a : option Qc => Qcopp <$> a) <$> sigs.

(** ** Display names (strategybase.py, lines 73-94)

    The name under which [ind] records an indicator, which an
    [IndicatorCall] carries as [ic_name].  Python strings are sequences of
    characters; they are lists of code points here, so that [len] and slices
    count characters as Python does. *)
Definition pystr : Type := list N.

Definition pystr_of (s : string) : pystr :=
  Ascii.N_of_ascii <$> String.list_ascii_of_string s.

(** The character U+2026 that marks a shortened name. *)
Definition ellipsis : N := 8230%N.

(** What [_name_str] looks at in a value: a [Number] or a [str], with the
    text [str(value)]; a DataFrame; or any other object, with the text
    [str(getattr(value, 'name', '') or '')] and, when the object is callable,
    its [__name__] (or the name of its class). *)
Inductive pyarg : Type :=
  | ArgNumber (text : pystr)
  | ArgStr (text : pystr)
  | ArgFrame
  | ArgObject (name : pystr) (callable : option pystr).

Definition _name_str (value : pyarg) : pystr :=
  match value with
  | ArgNumber text | ArgStr text => text                         (* lines 76-77 *)
  | ArgFrame => pystr_of "df"                                    (* lines 78-79 *)
  | ArgObject name callable =>
      if decide (name ∈ pystr_of <$> ohlcv) then take 1 name     (* lines 83-84 *)
      else
        let name := default name callable in                     (* lines 85-86 *)
        if decide (10 < length name)%nat
        then take 9 name ++ [ellipsis]                           (* lines 87-88 *)
        else name
  end.

(** [sep.join(parts)]. *)
Fixpoint join (sep : pystr) (parts : list pystr) : pystr :=
  match parts with
  | [] => []
  | p :: rest =>
      match rest with
      | [] => p
      | _ :: _ => p ++ sep ++ join sep rest
      end
  end.

(** Lines 92-94: the display name of [self.ind(func, ...)], from the
    function and the positional and keyword arguments in order. *)
Definition display_name (func : pyarg) (args : list pyarg) : pystr :=
  let params := join (pystr_of ",") (filter (fun s => s <> []) (_name_str <$> args)) in
  let func_name := _name_str func in
  if decide (params = []) then func_name
  else func_name ++ pystr_of "(" ++ params ++ pystr_of ")".

(** ** [BacktestRun.plot] before it draws (strategyrun.py, lines 92-143)

    The part of [plot] that works on the run's table: the title, the check
    of [type], the three marker columns and the dictionary of marker plots.
    What follows in the source hands these to mplfinance and matplotlib. *)

(** A pandas Series: labels and values. *)
Record Series : Type := mkSeries {
  ser_labels : list Z;
  ser_values : list fnum
}.

(** [df.name] as a Series. *)
Definition series_of (d : DataFrame) (name : string) : result Series :=
  let? xs := get_num d name in Ok (mkSeries (index d) xs).

(** [df[df.name == v].name] on the Series of the column: the rows whose
    value equals [v], with their labels. *)
Definition where_eq (s : Series) (v : Qc) : Series :=
  let rows := filter (fun r => feqb r.2 (Fin v) = true)
                     (zip (ser_labels s) (ser_values s)) in
  mkSeries rows.*1 rows.*2.

Definition series_map (f : fnum -> fnum) (s : Series) : Series :=
  mkSeries (ser_labels s) (f <$> ser_values s).

Definition series_at (s : Series) (t : Z) : fnum :=
  match label_pos t (ser_labels s) with
  | Some i => default NaN (ser_values s !! i)
  | None => NaN
  end.

(** [a * b] on two Series: the operands are aligned on the union of their
    labels, and a label one of them lacks gives not-a-number.  pandas
    orders the union, which the assignment that follows aligns again; the
    labels are those of a table without repeated timestamps, as for
    [reindex_num]. *)
Definition series_mul (a b : Series) : Series :=
  let ls := ser_labels a ++ filter (fun t => t ∉ ser_labels a) (ser_labels b) in
  mkSeries ls ((fun t => fmul (series_at a t) (series_at b t)) <$> ls).

(** [df[name] = s] for a Series: aligned on the index of [df]. *)
Definition set_series (d : DataFrame) (name : string) (s : Series) : DataFrame :=
  mkFrame (index d)
    (assoc_set name (NumCol (reindex_num (ser_labels s) (ser_values s) (index d)))
               (columns d)).

Definition marker_long (d : DataFrame) : result DataFrame :=            (* line 118 *)
  let? signal := series_of d "signal" in
  let? close := series_of d "close" in
  Ok (set_series d "signal1" (series_mul (where_eq signal 1) close)).
Definition marker_offset (d : DataFrame) : result DataFrame :=          (* line 122 *)
  let? signal := series_of d "signal" in
  let? close := series_of d "close" in
  Ok (set_series d "signal0"
        (series_mul (series_map (fun x => fadd x fone) (where_eq signal 0)) close)).
Definition marker_short (d : DataFrame) : result DataFrame :=           (* line 123 *)
  let? signal := series_of d "signal" in
  let? close := series_of d "close" in
  Ok (set_series d "signal-1"
        (series_mul (series_map fneg (where_eq signal (- 1))) close)).

(** [sum(s.isnull()) != len(s)]. *)
Definition some_number (xs : list fnum) : bool :=
  bool_decide (length (filter (fun x => isnan x = true) xs) <> length xs).

(** Lines 138-144: the dictionary [ap], keys in the order of insertion. *)
Definition addplots (d : DataFrame) : result (list (string * list fnum)) :=
  let? s1 := get_num d "signal1" in
  let ap := if some_number s1 then [("long", s1)] else [] in
  let? s_1 := get_num d "signal-1" in
  let ap := ap ++ (if some_number s_1 then [("short", s_1)] else []) in
  let? s0 := get_num d "signal0" in
  let ap := ap ++ (if some_number s0 then [("offset", s0)] else []) in
  Ok ap.

Definition plot_types : list string := ["line"; "ohlc"; "candle"].

(** What [plot] raises: the [TypeError] of line 108, the [ValueError] of
    line 112, [_PlotBeforeRun] (line 120), or an exception of the table. *)
Inductive plot_exn : Type :=
  | PlotTypeError
  | PlotValueError
  | _PlotBeforeRun
  | PlotRaises (e : exn).

(** What the drawing receives: the title, the chart type, and the marker
    plots ([ap.values()]) with their legend labels ([ap.keys()]). *)
Record PlotPlan : Type := mkPlan {
  plan_title : string;
  plan_type : string;
  plan_addplot : list (string * list fnum)
}.

(** [plot] (lines 92-144).  [_result] is [self._result]: [None] until a
    [run] has returned, its report afterwards.  [title] is [None] when the
    argument is left out, and otherwise what [str(title)] gives, [None] when
    it raises. *)
Definition plot (self : BacktestRun) (_result : option Report)
  (title : option (option string)) (type : string) (st : State)
  : (plot_exn + PlotPlan) * State :=
  match match title with
        | None => Some (from_option rep_name "Backtesting Plot" _result)
        | Some text => text
        end with
  | None => (inl PlotTypeError, st)
  | Some title =>
      if decide (type ∉ plot_types) then (inl PlotValueError, st)
      else
        let l := r_data self in
        match update l marker_long st with
        | (Raise _, st) => (inl _PlotBeforeRun, st)
        | (Ok _, st) =>
            match (update l marker_offset ;;
                   update l marker_short ;;
                   let* pldata := deref l in
                   lift (addplots pldata)) st with
            | (Raise e, st) => (inl (PlotRaises e), st)
            | (Ok ap, st) => (inr (mkPlan title type ap), st)
            end
        end
  end.

(** * Theorems *)

Lemma index_neg_app {A} (pre : list A) (x y : A) :
  index_neg (pre ++ [x; y]) 2 = Ok x /\ index_neg (pre ++ [x; y]) 1 = Ok y.
Proof.
  unfold index_neg. rewrite !length_app. simpl length.
  rewrite !decide_True by lia.
  replace (length pre + 2 - 2)%nat with (length pre + 0)%nat by lia.
  replace (length pre + 2 - 1)%nat with (length pre + 1)%nat by lia.
  rewrite !lookup_app_r by lia.
  replace (length pre + 0 - length pre)%nat with 0%nat by lia.
  replace (length pre + 1 - length pre)%nat with 1%nat by lia.
  done.
Qed.


(** ** Comparisons of cells *)

Lemma fcmp_swap (x y : fnum) : fcmp y x = CompOpp <$> fcmp x y.
Proof.
  destruct x as [|[]|a], y as [|[]|b]; simpl; try reflexivity.
  unfold Qccompare. by rewrite <- Qcompare_antisym.
Qed.

Lemma fgtb_fltb (x y : fnum) : fgtb x y = fltb y x.
Proof.
  unfold fgtb, fltb. rewrite (fcmp_swap x y).
  by destruct (fcmp x y) as [[]|].
Qed.

Lemma fltb_asym (x y : fnum) : fltb x y = true -> fltb y x = false.
Proof.
  unfold fltb. rewrite (fcmp_swap x y).
  by destruct (fcmp x y) as [[]|].
Qed.

Lemma fltb_irrefl (x : fnum) : fltb x x = false.
Proof. destruct (fltb x x) eqn:E; [|done]. by rewrite (fltb_asym _ _ E) in E. Qed.

Lemma fltb_nan_l (y : fnum) : fltb NaN y = false.
Proof. done. Qed.

Lemma fltb_nan_r (x : fnum) : fltb x NaN = false.
Proof. by destruct x. Qed.

Lemma fltb_Fin (a b : Qc) : fltb (Fin a) (Fin b) = true <-> (a < b)%Qc.
Proof.
  unfold fltb, Qclt; simpl. unfold Qccompare. rewrite Qlt_alt.
  destruct (a ?= b)%Q; split; congruence.
Qed.

(** ** The crossover predicate *)

Lemma index_neg_lookup {A} (xs : list A) (k : nat) :
  (k <= length xs)%nat -> (1 <= k)%nat ->
  exists x, xs !! (length xs - k)%nat = Some x /\ index_neg xs k = Ok x.
Proof.
  intros Hk H1. unfold index_neg. rewrite decide_True by done.
  destruct (lookup_lt_is_Some_2 xs (length xs - k)%nat) as [x Hx]; [lia|].
  exists x. by rewrite Hx.
Qed.

Lemma index_neg_short {A} (xs : list A) (k : nat) :
  (length xs < k)%nat -> index_neg xs k = Raise IndexError.
Proof. intros H. unfold index_neg. by rewrite decide_False by lia. Qed.

(** With fewer than two observations [series1[-2]] raises. *)
Lemma crossover_short (A B : list fnum) :
  (length A < 2)%nat -> crossover A B = Raise IndexError.
Proof. intros H. unfold crossover. by rewrite index_neg_short. Qed.

Lemma crossover_eval (A B : list fnum) (a2 a1 b2 b1 : fnum) :
  index_neg A 2 = Ok a2 -> index_neg A 1 = Ok a1 ->
  index_neg B 2 = Ok b2 -> index_neg B 1 = Ok b1 ->
  crossover A B = Ok (if fltb a2 b2 && fgtb a1 b1 then PyTrue else PyNone).
Proof.
  intros Ha2 Ha1 Hb2 Hb1. unfold crossover. rewrite Ha2, Hb2, Ha1, Hb1.
  by destruct (fltb a2 b2), (fgtb a1 b1).
Qed.

(** C2.  For two series with at least two observations each,
    [crossover A B] returns [True] exactly when [A[-2] < B[-2]] and
    [A[-1] > B[-1]]; in every other case it returns the falsy [None]: on a
    tie at either of the two positions, and when one of the four cells is
    not-a-number (an indicator still in its warm-up).  [crossover A B] and
    [crossover B A] are never both [True]. *)
Theorem crossover_last_two (A B : list fnum) :
  (2 <= length A)%nat -> (2 <= length B)%nat ->
  exists a2 a1 b2 b1,
    A !! (length A - 2)%nat = Some a2 /\ A !! (length A - 1)%nat = Some a1 /\
    B !! (length B - 2)%nat = Some b2 /\ B !! (length B - 1)%nat = Some b1 /\
    (crossover A B = Ok PyTrue <-> fltb a2 b2 = true /\ fgtb a1 b1 = true) /\
    (crossover A B <> Ok PyTrue ->
       crossover A B = Ok PyNone /\ truthy PyNone = false) /\
    (a2 = b2 \/ a1 = b1 -> crossover A B = Ok PyNone) /\
    (isnan a2 || isnan a1 || isnan b2 || isnan b1 = true ->
       crossover A B = Ok PyNone) /\
    ~ (crossover A B = Ok PyTrue /\ crossover B A = Ok PyTrue).
Proof.
  intros HA HB.
  destruct (index_neg_lookup A 2) as (a2 & La2 & Ia2); [lia..|].
  destruct (index_neg_lookup A 1) as (a1 & La1 & Ia1); [lia..|].
  destruct (index_neg_lookup B 2) as (b2 & Lb2 & Ib2); [lia..|].
  destruct (index_neg_lookup B 1) as (b1 & Lb1 & Ib1); [lia..|].
  exists a2, a1, b2, b1.
  rewrite (crossover_eval A B a2 a1 b2 b1), (crossover_eval B A b2 b1 a2 a1) by done.
  split_and!; try done.
  - split.
    + destruct (fltb a2 b2), (fgtb a1 b1); simpl; intros; by try discriminate.
    + intros [-> ->]. done.
  - destruct (fltb a2 b2), (fgtb a1 b1); simpl; intros; by try congruence.
  - intros [->| ->].
    + by rewrite fltb_irrefl.
    + rewrite fgtb_fltb, fltb_irrefl. by destruct (fltb a2 b2).
  - intros Hn. rewrite fgtb_fltb.
    destruct a2, a1, b2, b1; simpl in Hn; try discriminate;
      rewrite ?fltb_nan_l, ?fltb_nan_r; try done;
      by match goal with |- context [fltb ?x ?y && false] => destruct (fltb x y) end.
  - intros [H1 H2]. rewrite !fgtb_fltb in *.
    destruct (fltb a2 b2) eqn:E1; [|done].
    destruct (fltb b1 a1) eqn:E2; [|done].
    by rewrite (fltb_asym _ _ E1) in H2.
Qed.

Lemma crossover_last_two_witness :
  exists a2 a1 b2 b1,
    [qz 1; qz 2; qz 5] !! 1%nat = Some a2 /\ [qz 1; qz 2; qz 5] !! 2%nat = Some a1 /\
    [qz 3; qz 3; qz 4] !! 1%nat = Some b2 /\ [qz 3; qz 3; qz 4] !! 2%nat = Some b1 /\
    (crossover [qz 1; qz 2; qz 5] [qz 3; qz 3; qz 4] = Ok PyTrue
       <-> fltb a2 b2 = true /\ fgtb a1 b1 = true) /\
    (crossover [qz 1; qz 2; qz 5] [qz 3; qz 3; qz 4] <> Ok PyTrue ->
       crossover [qz 1; qz 2; qz 5] [qz 3; qz 3; qz 4] = Ok PyNone
       /\ truthy PyNone = false) /\
    (a2 = b2 \/ a1 = b1 ->
       crossover [qz 1; qz 2; qz 5] [qz 3; qz 3; qz 4] = Ok PyNone) /\
    (isnan a2 || isnan a1 || isnan b2 || isnan b1 = true ->
       crossover [qz 1; qz 2; qz 5] [qz 3; qz 3; qz 4] = Ok PyNone) /\
    ~ (crossover [qz 1; qz 2; qz 5] [qz 3; qz 3; qz 4] = Ok PyTrue
       /\ crossover [qz 3; qz 3; qz 4] [qz 1; qz 2; qz 5] = Ok PyTrue).
Proof.
  apply (crossover_last_two [qz 1; qz 2; qz 5] [qz 3; qz 3; qz 4]); simpl; lia.
Defined.

Example crossover_up : crossover [qz 1; qz 2; qz 5] [qz 3; qz 3; qz 4] = Ok PyTrue.
Proof. vm_compute. reflexivity. Qed.

(** ** Columns of a frame *)

Lemma assoc_get_set_eq (n : string) (c : column) cols :
  assoc_get n (assoc_set n c cols) = Some c.
Proof.
  induction cols as [|[m c'] cols IH]; simpl.
  - by rewrite decide_True.
  - destruct (decide (m = n)) as [->|Hne]; simpl.
    + by rewrite decide_True.
    + by rewrite decide_False.
Qed.

Lemma assoc_get_set_ne (n m : string) (c : column) cols :
  n <> m -> assoc_get m (assoc_set n c cols) = assoc_get m cols.
Proof.
  intros Hnm. induction cols as [|[k c'] cols IH]; simpl.
  - by rewrite decide_False.
  - destruct (decide (k = n)) as [->|Hne]; simpl.
    + by rewrite !decide_False.
    + destruct (decide (k = m)); [done|apply IH].
Qed.

Lemma assoc_set_wf (n : string) (c : column) cols (h : nat) :
  col_length c = h ->
  Forall (fun nc : string * column => col_length nc.2 = h) cols ->
  Forall (fun nc : string * column => col_length nc.2 = h) (assoc_set n c cols).
Proof.
  intros Hc. induction 1 as [|[k c'] cols Hk Hrest IH]; simpl.
  - by constructor.
  - destruct (decide (k = n)); constructor; simpl in *; auto.
Qed.

Lemma assoc_get_wf (d : DataFrame) (n : string) (c : column) :
  frame_wf d -> assoc_get n (columns d) = Some c -> col_length c = frame_len d.
Proof.
  unfold frame_wf. generalize (frame_len d) as h. intros h Hwf.
  induction Hwf as [|[k c'] cols Hk _ IH]; simpl; [done|].
  destruct (decide (k = n)); [by intros [= <-]|done].
Qed.

Lemma get_num_length (d : DataFrame) (n : string) (xs : list fnum) :
  frame_wf d -> get_num d n = Ok xs -> length xs = frame_len d.
Proof.
  intros Hwf. unfold get_num.
  destruct (assoc_get n (columns d)) as [[ys|bs]|] eqn:E; intros [= <-].
  - apply (assoc_get_wf d n _ Hwf E).
  - rewrite length_fmap. apply (assoc_get_wf d n _ Hwf E).
Qed.

Lemma get_num_ext (d d' : DataFrame) (n : string) :
  assoc_get n (columns d') = assoc_get n (columns d) -> get_num d' n = get_num d n.
Proof. unfold get_num. by intros ->. Qed.

Lemma set_col_assigned (d : DataFrame) (n : string) (c : column) :
  col_length c = frame_len d ->
  exists d', set_col d n c = Ok d' /\ assigned n c d d'.
Proof.
  intros Hc. unfold set_col. rewrite decide_True by done.
  eexists; split; [done|]. split_and!; simpl.
  - done.
  - apply assoc_get_set_eq.
  - intros m Hm. by apply assoc_get_set_ne.
  - intros Hwf. by apply assoc_set_wf.
Qed.

Lemma set_col_mismatch (d : DataFrame) (n : string) (c : column) :
  col_length c <> frame_len d ->
  set_col d n c = Raise (LengthMismatch (col_length c) (frame_len d)).
Proof. intros Hc. unfold set_col. by rewrite decide_False. Qed.

Lemma assigned_get_num (n : string) (xs : list fnum) (d d' : DataFrame) :
  assigned n (NumCol xs) d d' -> get_num d' n = Ok xs.
Proof. intros (_ & H & _). unfold get_num. by rewrite H. Qed.

Lemma assigned_get_other (n m : string) (c : column) (d d' : DataFrame) :
  assigned n c d d' -> m <> n -> get_num d' m = get_num d m.
Proof. intros (_ & _ & H & _) Hm. apply get_num_ext. by apply H. Qed.

(** ** Lengths of the column operations *)

Lemma length_shift (xs : list fnum) : length (shift xs) = length xs.
Proof. unfold shift. rewrite length_take. simpl. lia. Qed.

Lemma length_ffill_from (a : fnum) (xs : list fnum) :
  length (ffill_from a xs) = length xs.
Proof. revert a. induction xs as [|x xs IH]; intros a; simpl; [done|]. by rewrite IH. Qed.

Lemma length_cumsum_from (a : fnum) (xs : list fnum) :
  length (cumsum_from a xs) = length xs.
Proof.
  revert a. induction xs as [|x xs IH]; intros a; simpl; [done|].
  destruct (isnan x); simpl; by rewrite IH.
Qed.

Lemma length_positions (signal : list fnum) : length (positions signal) = length signal.
Proof.
  unfold positions, fillna, ffill.
  by rewrite length_fmap, length_shift, length_ffill_from.
Qed.

Lemma length_diff (xs : list fnum) : length (diff xs) = length xs.
Proof. unfold diff. rewrite length_zip_with, length_shift. lia. Qed.

Lemma length_signal_column (sigs : list (option Qc)) :
  length (signal_column sigs) = length sigs.
Proof. unfold signal_column. by rewrite length_fmap. Qed.

Ltac solve_len :=
  unfold trading_pnl_of, fee_of, capital_of, outofmoney_of, scale, fillna, cumsum,
    ffill, diff;
  repeat rewrite ?length_fmap, ?length_zip_with, ?length_shift, ?length_cumsum_from,
    ?length_ffill_from, ?length_positions, ?length_signal_column;
  simpl; lia.

(** ** Lines 40-50 on one frame *)

Ltac carry H HA :=
  let T := type of H in
  match T with
  | get_num ?d ?m = ?r =>
      match type of HA with
      | assigned ?n ?c d ?d' =>
          let H' := fresh H in
          assert (H' : get_num d' m = r)
            by (rewrite (assigned_get_other n m c d d' HA) by discriminate; exact H)
      end
  end.

Lemma assigned_len (n : string) (c : column) (d d' : DataFrame) :
  assigned n c d d' -> frame_len d' = frame_len d.
Proof. intros (H & _). unfold frame_len. by rewrite H. Qed.

Lemma ledger_lines_spec (p : Params) (d : DataFrame) (close change signal : list fnum) :
  frame_wf d ->
  get_num d "close" = Ok close ->
  get_num d "change" = Ok change ->
  get_num d "signal" = Ok signal ->
  exists d',
    ledger_lines p d = Ok d' /\
    index d' = index d /\
    frame_wf d' /\
    ledger_of d' = Ok (ledger_columns close change signal p) /\
    (forall m, m ∉ ledger_names ->
               assoc_get m (columns d') = assoc_get m (columns d)).
Proof.
  intros Hwf Hclose Hchange Hsignal.
  pose proof (get_num_length _ _ _ Hwf Hclose) as Lclose.
  pose proof (get_num_length _ _ _ Hwf Hchange) as Lchange.
  pose proof (get_num_length _ _ _ Hwf Hsignal) as Lsignal.
  unfold ledger_lines.
  (* line 40 *)
  unfold set_pos at 1. rewrite Hsignal. simpl rbind at 2.
  destruct (set_col_assigned d "pos" (NumCol (positions signal))) as (d1 & -> & A1);
    [simpl; solve_len|].
  simpl rbind at 1.
  pose proof (assigned_len _ _ _ _ A1) as N1.
  pose proof (assigned_get_num _ _ _ _ A1) as Hpos.
  carry Hclose A1. carry Hchange A1.
  (* line 41 *)
  unfold set_trading_pnl at 1. rewrite Hchange0, Hpos. simpl rbind at 2.
  destruct (set_col_assigned d1 "trading_pnl"
              (NumCol (trading_pnl_of change (positions signal) p))) as (d2 & -> & A2);
    [simpl; solve_len|].
  simpl rbind at 1.
  pose proof (assigned_len _ _ _ _ A2) as N2.
  pose proof (assigned_get_num _ _ _ _ A2) as Htp.
  carry Hclose0 A2. carry Hchange0 A2. carry Hpos A2.
  (* lines 42-43 *)
  unfold set_fee at 1. rewrite Hclose1, Hpos0. simpl rbind at 2.
  destruct (set_col_assigned d2 "fee"
              (NumCol (fee_of close (positions signal) (positions signal) p)))
    as (d3 & -> & A3); [simpl; solve_len|].
  simpl rbind at 1.
  pose proof (assigned_len _ _ _ _ A3) as N3.
  pose proof (assigned_get_num _ _ _ _ A3) as Hfee.
  carry Hclose1 A3. carry Hchange1 A3. carry Hpos0 A3. carry Htp A3.
  (* line 44 *)
  unfold set_netpnl at 1. rewrite Htp0, Hfee. simpl rbind at 2.
  destruct (set_col_assigned d3 "netpnl"
              (NumCol (zip_with fsub (trading_pnl_of change (positions signal) p)
                         (fee_of close (positions signal) (positions signal) p))))
    as (d4 & -> & A4); [simpl; solve_len|].
  simpl rbind at 1.
  pose proof (assigned_len _ _ _ _ A4) as N4.
  pose proof (assigned_get_num _ _ _ _ A4) as Hnet.
  carry Hclose2 A4. carry Hchange2 A4. carry Hpos1 A4. carry Htp0 A4. carry Hfee A4.
  (* line 45 *)
  unfold fill_netpnl at 1. rewrite Hnet. simpl rbind at 2.
  destruct (set_col_assigned d4 "netpnl"
              (NumCol (fillna fzero
                 (zip_with fsub (trading_pnl_of change (positions signal) p)
                    (fee_of close (positions signal) (positions signal) p)))))
    as (d5 & -> & A5); [simpl; solve_len|].
  simpl rbind at 1.
  pose proof (assigned_len _ _ _ _ A5) as N5.
  pose proof (assigned_get_num _ _ _ _ A5) as Hnet'.
  carry Hclose3 A5. carry Hchange3 A5. carry Hpos2 A5. carry Htp1 A5. carry Hfee0 A5.
  (* line 46 *)
  unfold set_cumpnl at 1. rewrite Hnet'. simpl rbind at 2.
  match goal with |- context [set_col d5 "cumpnl" ?c] =>
    destruct (set_col_assigned d5 "cumpnl" c) as (d6 & -> & A6); [simpl; solve_len|] end.
  simpl rbind at 1.
  pose proof (assigned_len _ _ _ _ A6) as N6.
  pose proof (assigned_get_num _ _ _ _ A6) as Hcum.
  carry Hclose4 A6. carry Hchange4 A6. carry Hpos3 A6. carry Htp2 A6. carry Hfee1 A6.
  carry Hnet' A6.
  (* line 47 *)
  unfold set_capital at 1. rewrite Hcum. simpl rbind at 2.
  match goal with |- context [set_col d6 "capital" ?c] =>
    destruct (set_col_assigned d6 "capital" c) as (d7 & -> & A7); [simpl; solve_len|] end.
  simpl rbind at 1.
  pose proof (assigned_len _ _ _ _ A7) as N7.
  pose proof (assigned_get_num _ _ _ _ A7) as Hcap.
  carry Hclose5 A7. carry Hchange5 A7. carry Hpos4 A7. carry Htp3 A7. carry Hfee2 A7.
  carry Hnet'0 A7. carry Hcum A7.
  (* lines 48-50 *)
  unfold set_outofmoney. rewrite Hcap, Hclose6, Hfee3. simpl rbind.
  match goal with |- context [set_col d7 "outofmoney" ?c] =>
    destruct (set_col_assigned d7 "outofmoney" c) as (d8 & -> & A8); [simpl; solve_len|] end.
  carry Hclose6 A8. carry Hchange6 A8. carry Hpos5 A8. carry Htp4 A8. carry Hfee3 A8.
  carry Hnet'1 A8. carry Hcum0 A8. carry Hcap A8.
  exists d8. split_and!.
  - done.
  - destruct A1 as [I1 _], A2 as [I2 _], A3 as [I3 _], A4 as [I4 _], A5 as [I5 _],
      A6 as [I6 _], A7 as [I7 _], A8 as [I8 _]. congruence.
  - destruct A1 as (_&_&_&W1), A2 as (_&_&_&W2), A3 as (_&_&_&W3), A4 as (_&_&_&W4),
      A5 as (_&_&_&W5), A6 as (_&_&_&W6), A7 as (_&_&_&W7), A8 as (_&_&_&W8). auto 10.
  - unfold ledger_of.
    rewrite Hchange7, Hpos6, Htp5, Hfee4, Hnet'2, Hcum1, Hcap0.
    destruct A8 as (_ & -> & _). done.
  - intros m Hm. unfold ledger_names in Hm.
    destruct A1 as (_&_&E1&_), A2 as (_&_&E2&_), A3 as (_&_&E3&_), A4 as (_&_&E4&_),
      A5 as (_&_&E5&_), A6 as (_&_&E6&_), A7 as (_&_&E7&_), A8 as (_&_&E8&_).
    rewrite E8, E7, E6, E5, E4, E3, E2, E1; try done;
      intros ->; apply Hm; rewrite !elem_of_cons; tauto.
Qed.

(** ** Lines 36-39 on one frame *)

Lemma foldl_assoc_set_get_ne (g : column -> column) (m : string)
  (l : list (string * column)) cols :
  m ∉ l.*1 ->
  assoc_get m (foldl (fun cols nc => assoc_set nc.1 (g nc.2) cols) cols l)
  = assoc_get m cols.
Proof.
  revert cols. induction l as [|[n c] l IH]; intros cols Hm; simpl; [done|].
  simpl in Hm. apply not_elem_of_cons in Hm as [Hne Hm].
  rewrite IH by done. by apply assoc_get_set_ne.
Qed.

Lemma foldl_assoc_set_is_Some (g : column -> column) (m : string)
  (l : list (string * column)) cols :
  is_Some (assoc_get m cols) ->
  is_Some (assoc_get m (foldl (fun cols nc => assoc_set nc.1 (g nc.2) cols) cols l)).
Proof.
  revert cols. induction l as [|[n c] l IH]; intros cols Hm; simpl; [done|].
  apply IH. destruct (decide (n = m)) as [->|Hne].
  - rewrite assoc_get_set_eq. eauto.
  - by rewrite assoc_get_set_ne.
Qed.

Lemma foldl_assoc_set_wf (g : column -> column) (h : nat)
  (l : list (string * column)) cols :
  (forall c, col_length (g c) = h) ->
  Forall (fun nc : string * column => col_length nc.2 = h) cols ->
  Forall (fun nc : string * column => col_length nc.2 = h)
         (foldl (fun cols nc => assoc_set nc.1 (g nc.2) cols) cols l).
Proof.
  intros Hg. revert cols. induction l as [|[n c] l IH]; intros cols Hwf; simpl; [done|].
  apply IH. by apply assoc_set_wf.
Qed.

Lemma reindex_col_length (src : list Z) (c : column) (tgt : list Z) :
  col_length (reindex_col src c tgt) = length tgt.
Proof. destruct c; simpl; unfold reindex_num; by rewrite length_fmap. Qed.

Lemma set_frame_index (d f : DataFrame) : index (set_frame d f) = index d.
Proof. done. Qed.

Lemma set_frame_wf (d f : DataFrame) : frame_wf d -> frame_wf (set_frame d f).
Proof.
  unfold frame_wf, set_frame, frame_len; simpl. intros Hwf.
  apply (foldl_assoc_set_wf (fun c => reindex_col (index f) c (index d)));
    [intros c; apply reindex_col_length|done].
Qed.

Lemma set_frame_get_ne (d f : DataFrame) (m : string) :
  m ∉ (columns f).*1 ->
  assoc_get m (columns (set_frame d f)) = assoc_get m (columns d).
Proof.
  intros Hm. unfold set_frame; simpl.
  by apply (foldl_assoc_set_get_ne (fun c => reindex_col (index f) c (index d))).
Qed.

Lemma set_frame_is_Some (d f : DataFrame) (m : string) :
  is_Some (assoc_get m (columns d)) ->
  is_Some (assoc_get m (columns (set_frame d f))).
Proof.
  intros Hm. unfold set_frame; simpl.
  by apply (foldl_assoc_set_is_Some (fun c => reindex_col (index f) c (index d))).
Qed.

Lemma set_frames_index (inds : list DataFrame) (d : DataFrame) :
  index (foldl set_frame d inds) = index d.
Proof. revert d. induction inds as [|f inds IH]; intros d; simpl; [done|]. by rewrite IH. Qed.

Lemma set_frames_wf (inds : list DataFrame) (d : DataFrame) :
  frame_wf d -> frame_wf (foldl set_frame d inds).
Proof.
  revert d. induction inds as [|f inds IH]; intros d Hwf; simpl; [done|].
  apply IH. by apply set_frame_wf.
Qed.

Lemma set_frames_get_ne (inds : list DataFrame) (d : DataFrame) (m : string) :
  m ∉ indicator_names inds ->
  assoc_get m (columns (foldl set_frame d inds)) = assoc_get m (columns d).
Proof.
  revert d. induction inds as [|f inds IH]; intros d Hm; simpl; [done|].
  unfold indicator_names in Hm. simpl in Hm.
  apply not_elem_of_app in Hm as [Hf Hm].
  rewrite IH by done. by apply set_frame_get_ne.
Qed.

Lemma set_frames_is_Some (inds : list DataFrame) (d : DataFrame) (m : string) :
  is_Some (assoc_get m (columns d)) ->
  is_Some (assoc_get m (columns (foldl set_frame d inds))).
Proof.
  revert d. induction inds as [|f inds IH]; intros d Hm; simpl; [done|].
  apply IH. by apply set_frame_is_Some.
Qed.

Lemma get_num_is_Some (d : DataFrame) (m : string) :
  is_Some (assoc_get m (columns d)) -> exists xs, get_num d m = Ok xs.
Proof. intros [[xs|bs] H]; unfold get_num; rewrite H; eauto. Qed.

Lemma get_num_Ok_is_Some (d : DataFrame) (m : string) (xs : list fnum) :
  get_num d m = Ok xs -> is_Some (assoc_get m (columns d)).
Proof. unfold get_num. destruct (assoc_get m (columns d)) as [[]|]; eauto. done. Qed.

Lemma broker_frame_total (sigs : list (option Qc)) (inds : list DataFrame)
  (p : Params) (d : DataFrame) (close : list fnum) :
  frame_wf d ->
  get_num d "close" = Ok close ->
  length sigs = frame_len d ->
  exists d' close2 change2 signal2,
    broker_frame sigs inds p d = Ok d' /\
    index d' = index d /\
    frame_wf d' /\
    ledger_of d' = Ok (ledger_columns close2 change2 signal2 p) /\
    get_num d' "close" = Ok close2 /\
    (length close2 = frame_len d /\ length change2 = frame_len d
     /\ length signal2 = frame_len d) /\
    (reserved_free inds ->
       close2 = close /\ change2 = diff close /\ signal2 = signal_column sigs) /\
    (forall m, m ∉ "change" :: "signal" :: ledger_names ++ indicator_names inds ->
               assoc_get m (columns d') = assoc_get m (columns d)).
Proof.
  intros Hwf Hclose Hlen.
  pose proof (get_num_length _ _ _ Hwf Hclose) as Lclose.
  unfold broker_frame, set_change. rewrite Hclose. cbn [rbind].
  destruct (set_col_assigned d "change" (NumCol (diff close))) as (d1 & -> & A1);
    [simpl; solve_len|].
  cbn [rbind]. unfold set_signal.
  pose proof (assigned_len _ _ _ _ A1) as N1.
  destruct (set_col_assigned d1 "signal" (NumCol (signal_column sigs))) as (d2 & -> & A2);
    [simpl; solve_len|].
  cbn [rbind].
  pose proof (assigned_len _ _ _ _ A2) as N2.
  pose proof (assigned_get_num _ _ _ _ A1) as Hchange.
  pose proof (assigned_get_num _ _ _ _ A2) as Hsignal.
  carry Hclose A1. carry Hclose0 A2. carry Hchange A2.
  set (d3 := foldl set_frame d2 inds).
  assert (Hwf3 : frame_wf d3).
  { apply set_frames_wf. destruct A1 as (_&_&_&W1), A2 as (_&_&_&W2). auto. }
  assert (N3 : frame_len d3 = frame_len d).
  { unfold frame_len, d3. rewrite set_frames_index. unfold frame_len in *. lia. }
  destruct (get_num_is_Some d3 "close") as [close2 Hc2].
  { apply set_frames_is_Some. eapply get_num_Ok_is_Some, Hclose1. }
  destruct (get_num_is_Some d3 "change") as [change2 Hch2].
  { apply set_frames_is_Some. eapply get_num_Ok_is_Some, Hchange0. }
  destruct (get_num_is_Some d3 "signal") as [signal2 Hs2].
  { apply set_frames_is_Some. eapply get_num_Ok_is_Some, Hsignal. }
  destruct (ledger_lines_spec p d3 close2 change2 signal2 Hwf3 Hc2 Hch2 Hs2)
    as (d' & Hrun & Hidx & Hwf' & Hled & Hother).
  exists d', close2, change2, signal2. split_and!; try done.
  - rewrite Hidx. unfold d3. rewrite set_frames_index.
    destruct A1 as [I1 _], A2 as [I2 _]. congruence.
  - rewrite <- Hc2. apply get_num_ext, Hother.
    unfold ledger_names. rewrite !not_elem_of_cons. split_and!; try done.
    apply not_elem_of_nil.
  - rewrite <- N3. by apply (get_num_length d3 "close").
  - rewrite <- N3. by apply (get_num_length d3 "change").
  - rewrite <- N3. by apply (get_num_length d3 "signal").
  - intros Hfree.
    assert (forall n xs, n ∈ ["close"; "change"; "signal"] ->
                         get_num d2 n = Ok xs -> get_num d3 n = Ok xs) as Hkeep.
    { intros n xs Hn <-. apply get_num_ext, set_frames_get_ne. by apply Hfree. }
    split_and!.
    + assert (Ok close2 = Ok close) as [= ->]; [|done].
      rewrite <- Hc2. apply Hkeep; [|done]. rewrite !elem_of_cons; tauto.
    + assert (Ok change2 = Ok (diff close)) as [= ->]; [|done].
      rewrite <- Hch2. apply Hkeep; [|done]. rewrite !elem_of_cons; tauto.
    + assert (Ok signal2 = Ok (signal_column sigs)) as [= ->]; [|done].
      rewrite <- Hs2. apply Hkeep; [|done]. rewrite !elem_of_cons; tauto.
  - intros m Hm.
    rewrite !not_elem_of_cons, not_elem_of_app in Hm.
    destruct Hm as (Hm1 & Hm2 & Hm3 & Hm4).
    rewrite Hother by done. unfold d3. rewrite set_frames_get_ne by done.
    destruct A1 as (_&_&E1&_), A2 as (_&_&E2&_).
    rewrite E2, E1; done.
Qed.

(** ** Running the in-place updates *)

Lemma lookup_with_frame (st : State) (l : nat) (d d0 : DataFrame) :
  heap st !! l = Some d0 -> heap (with_frame st l d) !! l = Some d.
Proof. intros H. simpl. apply list_lookup_insert_eq. by eapply lookup_lt_Some. Qed.

Lemma with_frame_twice (st : State) (l : nat) (d1 d2 : DataFrame) :
  with_frame (with_frame st l d1) l d2 = with_frame st l d2.
Proof. unfold with_frame; simpl. by rewrite list_insert_insert_eq. Qed.

Lemma with_frame_id (st : State) (l : nat) (d : DataFrame) :
  heap st !! l = Some d -> with_frame st l d = st.
Proof.
  intros H. destruct st as [h a b c]; unfold with_frame; simpl in *.
  by rewrite list_insert_id.
Qed.

Lemma update_ok (l : nat) (f : DataFrame -> result DataFrame) (st : State)
  (d d' : DataFrame) :
  heap st !! l = Some d -> f d = Ok d' ->
  update l f st = (Ok tt, with_frame st l d').
Proof.
  intros Hl Hf. unfold update, bind, deref, lift, store. rewrite Hl; simpl.
  by rewrite Hf.
Qed.

Lemma update_raise (l : nat) (f : DataFrame -> result DataFrame) (st : State)
  (d : DataFrame) (e : exn) :
  heap st !! l = Some d -> f d = Raise e -> update l f st = (Raise e, st).
Proof.
  intros Hl Hf. unfold update, bind, deref, lift, store. rewrite Hl; simpl.
  by rewrite Hf.
Qed.

Lemma bind_update {B} (l : nat) (f : DataFrame -> result DataFrame) (k : M B)
  (st : State) (d d' : DataFrame) :
  heap st !! l = Some d -> f d = Ok d' ->
  bind (update l f) (fun _ => k) st = k (with_frame st l d').
Proof. intros Hl Hf. unfold bind at 1. by rewrite (update_ok l f st d d'). Qed.

Lemma assign_indicators_ok (l : nat) (inds : list DataFrame) (st : State)
  (d : DataFrame) :
  heap st !! l = Some d ->
  assign_indicators l inds st = (Ok tt, with_frame st l (foldl set_frame d inds)).
Proof.
  revert st d. induction inds as [|f inds IH]; intros st d Hl; simpl.
  - by rewrite with_frame_id.
  - rewrite (bind_update l _ _ st d (set_frame d f)) by done.
    rewrite (IH _ (set_frame d f)) by (by eapply lookup_with_frame).
    by rewrite with_frame_twice.
Qed.

Ltac split_rbind H x E :=
  match type of H with
  | rbind ?r _ = Ok _ =>
      destruct r as [x|] eqn:E; [cbn [rbind] in H | discriminate H]
  end.

Lemma broker_with_run (sig : M (list (option Qc))) (self : BacktestRun) (p : Params)
  (st st2 : State) (d d1 d' : DataFrame) (sigs : list (option Qc)) :
  heap st !! r_data self = Some d ->
  set_change d = Ok d1 ->
  sig (with_frame st (r_data self) d1) = (Ok sigs, st2) ->
  heap st2 !! r_data self = Some d1 ->
  rbind (set_signal sigs d1)
        (fun d => ledger_lines p (foldl set_frame d (s_indicators st2))) = Ok d' ->
  _broker_with sig self p st = (Ok tt, with_frame st2 (r_data self) d').
Proof.
  intros Hl Hch Hsig Hl2 Hrun.
  unfold _broker_with. set (l := r_data self) in *.
  rewrite (bind_update l _ _ st d d1) by done.
  unfold bind at 1. rewrite Hsig.
  split_rbind Hrun d2 E2.
  rewrite (bind_update l _ _ st2 d1 d2) by done.
  unfold bind at 1, get_indicators at 1. cbn [s_indicators with_frame].
  unfold bind at 1.
  rewrite (assign_indicators_ok l _ _ d2) by (by eapply lookup_with_frame).
  rewrite with_frame_twice.
  unfold ledger_lines in Hrun.
  set (d3 := foldl set_frame d2 (s_indicators st2)) in *.
  split_rbind Hrun e1 E3. split_rbind Hrun e2 E4. split_rbind Hrun e3 E5.
  split_rbind Hrun e4 E6. split_rbind Hrun e5 E7. split_rbind Hrun e6 E8.
  split_rbind Hrun e7 E9.
  rewrite (bind_update l _ _ _ d3 e1) by (done || by eapply lookup_with_frame).
  rewrite with_frame_twice.
  rewrite (bind_update l _ _ _ e1 e2) by (done || by eapply lookup_with_frame).
  rewrite with_frame_twice.
  rewrite (bind_update l _ _ _ e2 e3) by (done || by eapply lookup_with_frame).
  rewrite with_frame_twice.
  rewrite (bind_update l _ _ _ e3 e4) by (done || by eapply lookup_with_frame).
  rewrite with_frame_twice.
  rewrite (bind_update l _ _ _ e4 e5) by (done || by eapply lookup_with_frame).
  rewrite with_frame_twice.
  rewrite (bind_update l _ _ _ e5 e6) by (done || by eapply lookup_with_frame).
  rewrite with_frame_twice.
  rewrite (bind_update l _ _ _ e6 e7) by (done || by eapply lookup_with_frame).
  rewrite with_frame_twice.
  rewrite (update_ok l _ _ e7 d') by (done || by eapply lookup_with_frame).
  by rewrite with_frame_twice.
Qed.

Lemma broker_with_ret (self : BacktestRun) (p : Params) (st : State)
  (d d' : DataFrame) (sigs : list (option Qc)) :
  heap st !! r_data self = Some d ->
  broker_frame sigs (s_indicators st) p d = Ok d' ->
  _broker_with (ret sigs) self p st = (Ok tt, with_frame st (r_data self) d').
Proof.
  intros Hl Hrun. unfold broker_frame in Hrun.
  split_rbind Hrun d1 E1.
  rewrite (broker_with_run (ret sigs) self p st (with_frame st (r_data self) d1) d d1 d' sigs);
    try done.
  - by rewrite with_frame_twice.
  - by eapply lookup_with_frame.
Qed.

(** ** Positions: forward fill, then one bar of lag *)

Lemma lookup_shift_0 (xs : list fnum) : xs <> [] -> shift xs !! 0%nat = Some NaN.
Proof. destruct xs; [done|]. intros _. done. Qed.

Lemma lookup_shift_S (xs : list fnum) (k : nat) :
  (S k < length xs)%nat -> shift xs !! S k = xs !! k.
Proof. intros H. unfold shift. rewrite lookup_take_lt by done. done. Qed.

Lemma ffill_from_lookup (a : fnum) (sigs : list (option Qc)) (k : nat) :
  (k < length sigs)%nat ->
  ffill_from a (signal_column sigs) !! k
  = Some (from_option Fin a (list.last (omap id (take (S k) sigs)))).
Proof.
  revert a k. induction sigs as [|s sigs IH]; intros a k Hk; simpl in Hk; [lia|].
  destruct k as [|k].
  - simpl. by destruct s.
  - change (take (S (S k)) (s :: sigs)) with (s :: take (S k) sigs).
    cbn [signal_column fmap list_fmap ffill_from lookup list_lookup].
    change (list_fmap _ _ (from_option Fin NaN) sigs) with (signal_column sigs).
    rewrite IH by lia. f_equal.
    destruct s as [q|]; simpl.
    + rewrite last_cons. unfold omap.
      by destruct (list.last (list_omap _ _ id (take (S k) sigs))).
    + done.
Qed.

Lemma positions_lookup (sigs : list (option Qc)) (t : nat) :
  (t < length sigs)%nat ->
  positions (signal_column sigs) !! t = Some (Fin (position_at sigs t)).
Proof.
  intros Ht. unfold positions, fillna, position_at, last_action_before.
  rewrite list_lookup_fmap.
  destruct t as [|k].
  - rewrite lookup_shift_0.
    + by rewrite take_0.
    + unfold ffill. intros E. apply (f_equal length) in E.
      rewrite length_ffill_from, length_signal_column in E. simpl in E. lia.
  - rewrite lookup_shift_S
      by (unfold ffill; rewrite length_ffill_from, length_signal_column; lia).
    unfold ffill. rewrite ffill_from_lookup by lia. simpl.
    by destruct (list.last (omap id (take (S k) sigs))).
Qed.

Lemma last_action_before_none (sigs : list (option Qc)) (t : nat) :
  (forall k, (k < t)%nat -> sigs !! k = Some None) ->
  last_action_before sigs t = None.
Proof.
  unfold last_action_before. revert sigs.
  induction t as [|t IH]; intros sigs H; [by rewrite take_0|].
  destruct sigs as [|s sigs]; [done|].
  simpl. pose proof (H 0%nat ltac:(lia)) as H0. simpl in H0. injection H0 as ->.
  simpl. apply IH. intros k Hk. apply (H (S k)). lia.
Qed.

(** ** The ledger of a table of finite prices *)

Section finite_ledger.
Local Open Scope Qc_scope.

Variable closes : list Qc.
Variable sigs : list (option Qc).
Variable p : Params.
Hypothesis same_length : length sigs = length closes.

Let close := Fin <$> closes.
Let pos := positions (signal_column sigs).

Lemma diff_lookup (k : nat) :
  (k < length closes)%nat ->
  diff close !! k = Some (from_option Fin NaN (price_change_at closes k)).
Proof.
  intros Hk. unfold diff, close. rewrite lookup_zip_with, list_lookup_fmap.
  destruct (lookup_lt_is_Some_2 closes k Hk) as [c Hc]. rewrite Hc. simpl.
  destruct k as [|j].
  - rewrite lookup_shift_0 by (destruct closes; [simpl in Hk; lia|done]). done.
  - rewrite lookup_shift_S by (rewrite length_fmap; lia).
    rewrite list_lookup_fmap.
    destruct (lookup_lt_is_Some_2 closes j) as [c' Hc']; [lia|].
    unfold price_change_at. rewrite Hc, Hc'. done.
Qed.

Lemma trading_pnl_lookup (k : nat) :
  (k < length closes)%nat ->
  trading_pnl_of (diff close) pos p !! k
  = Some (from_option (fun dc => Fin (dc * position_at sigs k * size p)) NaN
            (price_change_at closes k)).
Proof.
  intros Hk. unfold trading_pnl_of, scale, pos.
  rewrite list_lookup_fmap, lookup_zip_with, diff_lookup by done.
  rewrite positions_lookup by lia. simpl.
  by destruct (price_change_at closes k).
Qed.

Lemma position_delta_lookup (k : nat) :
  (k < length closes)%nat ->
  exists f, fillna fzero (fabs <$> zip_with fsub pos (shift pos)) !! k = Some (Fin f).
Proof.
  intros Hk. unfold fillna. rewrite !list_lookup_fmap, lookup_zip_with.
  unfold pos. rewrite positions_lookup by lia. simpl.
  destruct k as [|j].
  - rewrite lookup_shift_0.
    + simpl. by eexists.
    + intros E. apply (f_equal length) in E.
      rewrite length_positions, length_signal_column in E. simpl in E. lia.
  - rewrite lookup_shift_S by (rewrite length_positions, length_signal_column; lia).
    rewrite positions_lookup by lia. simpl. by eexists.
Qed.

Lemma fee_lookup_zero (k : nat) :
  comm p = 0 -> (k < length closes)%nat ->
  fee_of close pos pos p !! k = Some (Fin 0).
Proof.
  intros Hcomm Hk. unfold fee_of.
  rewrite lookup_zip_with. unfold scale, close. rewrite !list_lookup_fmap.
  destruct (lookup_lt_is_Some_2 closes k Hk) as [c Hc]. rewrite Hc. simpl.
  destruct (position_delta_lookup k Hk) as [f Hf]. fold close pos.
  unfold close in Hf. rewrite Hf. simpl. rewrite Hcomm. do 2 f_equal. ring.
Qed.

Lemma netpnl_lookup_zero (k : nat) :
  comm p = 0 -> (k < length closes)%nat ->
  fillna fzero (zip_with fsub (trading_pnl_of (diff close) pos p) (fee_of close pos pos p))
    !! k
  = Some (Fin (trading_pnl_at closes sigs (size p) k)).
Proof.
  intros Hcomm Hk. unfold fillna.
  rewrite list_lookup_fmap, lookup_zip_with, trading_pnl_lookup, fee_lookup_zero by done.
  simpl. unfold trading_pnl_at.
  destruct (price_change_at closes k) as [dc|]; simpl; [|done].
  do 2 f_equal. ring.
Qed.

Lemma netpnl_zero_fin :
  comm p = 0 ->
  fillna fzero (zip_with fsub (trading_pnl_of (diff close) pos p) (fee_of close pos pos p))
  = Fin <$> (trading_pnl_at closes sigs (size p) <$> seq 0 (length closes)).
Proof.
  intros Hcomm. apply list_eq. intros k.
  destruct (decide (k < length closes)%nat) as [Hk|Hk].
  - rewrite netpnl_lookup_zero by done.
    rewrite !list_lookup_fmap, lookup_seq_lt by done. done.
  - rewrite !lookup_ge_None_2; [done| |].
    + rewrite !length_fmap, length_seq. lia.
    + unfold pos, close. solve_len.
Qed.

End finite_ledger.

Lemma cumsum_from_fin (a : Qc) (qs : list Qc) (t : nat) :
  (t < length qs)%nat ->
  cumsum_from (Fin a) (Fin <$> qs) !! t = Some (Fin (a + sum_list (take (S t) qs))%Qc).
Proof.
  revert a t. induction qs as [|q qs IH]; intros a t Ht; simpl in Ht; [lia|].
  destruct t as [|t]; simpl.
  - do 2 f_equal. ring.
  - rewrite IH by lia. do 2 f_equal. simpl. ring.
Qed.

Lemma ledger_of_inv (d : DataFrame) (L : Ledger) :
  ledger_of d = Ok L ->
  get_num d "change" = Ok (led_change L) /\ get_num d "pos" = Ok (led_pos L) /\
  get_num d "trading_pnl" = Ok (led_trading_pnl L) /\ get_num d "fee" = Ok (led_fee L) /\
  get_num d "netpnl" = Ok (led_netpnl L) /\ get_num d "cumpnl" = Ok (led_cumpnl L) /\
  get_num d "capital" = Ok (led_capital L) /\
  assoc_get "outofmoney" (columns d) = led_outofmoney L.
Proof.
  unfold ledger_of.
  destruct (get_num d "change"), (get_num d "pos"), (get_num d "trading_pnl"),
    (get_num d "fee"), (get_num d "netpnl"), (get_num d "cumpnl"),
    (get_num d "capital"); try discriminate.
  by intros [= <-].
Qed.


(** Concrete cells are compared through their plain values. *)
Lemma show_inj (x y : fnum) : show x = show y -> x = y.
Proof.
  destruct x as [|b|q], y as [|b'|q']; simpl; try discriminate; try done.
  - by intros [= ->].
  - intros [= E]. f_equal. apply Qc_is_canon. by rewrite E.
Qed.


(** The broker on a given order list, from a state where no indicator
    bears a reserved name: it succeeds and the ledger columns are the column
    expressions of the close prices and the orders. *)
Lemma broker_ret_ledger (self : BacktestRun) (p : Params) (st : State)
  (d : DataFrame) (close : list fnum) (sigs : list (option Qc)) :
  heap st !! r_data self = Some d ->
  frame_wf d ->
  get_num d "close" = Ok close ->
  length sigs = frame_len d ->
  reserved_free (s_indicators st) ->
  exists d',
    _broker_with (ret sigs) self p st = (Ok tt, with_frame st (r_data self) d') /\
    index d' = index d /\ frame_wf d' /\
    get_num d' "close" = Ok close /\
    ledger_of d' = Ok (ledger_columns close (diff close) (signal_column sigs) p).
Proof.
  intros Hl Hwf Hclose Hlen Hfree.
  destruct (broker_frame_total sigs (s_indicators st) p d close Hwf Hclose Hlen)
    as (d' & c2 & ch2 & s2 & Hrun & Hidx & Hwf' & Hled & Hc' & _ & Hno & _).
  destruct (Hno Hfree) as (-> & -> & ->).
  exists d'. split_and!; try done.
  by apply (broker_with_ret self p st d).
Qed.

Lemma table_of_closes_wf (closes : list Z) : frame_wf (table_of_closes closes).
Proof.
  unfold frame_wf, table_of_closes, frame_len; simpl.
  repeat constructor; simpl; by rewrite ?length_fmap, ?length_replicate, ?length_seq.
Qed.

Lemma reserved_free_nil : reserved_free [].
Proof. intros n _. apply not_elem_of_nil. Qed.




(** C5.  On a table whose closes are all finite, as long as no recorded
    indicator is displayed as close, change or signal, and in exact
    arithmetic: with commission 0 the fee of every bar is exactly 0, and the
    capital at bar [t] is the cash plus the sum over the bars [k <= t] of
    price change * position * size, an undefined price change counting
    as 0. *)
Theorem zero_commission_capital (self : BacktestRun) (p : Params) (st : State)
  (d : DataFrame) (closes : list Qc) (sigs : list (option Qc)) :
  heap st !! r_data self = Some d ->
  frame_wf d ->
  get_num d "close" = Ok (Fin <$> closes) ->
  length sigs = frame_len d ->
  reserved_free (s_indicators st) ->
  comm p = 0%Qc ->
  exists d' fee capital,
    _broker_with (ret sigs) self p st = (Ok tt, with_frame st (r_data self) d') /\
    get_num d' "fee" = Ok fee /\
    get_num d' "capital" = Ok capital /\
    length fee = frame_len d /\
    length capital = frame_len d /\
    (forall t, (t < frame_len d)%nat -> fee !! t = Some (Fin 0%Qc)) /\
    (forall t, (t < frame_len d)%nat ->
       capital !! t
       = Some (Fin (cash p
                    + sum_list (trading_pnl_at closes sigs (size p) <$> seq 0 (S t)))%Qc)).
Proof.
  intros Hl Hwf Hclose Hlen Hfree Hcomm.
  pose proof (get_num_length _ _ _ Hwf Hclose) as Lclose. rewrite length_fmap in Lclose.
  assert (Hsame : length sigs = length closes) by lia.
  destruct (broker_ret_ledger self p st d _ sigs Hl Hwf Hclose Hlen Hfree)
    as (d' & Hrun & _ & _ & _ & Hled).
  apply ledger_of_inv in Hled as (_ & _ & _ & Hfee & _ & _ & Hcap & _).
  unfold ledger_columns in Hfee, Hcap. cbn [led_fee led_capital] in Hfee, Hcap.
  eexists d', _, _. split; [exact Hrun|]. split; [exact Hfee|]. split; [exact Hcap|].
  rewrite (netpnl_zero_fin closes sigs p Hsame Hcomm).
  split_and!.
  - solve_len.
  - unfold capital_of, cumsum. rewrite length_fmap, length_cumsum_from, !length_fmap.
    rewrite length_seq. lia.
  - intros t Ht. apply fee_lookup_zero; [done..|lia].
  - intros t Ht. unfold capital_of, cumsum, fzero.
    rewrite list_lookup_fmap, cumsum_from_fin by (rewrite length_fmap, length_seq; lia).
    rewrite <- fmap_take, take_seq. replace (S t `min` length closes)%nat with (S t) by lia.
    simpl. do 2 f_equal. ring.
Qed.

Lemma zero_commission_capital_witness :
  let st := fresh_state (table_of_closes [100; 100; 105; 110]%Z) in
  let closes := Qc_of_Z <$> [100; 100; 105; 110]%Z in
  let sigs := [None; None; Some long; Some short] in
  let p := mkParams (Qc_of_Z 1000) (Qc_of_Z 10) 0%Qc 1%Qc in
  exists d' fee capital,
    _broker_with (ret sigs) (mkRun 0 (long_at 2)) p st = (Ok tt, with_frame st 0 d') /\
    get_num d' "fee" = Ok fee /\
    get_num d' "capital" = Ok capital /\
    length fee = 4%nat /\
    length capital = 4%nat /\
    (forall t, (t < 4)%nat -> fee !! t = Some (Fin 0%Qc)) /\
    (forall t, (t < 4)%nat ->
       capital !! t
       = Some (Fin (cash p
                    + sum_list (trading_pnl_at closes sigs (size p) <$> seq 0 (S t)))%Qc)).
Proof.
  apply (zero_commission_capital (mkRun 0 (long_at 2))
           (mkParams (Qc_of_Z 1000) (Qc_of_Z 10) 0%Qc 1%Qc)
           (fresh_state (table_of_closes [100; 100; 105; 110]%Z))
           (table_of_closes [100; 100; 105; 110]%Z)
           (Qc_of_Z <$> [100; 100; 105; 110]%Z)
           [None; None; Some long; Some short]).
  - reflexivity.
  - apply table_of_closes_wf.
  - reflexivity.
  - reflexivity.
  - apply reserved_free_nil.
  - reflexivity.
Defined.

(** The claim as the specification words it fails on a table the
    constructor accepts: an infinite close is not a missing value, and with
    commission 0 the fee of its bar is infinity times 0, which is not a
    number. *)
Lemma zero_commission_fee_nan :
  let c := NumCol [qz 100; qz 100; qz 100] in
  let T := mkFrame [0; ns_per_day; 2 * ns_per_day]%Z
             [("open", c); ("high", c); ("low", c);
              ("close", NumCol [qz 100; Inf false; Inf false]); ("volume", c)] in
  let p := mkParams (Qc_of_Z 1000) 1%Qc 0%Qc 1%Qc in
  let out := _broker_with (ret [None; None; None]) (mkRun 0 (long_at 2)) p (fresh_state T) in
  StrategyBase_init [T] 0 = Ok (fresh_state T) /\
  comm p = 0%Qc /\
  out.1 = Ok tt /\
  (d ← heap out.2 !! 0%nat;
   match get_num d "fee" with Ok xs => Some (show <$> xs) | Raise _ => None end)
  = Some (show <$> [qz 0; NaN; NaN]).
Proof.
  cbv zeta. split_and!; vm_compute; reflexivity.
Qed.




(** ** Stepping through the state monad *)

Lemma bind_ret {A B} (a : A) (k : A -> M B) (st : State) : bind (ret a) k st = k a st.
Proof. done. Qed.

Lemma bind_lift_ok {A B} (r : result A) (a : A) (k : A -> M B) (st : State) :
  r = Ok a -> bind (lift r) k st = k a st.
Proof. by intros ->. Qed.

Lemma bind_lift_raise {A B} (r : result A) (e : exn) (k : A -> M B) (st : State) :
  r = Raise e -> bind (lift r) k st = (Raise e, st).
Proof. by intros ->. Qed.

Lemma data_run (st : State) (d : DataFrame) :
  heap st !! s_data st = Some d -> data st = (Ok d, st).
Proof. intros H. unfold data, bind, get_s_data, deref. by rewrite H. Qed.

Lemma bind_data {B} (k : DataFrame -> M B) (st : State) (d : DataFrame) :
  heap st !! s_data st = Some d -> bind data k st = k d st.
Proof. intros H. unfold bind at 1. by rewrite (data_run st d). Qed.

Lemma bind_deref {B} (l : nat) (k : DataFrame -> M B) (st : State) (d : DataFrame) :
  heap st !! l = Some d -> bind (deref l) k st = k d st.
Proof. intros H. unfold bind, deref. by rewrite H. Qed.

Lemma bind_get_s_data0 {B} (k : nat -> M B) (st : State) :
  bind get_s_data0 k st = k (s_data0 st) st.
Proof. done. Qed.

(** ** The indicator registry *)

(** C7.  When the value an indicator function returned, made an array and
    orientation-normalized, has a last dimension different from the length of
    the table the strategy shows, [ind] raises the shape error, whose message
    carries the table's shape and the value's shape, and leaves the state as
    it was: nothing is recorded and no column is added. *)
Theorem ind_shape_error (st : State) (name : string) (v : returned)
  (a value : ndarray) (d : DataFrame) (close : list fnum) (last : nat) :
  as_array v = Some a ->
  flip_back a = Ok value ->
  index_neg (shape value) 1 = Ok last ->
  heap st !! s_data st = Some d ->
  frame_wf d ->
  get_num d "close" = Ok close ->
  last <> frame_len d ->
  ind name (Returned v) st
  = (Raise (IndicatorShape [frame_len d] name (Some (shape value))), st)
  /\ s_indicators (ind name (Returned v) st).2 = s_indicators st
  /\ heap (ind name (Returned v) st).2 = heap st.
Proof.
  intros Has Hflip Hlast Hl Hwf Hclose Hne.
  pose proof (get_num_length _ _ _ Hwf Hclose) as Lclose.
  assert (E : ind name (Returned v) st
              = (Raise (IndicatorShape [frame_len d] name (Some (shape value))), st)).
  { unfold ind. rewrite Has.
    rewrite (bind_lift_ok _ value) by done.
    rewrite (bind_lift_ok _ last) by done.
    rewrite (bind_data _ _ d) by done.
    rewrite (bind_lift_ok _ close) by done.
    rewrite decide_False by lia. by rewrite Lclose. }
  by rewrite E.
Qed.

(** A one-dimensional value one cell short of a four-bar table. *)
Lemma ind_shape_error_witness :
  let st := fresh_state (table_of_closes [100; 100; 105; 110]%Z) in
  let a := mkArray [3%nat] [qz 1; qz 2; qz 3] in
  ind "SMA(c,2)" (Returned (RetArray a)) st
  = (Raise (IndicatorShape [4%nat] "SMA(c,2)" (Some [3%nat])), st)
  /\ s_indicators (ind "SMA(c,2)" (Returned (RetArray a)) st).2 = []
  /\ heap (ind "SMA(c,2)" (Returned (RetArray a)) st).2
     = [table_of_closes [100; 100; 105; 110]%Z].
Proof.
  apply (ind_shape_error (fresh_state (table_of_closes [100; 100; 105; 110]%Z))
           "SMA(c,2)" (RetArray (mkArray [3%nat] [qz 1; qz 2; qz 3]))
           (mkArray [3%nat] [qz 1; qz 2; qz 3])
           (transpose (mkArray [3%nat] [qz 1; qz 2; qz 3]))
           (table_of_closes [100; 100; 105; 110]%Z)
           (qz <$> [100; 100; 105; 110]%Z) 3).
  - reflexivity.
  - reflexivity.
  - reflexivity.
  - reflexivity.
  - apply table_of_closes_wf.
  - reflexivity.
  - vm_compute. lia.
Defined.

(** ** Drawdown *)

Section drawdown_facts.
Local Open Scope Qc_scope.

Lemma np_maximum_Fin (a b : Qc) :
  np_maximum (Fin a) (Fin b) = Fin (if decide (a < b) then b else a).
Proof.
  unfold np_maximum; cbn [fcmp]. unfold Qccompare.
  destruct (a ?= b)%Q eqn:E.
  - rewrite decide_False; [done|].
    unfold Qclt. rewrite Qlt_alt. congruence.
  - rewrite decide_True; [done|]. unfold Qclt. by rewrite Qlt_alt.
  - rewrite decide_False; [done|].
    unfold Qclt. rewrite Qlt_alt. congruence.
Qed.

Lemma accumulate_from_fin (m0 : Qc) (qs : list Qc) (t : nat) :
  (t < length qs)%nat ->
  exists m,
    accumulate_from (Fin m0) (Fin <$> qs) !! t = Some (Fin m) /\
    m0 <= m /\
    (forall k x, (k <= t)%nat -> qs !! k = Some x -> x <= m) /\
    (m = m0 \/ exists k, (k <= t)%nat /\ qs !! k = Some m).
Proof.
  revert m0 t. induction qs as [|q qs IH]; intros m0 t Ht; simpl in Ht; [lia|].
  cbn [fmap list_fmap accumulate_from]. fold (fmap (M:=list) Fin qs).
  rewrite np_maximum_Fin.
  set (m1 := if decide (m0 < q) then q else m0).
  assert (H0 : m0 <= m1 /\ q <= m1 /\ (m1 = m0 \/ m1 = q)).
  { unfold m1. destruct (decide (m0 < q)) as [H|H].
    - split_and!; [by apply Qclt_le_weak|apply Qcle_refl|by right].
    - split_and!; [apply Qcle_refl|by apply Qcnot_lt_le|by left]. }
  destruct H0 as (Hm0 & Hq & Hm1).
  destruct t as [|t].
  - exists m1. split_and!; [done|done| |].
    + intros k x Hk Hx. assert (k = 0)%nat as -> by lia. simpl in Hx. by injection Hx as <-.
    + destruct Hm1 as [->| ->]; [by left|right]. exists 0%nat. split; [lia|done].
  - destruct (IH m1 t ltac:(lia)) as (m & Hl & Hge & Hub & Hin).
    exists m. split_and!; [done| | |].
    + by apply Qcle_trans with m1.
    + intros k x Hk Hx. destruct k as [|k].
      * simpl in Hx. injection Hx as <-. by apply Qcle_trans with m1.
      * simpl in Hx. apply (Hub k); [lia|done].
    + destruct Hin as [->|(k & Hk & Hx)].
      * destruct Hm1 as [->| ->]; [by left|right]. exists 0%nat. split; [lia|done].
      * right. exists (S k). split; [lia|done].
Qed.

Lemma maximum_accumulate_fin (cs : list Qc) (t : nat) :
  (t < length cs)%nat ->
  exists m, maximum_accumulate (Fin <$> cs) !! t = Some (Fin m) /\ is_peak cs t m.
Proof.
  destruct cs as [|c cs]; simpl; [lia|]. intros Ht.
  destruct t as [|t].
  - exists c. split; [done|]. split.
    + exists 0%nat. split; [lia|done].
    + intros k x Hk Hx. assert (k = 0)%nat as -> by lia. simpl in Hx.
      injection Hx as <-. apply Qcle_refl.
  - destruct (accumulate_from_fin c cs t ltac:(lia)) as (m & Hl & Hge & Hub & Hin).
    exists m. split; [done|]. split.
    + destruct Hin as [->|(k & Hk & Hx)].
      * exists 0%nat. split; [lia|done].
      * exists (S k). split; [lia|done].
    + intros k x Hk Hx. destruct k as [|k].
      * simpl in Hx. by injection Hx as <-.
      * simpl in Hx. apply (Hub k); [lia|done].
Qed.

Lemma is_peak_unique (cs : list Qc) (t : nat) (m m' : Qc) :
  is_peak cs t m -> is_peak cs t m' -> m = m'.
Proof.
  intros [(k & Hk & Hm) Hub] [(k' & Hk' & Hm') Hub'].
  apply Qcle_antisym; [by apply (Hub' k)|by apply (Hub k')].
Qed.

Lemma length_maximum_accumulate (xs : list fnum) :
  length (maximum_accumulate xs) = length xs.
Proof.
  destruct xs as [|x xs]; simpl; [done|]. f_equal.
  revert x. induction xs as [|y xs IH]; intros x; simpl; [done|]. by rewrite IH.
Qed.

(** The drawdown of bar [t], in general. *)
Lemma drawdown_lookup (capital : list fnum) (t : nat) (c m : fnum) :
  capital !! t = Some c ->
  maximum_accumulate capital !! t = Some m ->
  drawdown capital !! t = Some (fsub fone (fdiv c m)).
Proof.
  intros Hc Hm. unfold drawdown.
  by rewrite list_lookup_fmap, lookup_zip_with, Hc, Hm.
Qed.

Lemma length_drawdown (capital : list fnum) :
  length (drawdown capital) = length capital.
Proof.
  unfold drawdown. rewrite length_fmap, length_zip_with, length_maximum_accumulate. lia.
Qed.

Lemma series_max_from_fin (m0 : Qc) (xs : list fnum) :
  (forall j x, xs !! j = Some x -> exists q, x = Fin q) ->
  exists m,
    foldl series_max_step (Fin m0) xs = Fin m /\
    m0 <= m /\
    (forall j q, xs !! j = Some (Fin q) -> q <= m) /\
    (m = m0 \/ exists i, xs !! i = Some (Fin m)).
Proof.
  revert m0. induction xs as [|x xs IH]; intros m0 Hfin.
  - exists m0. split_and!; [done|apply Qcle_refl|done|by left].
  - destruct (Hfin 0%nat x eq_refl) as [q ->].
    cbn [foldl]. unfold series_max_step at 2. cbn [isnan].
    set (m1 := if fltb (Fin m0) (Fin q) then Fin q else Fin m0).
    assert (exists q1, m1 = Fin q1 /\ m0 <= q1 /\ q <= q1 /\ (q1 = m0 \/ q1 = q))
      as (q1 & -> & H0 & Hq & H1).
    { unfold m1. destruct (fltb (Fin m0) (Fin q)) eqn:E.
      - apply fltb_Fin in E. exists q.
        split_and!; [done|by apply Qclt_le_weak|apply Qcle_refl|by right].
      - exists m0. split_and!; [done|apply Qcle_refl| |by left].
        apply Qcnot_lt_le. intros H. apply fltb_Fin in H. congruence. }
    destruct (IH q1) as (m & Hf & Hge & Hub & Hin).
    { intros j x Hx. apply (Hfin (S j) x Hx). }
    exists m. split_and!; [done|by apply Qcle_trans with q1| |].
    + intros [|j] q' Hq'.
      * simpl in Hq'. injection Hq' as <-. by apply Qcle_trans with q1.
      * by apply (Hub j).
    + destruct Hin as [->|(i & Hi)].
      * destruct H1 as [->| ->]; [by left|right; by exists 0%nat].
      * right. by exists (S i).
Qed.

Lemma series_max_fin (xs : list fnum) :
  xs <> [] ->
  (forall j x, xs !! j = Some x -> exists q, x = Fin q) ->
  exists i m,
    xs !! i = Some (Fin m) /\ series_max xs = Fin m /\
    (forall j q, xs !! j = Some (Fin q) -> q <= m).
Proof.
  destruct xs as [|x xs]; [done|]. intros _ Hfin.
  destruct (Hfin 0%nat x eq_refl) as [q ->].
  destruct (series_max_from_fin q xs) as (m & Hf & Hge & Hub & Hin).
  { intros j x Hx. apply (Hfin (S j) x Hx). }
  assert (E : series_max (Fin q :: xs) = Fin m) by exact Hf.
  destruct Hin as [->|(i & Hi)].
  - exists 0%nat, q. split_and!; [done|done|].
    intros [|j] q' Hq'; [simpl in Hq'; injection Hq' as <-; apply Qcle_refl|by apply (Hub j)].
  - exists (S i), m. split_and!; [done|done|].
    intros [|j] q' Hq'; [simpl in Hq'; by injection Hq' as <-|by apply (Hub j)].
Qed.

(** A series whose cells are all undefined or 0 has maximum undefined or 0. *)
Lemma series_max_zero_or_nan (xs : list fnum) :
  (forall j x, xs !! j = Some x -> x = NaN \/ x = Fin 0) ->
  series_max xs = NaN \/ series_max xs = Fin 0.
Proof.
  unfold series_max.
  assert (forall a, (a = NaN \/ a = Fin 0) ->
            (forall j x, xs !! j = Some x -> x = NaN \/ x = Fin 0) ->
            foldl series_max_step a xs = NaN \/ foldl series_max_step a xs = Fin 0) as H.
  { induction xs as [|x xs IH]; intros a Ha Hxs; [done|].
    cbn [foldl]. apply IH.
    - destruct (Hxs 0%nat x eq_refl) as [->| ->], Ha as [->| ->]; auto.
    - intros j y Hy. apply (Hxs (S j) y Hy). }
  intros Hxs. apply H; [by left|done].
Qed.

Lemma series_max_all_nan (xs : list fnum) :
  (forall j x, xs !! j = Some x -> x = NaN) -> series_max xs = NaN.
Proof.
  unfold series_max.
  induction xs as [|x xs IH]; intros Hxs; [done|].
  cbn [foldl]. rewrite (Hxs 0%nat x eq_refl). cbn. apply IH.
  intros j y Hy. apply (Hxs (S j) y Hy).
Qed.

End drawdown_facts.

Section drawdown_theorem.
Local Open Scope Qc_scope.

Lemma drawdown_lookup_pos (cs : list Qc) (t : nat) (c m : Qc) :
  (forall k x, cs !! k = Some x -> 0 < x) ->
  cs !! t = Some c -> is_peak cs t m ->
  drawdown (Fin <$> cs) !! t = Some (Fin (1 - c / m)).
Proof.
  intros Hpos Hc Hm.
  destruct (maximum_accumulate_fin cs t) as (m' & Hacc & Hm'); [by eapply lookup_lt_Some|].
  rewrite (is_peak_unique _ _ _ _ Hm' Hm) in Hacc.
  rewrite (drawdown_lookup _ t (Fin c) (Fin m)); [|by rewrite list_lookup_fmap, Hc|done].
  destruct Hm as [(k & _ & Hk) _]. apply Hpos in Hk.
  cbn [fdiv]. rewrite decide_False; [done|].
  intros ->. by apply Qclt_not_eq in Hk.
Qed.

Lemma max_drawdown_of_max (capital : list fnum) (mx : Qc) :
  series_max (drawdown capital) = Fin mx ->
  max_drawdown capital = Fin (- mx * hundred).
Proof. intros H. unfold max_drawdown. by rewrite H. Qed.

Lemma max_drawdown_zero (capital : list fnum) :
  series_max (drawdown capital) = NaN \/ series_max (drawdown capital) = Fin 0 ->
  max_drawdown capital = Fin 0.
Proof.
  unfold max_drawdown. intros [->| ->]; cbn [nan_to_num fneg fmul]; f_equal; ring.
Qed.

(** C8.  The reported maximum drawdown is minus the largest value of
    1 - capital[t] / running_max(capital)[t], times 100; it is exactly 0 for
    every non-decreasing capital series; and it is 0 when every cell of the
    drawdown series is undefined.  On the capital 100, 90, 80, 95 the
    doubles the code computes with give -19.999999999999996. *)
Theorem max_drawdown_spec :
  (forall capital : list fnum,
     max_drawdown capital
     = fmul (fneg (nan_to_num (series_max (drawdown capital)))) (Fin hundred)
     /\ forall t c m, capital !! t = Some c ->
                      maximum_accumulate capital !! t = Some m ->
                      drawdown capital !! t = Some (fsub fone (fdiv c m)))
  /\
  (forall cs : list Qc,
     cs <> [] ->
     (forall k x, cs !! k = Some x -> 0 < x) ->
     exists t c m,
       cs !! t = Some c /\ is_peak cs t m /\
       max_drawdown (Fin <$> cs) = Fin (- (1 - c / m) * hundred) /\
       forall t' c' m', cs !! t' = Some c' -> is_peak cs t' m' ->
                        1 - c' / m' <= 1 - c / m)
  /\
  (forall cs : list Qc, non_decreasing cs -> max_drawdown (Fin <$> cs) = Fin 0)
  /\
  (forall capital : list fnum,
     (forall j x, drawdown capital !! j = Some x -> x = NaN) ->
     max_drawdown capital = Fin 0)
  /\
  f64.max_drawdown [100; 90; 80; 95]%float = (-0x1.3ffffffffffffp+4)%float.
Proof.
  split_and!.
  - intros capital. split; [done|]. intros t c m. apply drawdown_lookup.
  - intros cs Hne Hpos.
    assert (Hfin : forall j x, drawdown (Fin <$> cs) !! j = Some x -> exists q, x = Fin q).
    { intros j x Hx.
      assert (j < length cs)%nat as Hj.
      { apply lookup_lt_Some in Hx. by rewrite length_drawdown, length_fmap in Hx. }
      destruct (lookup_lt_is_Some_2 cs j Hj) as [c Hc].
      destruct (maximum_accumulate_fin cs j Hj) as (m & _ & Hm).
      rewrite (drawdown_lookup_pos cs j c m Hpos Hc Hm) in Hx. injection Hx as <-.
      by eexists. }
    destruct (series_max_fin (drawdown (Fin <$> cs))) as (i & mx & Hi & Hmax & Hub);
      [|done|].
    { intros E. apply (f_equal length) in E.
      rewrite length_drawdown, length_fmap in E. by destruct cs. }
    assert (i < length cs)%nat as Hi'.
    { apply lookup_lt_Some in Hi. by rewrite length_drawdown, length_fmap in Hi. }
    destruct (lookup_lt_is_Some_2 cs i Hi') as [c Hc].
    destruct (maximum_accumulate_fin cs i Hi') as (m & _ & Hm).
    pose proof (drawdown_lookup_pos cs i c m Hpos Hc Hm) as Hdd.
    rewrite Hi in Hdd. injection Hdd as ->.
    exists i, c, m. split_and!; [done|done|by apply max_drawdown_of_max|].
    intros t' c' m' Hc' Hm'.
    apply (Hub t'). by apply drawdown_lookup_pos.
  - intros cs Hmono. apply max_drawdown_zero, series_max_zero_or_nan.
    intros j x Hx.
    assert (j < length cs)%nat as Hj.
    { apply lookup_lt_Some in Hx. by rewrite length_drawdown, length_fmap in Hx. }
    destruct (lookup_lt_is_Some_2 cs j Hj) as [c Hc].
    destruct (maximum_accumulate_fin cs j Hj) as (m & Hacc & (k & Hk & Hm) & Hub).
    assert (m = c) as ->.
    { apply Qcle_antisym; [by apply (Hmono k j)|by apply (Hub j)]. }
    rewrite (drawdown_lookup _ j (Fin c) (Fin c)) in Hx;
      [|by rewrite list_lookup_fmap, Hc|done].
    injection Hx as <-. cbn [fdiv].
    destruct (decide (c = 0)) as [->|Hc0].
    + by left.
    + right. unfold fsub, fone. cbn [fneg fadd]. f_equal. by field.
  - intros capital Hnan. apply max_drawdown_zero. left. by apply series_max_all_nan.
  - vm_compute. reflexivity.
Qed.

End drawdown_theorem.

Lemma max_drawdown_spec_witness :
  (exists t c m,
     (Qc_of_Z <$> [100; 90; 80; 95]%Z) !! t = Some c /\
     is_peak (Qc_of_Z <$> [100; 90; 80; 95]%Z) t m /\
     max_drawdown (Fin <$> (Qc_of_Z <$> [100; 90; 80; 95]%Z))
     = Fin (- (1 - c / m) * hundred)%Qc /\
     forall t' c' m',
       (Qc_of_Z <$> [100; 90; 80; 95]%Z) !! t' = Some c' ->
       is_peak (Qc_of_Z <$> [100; 90; 80; 95]%Z) t' m' ->
       (1 - c' / m' <= 1 - c / m)%Qc)
  /\ max_drawdown (Fin <$> (Qc_of_Z <$> [100; 100; 105]%Z)) = Fin 0%Qc
  /\ max_drawdown [Fin 0%Qc; Fin 0%Qc] = Fin 0%Qc.
Proof.
  split; [|split].
  - apply (proj1 (proj2 max_drawdown_spec) (Qc_of_Z <$> [100; 90; 80; 95]%Z)).
    + discriminate.
    + intros k x Hx.
      destruct k as [|[|[|[|k]]]]; simpl in Hx; try discriminate;
        injection Hx as <-; reflexivity.
  - apply (proj1 (proj2 (proj2 max_drawdown_spec)) (Qc_of_Z <$> [100; 100; 105]%Z)).
    intros i j a b Hij Hi Hj.
    destruct i as [|[|[|i]]], j as [|[|[|j]]]; simpl in Hi, Hj; try discriminate;
      try lia; injection Hi as <-; injection Hj as <-; vm_compute; discriminate.
  - apply (proj1 (proj2 (proj2 (proj2 max_drawdown_spec))) [Fin 0%Qc; Fin 0%Qc]).
    intros j x Hx.
    destruct j as [|[|j]]; vm_compute in Hx; try discriminate;
      injection Hx as <-; reflexivity.
Defined.

(** The claim as the specification words it fails for its example: on the
    capital 100, 90, 80, 95 the doubles give 80 / 100 = 0.8 rounded up,
    1 - 0.8 = 0.19999999999999996 and a reported drawdown of
    -19.999999999999996, which is above -20; only in exact arithmetic is
    the figure -20. *)
Lemma max_drawdown_example_rounds :
  f64.max_drawdown [100; 90; 80; 95]%float = (-0x1.3ffffffffffffp+4)%float /\
  PrimFloat.ltb (-20)%float (f64.max_drawdown [100; 90; 80; 95]%float) = true /\
  PrimFloat.eqb (f64.max_drawdown [100; 90; 80; 95]%float) (-20)%float = false /\
  max_drawdown (qz <$> [100; 90; 80; 95]%Z) = qz (-20).
Proof.
  split_and!; [vm_compute; reflexivity..|].
  apply show_inj. vm_compute. reflexivity.
Qed.

(** ** What the signal loop does to the store *)

Section preservation.
Context (R : State -> State -> Prop).
Hypothesis R_refl : forall st, R st st.
Hypothesis R_trans : forall a b c, R a b -> R b c -> R a c.

Lemma preserves_ret {A} (a : A) : preserves R (ret a).
Proof. intros st r st' [= <- <-]. apply R_refl. Qed.

Lemma preserves_raise {A} (e : exn) : preserves R (@raise A e).
Proof. intros st r st' [= <- <-]. apply R_refl. Qed.

Lemma preserves_lift {A} (x : result A) : preserves R (lift x).
Proof. intros st r st' [= <- <-]. apply R_refl. Qed.

Lemma preserves_deref (l : nat) : preserves R (deref l).
Proof. intros st r st' [= <- <-]. apply R_refl. Qed.

Lemma preserves_get_s_data : preserves R get_s_data.
Proof. intros st r st' [= <- <-]. apply R_refl. Qed.

Lemma preserves_get_s_data0 : preserves R get_s_data0.
Proof. intros st r st' [= <- <-]. apply R_refl. Qed.

Lemma preserves_get_indicators : preserves R get_indicators.
Proof. intros st r st' [= <- <-]. apply R_refl. Qed.

Lemma preserves_bind {A B} (m : M A) (k : A -> M B) :
  preserves R m -> (forall a, preserves R (k a)) -> preserves R (bind m k).
Proof.
  intros Hm Hk st r st'. unfold bind.
  destruct (m st) as [[a|e] st1] eqn:E.
  - intros Hka. eapply R_trans; [by eapply Hm|by eapply Hk].
  - intros [= <- <-]. by eapply Hm.
Qed.

Lemma preserves_data : preserves R data.
Proof.
  apply preserves_bind; [apply preserves_get_s_data|intros l; apply preserves_deref].
Qed.

Lemma preserves_read (l : nat) (name : string) : preserves R (read l name).
Proof.
  apply preserves_bind; [apply preserves_deref|intros d; apply preserves_lift].
Qed.

End preservation.

Lemma bind_inv {A B} (m : M A) (k : A -> M B) (st st' : State) (r : result B) :
  bind m k st = (r, st') ->
  (exists a st1, m st = (Ok a, st1) /\ k a st1 = (r, st')) \/
  (exists e, m st = (Raise e, st') /\ r = Raise e).
Proof.
  unfold bind. destruct (m st) as [[a|e] st1] eqn:E.
  - intros H. left. by exists a, st1.
  - intros [= <- <-]. right. by exists e.
Qed.

Lemma bind_Ok_inv {A B} (m : M A) (k : A -> M B) (st st' : State) (b : B) :
  bind m k st = (Ok b, st') ->
  exists a st1, m st = (Ok a, st1) /\ k a st1 = (Ok b, st').
Proof.
  intros H. apply bind_inv in H as [H|(e & _ & H)]; [done|discriminate].
Qed.

Lemma grows_refl (st : State) : grows st st.
Proof. by split_and!. Qed.

Lemma grows_trans (a b c : State) : grows a b -> grows b c -> grows a c.
Proof.
  intros (H1 & H2 & H3) (H4 & H5 & H6). split_and!.
  - by etrans.
  - congruence.
  - by etrans.
Qed.

Lemma grows_alloc (df : DataFrame) : preserves grows (alloc df).
Proof.
  intros st r st' [= <- <-]. split_and!; simpl; [by apply prefix_app_r|done|done].
Qed.

Lemma grows_set_s_data (l : nat) : preserves grows (set_s_data l).
Proof. intros st r st' [= <- <-]. by split_and!. Qed.

Lemma grows_append_indicator (f : DataFrame) : preserves grows (append_indicator f).
Proof.
  intros st r st' [= <- <-]. split_and!; simpl; [done|done|by apply prefix_app_r].
Qed.

Ltac grows_step :=
  first
    [ apply preserves_ret; exact grows_refl
    | apply preserves_raise; exact grows_refl
    | apply preserves_lift; exact grows_refl
    | apply preserves_deref; exact grows_refl
    | apply preserves_data; [exact grows_refl|exact grows_trans]
    | apply preserves_get_s_data0; exact grows_refl
    | apply grows_alloc
    | apply grows_set_s_data
    | apply grows_append_indicator
    | apply preserves_bind; [exact grows_trans| |intros ?]
    | match goal with
      | |- preserves _ (match ?x with _ => _ end) => destruct x
      end ].

Lemma grows_ind (name : string) (out : outcome) : preserves grows (ind name out).
Proof. unfold ind. repeat grows_step. Qed.

Lemma grows_declare_all (calls : list IndicatorCall) (declared : list ndarray) :
  preserves grows (declare_all calls declared).
Proof.
  revert declared. induction calls as [|c calls IH]; intros declared; simpl.
  - grows_step.
  - repeat first [apply grows_ind | apply IH | grows_step].
Qed.

Lemma grows_sig_loop (s : Strategy) (lf : nat) (bars : list nat)
  (siglist : list (option Qc)) :
  preserves grows (sig_loop s lf bars siglist).
Proof.
  revert siglist. induction bars as [|i bars IH]; intros siglist; simpl.
  - grows_step.
  - unfold set_indicators.
    repeat first [apply grows_declare_all | apply IH | grows_step].
Qed.

Lemma grows_sig (s : Strategy) : preserves grows (_sig s).
Proof. unfold _sig. repeat first [apply grows_sig_loop | grows_step]. Qed.

Lemma grows_lookup (st st' : State) (l : nat) (d : DataFrame) :
  grows st st' -> heap st !! l = Some d -> heap st' !! l = Some d.
Proof. intros (H & _) Hl. by eapply prefix_lookup_Some. Qed.

(** ** The signal loop *)

Lemma sig_loop_length (s : Strategy) (lf : nat) (bars : list nat)
  (acc l : list (option Qc)) (st st' : State) :
  sig_loop s lf bars acc st = (Ok l, st') ->
  exists rest, l = acc ++ rest /\ length rest = length bars.
Proof.
  revert acc st. induction bars as [|i bars IH]; intros acc st H; simpl in H.
  - injection H as <- <-. exists []. by rewrite app_nil_r.
  - apply bind_Ok_inv in H as (whole & st1 & _ & H).
    apply bind_Ok_inv in H as (l1 & st2 & _ & H).
    apply bind_Ok_inv in H as (u & st3 & _ & H).
    apply bind_Ok_inv in H as (declared & st4 & _ & H).
    apply bind_Ok_inv in H as (d & st5 & _ & H).
    apply bind_Ok_inv in H as (a & st6 & _ & H).
    apply IH in H as (rest & -> & Hlen).
    exists (a :: rest). split; [by rewrite <- app_assoc|simpl; lia].
Qed.

(** ** Bars before the last: nothing is recorded *)

Tactic Notation "step_lift" hyp(H) ident(x) ident(E) :=
  match type of H with
  | bind (lift ?r) _ _ = _ =>
      destruct r as [x|] eqn:E;
      [ rewrite (bind_lift_ok _ x) in H by reflexivity
      | rewrite (bind_lift_raise _ _) in H by reflexivity; discriminate H ]
  end.

Lemma frame_of_array_Ok (value : ndarray) (idx : list Z) (name : string)
  (f : DataFrame) (n : nat) :
  frame_of_array value idx name = Ok f -> array_len value = Ok n -> n = length idx.
Proof.
  unfold frame_of_array, array_len.
  destruct (shape value) as [|x [|y [|z sh]]]; try discriminate.
  - destruct (decide (x = length idx)); [|discriminate]. by intros _ [= <-].
  - destruct y as [|[|y]]; try discriminate.
    destruct (decide (x = length idx)); [|discriminate]. by intros _ [= <-].
  - destruct y as [|[|y]]; discriminate.
Qed.

Lemma ind_quiet (name : string) (out : outcome) (st st' : State)
  (d d0 : DataFrame) (v : ndarray) :
  heap st !! s_data st = Some d ->
  heap st !! s_data0 st = Some d0 ->
  (frame_len d < frame_len d0)%nat ->
  ind name out st = (Ok v, st') ->
  st' = st /\ ind_value name out d = Ok v.
Proof.
  intros Hd Hd0 Hlt H. unfold ind in H. unfold ind_value.
  destruct out as [r|cause]; [|discriminate H].
  destruct (as_array r) as [a|].
  - step_lift H value E1. step_lift H last E2.
    rewrite (bind_data _ _ d) in H by done.
    step_lift H close E3. cbn [rbind].
    destruct (decide (last = length close)); [|discriminate H].
    step_lift H n E4.
    rewrite bind_get_s_data0, (bind_deref _ _ _ d0) in H by done.
    destruct (decide (n = frame_len d0)) as [->|Hn].
    + exfalso. rewrite (bind_data _ _ d) in H by done.
      step_lift H f E5.
      pose proof (frame_of_array_Ok _ _ _ _ _ E5 E4) as E. unfold frame_len in *. lia.
    + unfold ret in H. injection H as <- <-.
      rewrite ?E1, ?E2, ?E3. cbn [rbind]. by rewrite decide_True.
  - rewrite (bind_data _ _ d) in H by done.
    step_lift H close E3. discriminate H.
Qed.

Lemma declare_all_quiet (calls : list IndicatorCall) (declared vs : list ndarray)
  (st st' : State) (d d0 : DataFrame) :
  heap st !! s_data st = Some d ->
  heap st !! s_data0 st = Some d0 ->
  (frame_len d < frame_len d0)%nat ->
  declare_all calls declared st = (Ok vs, st') ->
  st' = st /\ declare_values calls declared d = Ok vs.
Proof.
  intros Hd Hd0 Hlt. revert declared.
  induction calls as [|c calls IH]; intros declared H; simpl in H |- *.
  - by injection H as <- <-.
  - rewrite (bind_data _ _ d) in H by done.
    apply bind_Ok_inv in H as (v & st1 & Hind & H).
    apply (ind_quiet _ _ _ _ d d0) in Hind as [-> Hv]; try done.
    rewrite Hv. cbn [rbind]. by apply IH.
Qed.

Lemma frame_len_iloc (k : nat) (d : DataFrame) :
  frame_len (iloc_to k d) = (k `min` frame_len d)%nat.
Proof. unfold frame_len, iloc_to; simpl. apply length_take. Qed.

Lemma data_inv (st st' : State) (d : DataFrame) :
  data st = (Ok d, st') -> st' = st /\ d = default empty_frame (heap st !! s_data st).
Proof. unfold data, bind, get_s_data, deref. by intros [= <- <-]. Qed.

Lemma sig_loop_actions (s : Strategy) (lf : nat) (whole d0 : DataFrame)
  (bars : list nat) (acc l : list (option Qc)) (st st' : State) :
  heap st !! lf = Some whole ->
  heap st !! s_data0 st = Some d0 ->
  sig_loop s lf bars acc st = (Ok l, st') ->
  exists rest,
    l = acc ++ rest /\ length rest = length bars /\
    forall j i, bars !! j = Some i -> (i + 1 < frame_len d0)%nat ->
                exists a, rest !! j = Some a /\
                          bar_action s (iloc_to (i + 1) whole) = Ok a.
Proof.
  revert acc st. induction bars as [|i bars IH]; intros acc st Hlf Hd0 H; simpl in H.
  - injection H as <- <-. exists []. rewrite app_nil_r. split_and!; [done..|].
    intros j i Hj. by rewrite lookup_nil in Hj.
  - rewrite (bind_deref _ _ _ whole) in H by done.
    set (df := iloc_to (i + 1) whole) in *.
    set (st2 := mkState (heap st ++ [df]) (length (heap st)) (s_data0 st)
                        (s_indicators st)).
    change (bind (set_indicators s)
              (fun declared => bind data (fun d => bind (lift (next s d declared))
                 (fun a => sig_loop s lf bars (acc ++ [a])))) st2 = (Ok l, st')) in H.
    assert (Hdf : heap st2 !! s_data st2 = Some df) by apply list_lookup_middle, eq_refl.
    assert (Hd02 : heap st2 !! s_data0 st2 = Some d0) by by apply lookup_app_l_Some.
    assert (Hlf2 : heap st2 !! lf = Some whole) by by apply lookup_app_l_Some.
    apply bind_Ok_inv in H as (declared & st3 & Hdecl & H).
    pose proof (grows_declare_all _ _ _ _ _ Hdecl) as Hg.
    apply bind_Ok_inv in H as (d & st4 & Hdata & H).
    apply data_inv in Hdata as [-> Hdv].
    apply bind_Ok_inv in H as (a & st5 & Hnext & H).
    injection Hnext as Hnext <-.
    destruct (IH (acc ++ [a]) st3) as (rest & -> & Hlen & Hrest); [| |done|].
    { by eapply grows_lookup. }
    { pose proof Hg as (_ & -> & _). by eapply grows_lookup. }
    exists (a :: rest). split_and!; [by rewrite <- app_assoc|simpl; lia|].
    intros [|j] i' Hj Hi'.
    + simpl in Hj. injection Hj as <-. exists a. split; [done|].
      apply (declare_all_quiet _ _ _ _ _ df d0) in Hdecl as [-> Hvals]; try done.
      * rewrite Hdf in Hdv. simpl in Hdv. subst d.
        unfold bar_action. fold df. rewrite Hvals. done.
      * unfold df. rewrite frame_len_iloc. lia.
    + simpl in Hj. by apply (Hrest j).
Qed.

Lemma bind_alloc {B} (df : DataFrame) (k : nat -> M B) (st : State) :
  bind (alloc df) k st
  = k (length (heap st))
      (mkState (heap st ++ [df]) (s_data st) (s_data0 st) (s_indicators st)).
Proof. done. Qed.

Lemma sig_actions (s : Strategy) (st st' : State) (d d0 : DataFrame)
  (l : list (option Qc)) (i : nat) :
  heap st !! s_data st = Some d ->
  heap st !! s_data0 st = Some d0 ->
  _sig s st = (Ok l, st') ->
  (2 <= i)%nat -> (i < frame_len d)%nat -> (i + 1 < frame_len d0)%nat ->
  exists a, l !! i = Some a /\ bar_action s (iloc_to (i + 1) d) = Ok a.
Proof.
  intros Hd Hd0 H Hi2 Hin Hi0. unfold _sig in H.
  rewrite (bind_data _ _ d), bind_alloc in H by done.
  apply (sig_loop_actions s _ d d0) in H as (rest & -> & Hlen & Hrest).
  - destruct (Hrest (i - 2)%nat i) as (a & Ha & Hact); [|done|].
    { rewrite lookup_seq_lt by lia. f_equal. lia. }
    exists a. split; [|done].
    rewrite lookup_app_r by (simpl; lia). exact Ha.
  - apply list_lookup_middle, eq_refl.
  - by apply lookup_app_l_Some.
Qed.





(** *** The loop returns for a strategy whose steps do not raise *)

Lemma assoc_get_app_l (n : string) (c : column) cols cols' :
  assoc_get n cols = Some c -> assoc_get n (cols ++ cols') = Some c.
Proof.
  induction cols as [|[m c'] cols IH]; simpl; [done|].
  destruct (decide (m = n)); [done|apply IH].
Qed.

Lemma assoc_get_fmap (f : column -> column) (n : string) cols :
  assoc_get n (prod_map id f <$> cols) = f <$> assoc_get n cols.
Proof.
  induction cols as [|[m c'] cols IH]; simpl; [done|].
  destruct (decide (m = n)); [done|apply IH].
Qed.

Lemma close_ok_concat (d f : DataFrame) : close_ok d -> close_ok (concat_columns d f).
Proof.
  intros (close & Hc & L). exists close. split; [|done].
  unfold get_num in *. simpl.
  destruct (assoc_get "close" (columns d)) as [c|] eqn:E; [|discriminate].
  by rewrite (assoc_get_app_l _ c).
Qed.

Lemma close_ok_iloc (k : nat) (d : DataFrame) : close_ok d -> close_ok (iloc_to k d).
Proof.
  intros (close & Hc & L). exists (take k close). split.
  - unfold get_num in *. simpl. rewrite assoc_get_fmap.
    destruct (assoc_get "close" (columns d)) as [[xs|bs]|]; simpl; try discriminate.
    + by injection Hc as ->.
    + injection Hc as <-. by rewrite fmap_take.
  - rewrite frame_len_iloc, length_take. lia.
Qed.

Lemma bind_append_indicator {B} (f : DataFrame) (k : unit -> M B) (st : State) :
  bind (append_indicator f) k st
  = k tt (mkState (heap st) (s_data st) (s_data0 st) (s_indicators st ++ [f])).
Proof. done. Qed.

Lemma bind_set_s_data {B} (l : nat) (k : unit -> M B) (st : State) :
  bind (set_s_data l) k st
  = k tt (mkState (heap st) l (s_data0 st) (s_indicators st)).
Proof. done. Qed.

Lemma ind_returns (name : string) (xs : list fnum) (st : State) (d0 : DataFrame) (n : nat) :
  loop_inv d0 n st ->
  exists v st', ind name (Returned (RetArray (mkArray [n] xs))) st = (Ok v, st') /\
                grows st st' /\ loop_inv d0 n st'.
Proof.
  intros (Hd0 & d & Hd & Hok & <-). pose proof Hok as (close & Hc & L).
  unfold ind. cbn [as_array].
  rewrite (bind_lift_ok _ (transpose (mkArray [frame_len d] xs))) by reflexivity.
  rewrite (bind_lift_ok _ (frame_len d)) by reflexivity.
  rewrite (bind_data _ _ d) by done.
  rewrite (bind_lift_ok _ close) by done.
  rewrite decide_True by done.
  rewrite (bind_lift_ok _ (frame_len d)) by reflexivity.
  rewrite bind_get_s_data0, (bind_deref _ _ _ d0) by done.
  destruct (decide (frame_len d = frame_len d0)) as [E|E].
  - rewrite (bind_data _ _ d) by done.
    set (value := transpose (mkArray [frame_len d] xs)).
    assert (Hf : frame_of_array value (index d) name
                 = Ok (mkFrame (index d) [(name, NumCol (flat value))])).
    { unfold frame_of_array. cbn [shape value transpose reverse rev_append].
      by rewrite decide_True. }
    rewrite (bind_lift_ok _ _ _ _ Hf).
    rewrite bind_append_indicator.
    rewrite (bind_data _ _ d) by done.
    rewrite (bind_lift_ok _ _ _ _ Hf).
    rewrite bind_alloc, bind_set_s_data.
    eexists _, _. split; [reflexivity|]. split.
    + split_and!; simpl; [by apply prefix_app_r|done|by apply prefix_app_r].
    + split; simpl.
      * by apply lookup_app_l_Some.
      * eexists. split_and!; [apply list_lookup_middle; reflexivity| |done].
        by apply close_ok_concat.
  - eexists _, _. split; [reflexivity|]. split; [apply grows_refl|].
    split; [done|]. by exists d.
Qed.

Lemma declare_all_returns (s : Strategy) (calls : list IndicatorCall)
  (declared : list ndarray) (st : State) (d0 : DataFrame) (n : nat) :
  well_behaved s ->
  (forall c, c ∈ calls -> c ∈ indicator_calls s) ->
  loop_inv d0 n st ->
  exists vs st', declare_all calls declared st = (Ok vs, st') /\
                 grows st st' /\ loop_inv d0 n st'.
Proof.
  intros [Hwb _]. revert declared st.
  induction calls as [|c calls IH]; intros declared st Hsub Hinv; simpl.
  - exists declared, st. split_and!; [done|apply grows_refl|done].
  - pose proof Hinv as (_ & d & Hd & Hok & Hn).
    rewrite (bind_data _ _ d) by done.
    destruct (Hwb c d declared) as [xs Hxs]; [apply Hsub; left|done|].
    rewrite Hxs, Hn.
    destruct (ind_returns (ic_name c) xs st d0 n Hinv) as (v & st1 & Hind & G1 & I1).
    unfold bind at 1. rewrite Hind.
    destruct (IH (declared ++ [v]) st1) as (vs & st2 & Hrest & G2 & I2); [|done|].
    { intros c' Hc'. apply Hsub. by right. }
    exists vs, st2. split_and!; [done|by eapply grows_trans|done].
Qed.

Lemma sig_loop_returns (s : Strategy) (lf : nat) (whole d0 : DataFrame)
  (bars : list nat) (acc : list (option Qc)) (st : State) :
  well_behaved s ->
  close_ok whole ->
  heap st !! lf = Some whole ->
  heap st !! s_data0 st = Some d0 ->
  exists l st', sig_loop s lf bars acc st = (Ok l, st').
Proof.
  intros Hwb Hok. revert acc st.
  induction bars as [|i bars IH]; intros acc st Hlf Hd0; simpl.
  - by eexists _, _.
  - rewrite (bind_deref _ _ _ whole) by done.
    set (df := iloc_to (i + 1) whole).
    set (st2 := mkState (heap st ++ [df]) (length (heap st)) (s_data0 st)
                        (s_indicators st)).
    change (exists l st',
              bind (set_indicators s)
                (fun declared => bind data (fun d => bind (lift (next s d declared))
                   (fun a => sig_loop s lf bars (acc ++ [a])))) st2 = (Ok l, st')).
    assert (Hinv : loop_inv d0 (frame_len df) st2).
    { split; [by apply lookup_app_l_Some|]. exists df.
      split_and!; [apply list_lookup_middle; reflexivity|by apply close_ok_iloc|done]. }
    destruct (declare_all_returns s (indicator_calls s) [] st2 d0 _ Hwb ltac:(done) Hinv)
      as (vs & st3 & Hdecl & G & (Hd03 & d & Hd & _)).
    unfold bind at 1. unfold set_indicators. rewrite Hdecl.
    rewrite (bind_data _ _ d) by done.
    destruct Hwb as [Hwb1 Hwb2]. destruct (Hwb2 d vs) as [a Ha].
    rewrite (bind_lift_ok _ a) by done.
    apply IH; [|done].
    eapply grows_lookup; [exact G|]. by apply lookup_app_l_Some.
Qed.

Lemma sig_returns (s : Strategy) (st : State) (d d0 : DataFrame) :
  well_behaved s ->
  heap st !! s_data st = Some d ->
  heap st !! s_data0 st = Some d0 ->
  close_ok d ->
  exists l st', _sig s st = (Ok l, st').
Proof.
  intros Hwb Hd Hd0 Hok. unfold _sig.
  rewrite (bind_data _ _ d), bind_alloc by done.
  apply (sig_loop_returns s _ d d0); [done|done| |].
  - apply list_lookup_middle. reflexivity.
  - by apply lookup_app_l_Some.
Qed.

Lemma sig_result_length (s : Strategy) (st st' : State) (l : list (option Qc))
  (d : DataFrame) :
  heap st !! s_data st = Some d ->
  (2 <= frame_len d)%nat ->
  _sig s st = (Ok l, st') ->
  length l = frame_len d /\ l !! 0%nat = Some None /\ l !! 1%nat = Some None.
Proof.
  intros Hd Hlen H. unfold _sig in H.
  rewrite (bind_data _ _ d) in H by done.
  apply bind_Ok_inv in H as (lf & st1 & _ & H).
  apply sig_loop_length in H as (rest & -> & Hrest).
  rewrite length_app, Hrest, length_seq. simpl. split_and!; [lia|done..].
Qed.

(** C3.  On a table of at least two bars the order list [_sig] returns has
    exactly the length of the table, and its entries 0 and 1 are [None].
    The loop returns such a list whenever the strategy's own steps do not
    raise. *)
Theorem signal_length (s : Strategy) (st : State) (d d0 : DataFrame) :
  heap st !! s_data st = Some d ->
  (2 <= frame_len d)%nat ->
  (forall l st', _sig s st = (Ok l, st') ->
     length l = frame_len d /\ l !! 0%nat = Some None /\ l !! 1%nat = Some None)
  /\
  (well_behaved s -> close_ok d -> heap st !! s_data0 st = Some d0 ->
   exists l st', _sig s st = (Ok l, st') /\
     length l = frame_len d /\ l !! 0%nat = Some None /\ l !! 1%nat = Some None).
Proof.
  intros Hd Hlen. split.
  - intros l st' H. by apply (sig_result_length s st st' l d).
  - intros Hwb Hok Hd0.
    destruct (sig_returns s st d d0 Hwb Hd Hd0 Hok) as (l & st' & H).
    exists l, st'. split; [done|]. by apply (sig_result_length s st st' l d).
Qed.

Lemma well_behaved_long_at (k : nat) : well_behaved (long_at k).
Proof.
  split.
  - intros c d declared Hc. simpl in Hc. by apply elem_of_nil in Hc.
  - intros d declared. simpl. by eexists.
Qed.

Lemma close_ok_table (closes : list Z) : close_ok (table_of_closes closes).
Proof.
  exists (qz <$> closes). split; [done|].
  unfold frame_len; simpl. by rewrite !length_fmap, length_seq.
Qed.

Lemma signal_length_witness :
  let T := table_of_closes [10; 11; 12; 11; 9]%Z in
  let st := fresh_state T in
  (forall l st', _sig (long_at 2) st = (Ok l, st') ->
     length l = frame_len T /\ l !! 0%nat = Some None /\ l !! 1%nat = Some None)
  /\
  (exists l st', _sig (long_at 2) st = (Ok l, st') /\
     length l = frame_len T /\ l !! 0%nat = Some None /\ l !! 1%nat = Some None).
Proof.
  cbv zeta.
  destruct (signal_length (long_at 2)
              (fresh_state (table_of_closes [10; 11; 12; 11; 9]%Z))
              (table_of_closes [10; 11; 12; 11; 9]%Z)
              (table_of_closes [10; 11; 12; 11; 9]%Z)) as [HA HB].
  - reflexivity.
  - vm_compute. lia.
  - split; [exact HA|]. apply HB.
    + apply well_behaved_long_at.
    + apply close_ok_table.
    + reflexivity.
Defined.

(** The same on the moving-average cross, whose run is computed. *)
Example signal_length_sma :
  (_sig (sma_cross 1 2) (fresh_state (table_of_closes [10; 11; 12; 11; 9]%Z))).1
  = Ok [None; None; None; Some short; None].
Proof. vm_compute. reflexivity. Qed.

(** Below two bars the list still has its two leading [None]s, so it is
    longer than the table. *)
Lemma signal_length_short (s : Strategy) (st : State) (d : DataFrame) :
  heap st !! s_data st = Some d ->
  (frame_len d < 2)%nat ->
  exists st', _sig s st = (Ok [None; None], st').
Proof.
  intros Hd Hlen. unfold _sig. rewrite (bind_data _ _ d) by done.
  unfold bind, alloc. replace (frame_len d - 2)%nat with 0%nat by lia.
  simpl. by eexists.
Qed.


(** ** The frame of a run *)

Lemma touches_only_refl (l : nat) (W : string -> Prop) (st : State) :
  touches_only l W st st.
Proof. split; [done|]. intros d Hd. by exists d. Qed.

Lemma touches_only_trans (l : nat) (W : string -> Prop) (a b c : State) :
  touches_only l W a b -> touches_only l W b c -> touches_only l W a c.
Proof.
  intros [H1 H2] [H3 H4]. split.
  - intros l' d Hl Hd. apply H3; [done|]. by apply H1.
  - intros d Hd. destruct (H2 d Hd) as (d1 & Hd1 & I1 & C1).
    destruct (H4 d1 Hd1) as (d2 & Hd2 & I2 & C2).
    exists d2. split_and!; [done|congruence|].
    intros m Hm. rewrite C2, C1; done.
Qed.

Lemma touches_only_mono (l : nat) (W W' : string -> Prop) (a b : State) :
  (forall m, W m -> W' m) -> touches_only l W a b -> touches_only l W' a b.
Proof.
  intros HW [H1 H2]. split; [done|].
  intros d Hd. destruct (H2 d Hd) as (d1 & Hd1 & I1 & C1).
  exists d1. split_and!; [done..|]. intros m Hm. apply C1. intros Hw. by apply Hm, HW.
Qed.

Lemma indicator_names_prefix (i1 i2 : list DataFrame) (m : string) :
  i1 `prefix_of` i2 -> m ∈ indicator_names i1 -> m ∈ indicator_names i2.
Proof.
  intros [k ->]. unfold indicator_names. rewrite bind_app, elem_of_app. by left.
Qed.

Lemma written_prefix (i1 i2 : list DataFrame) (m : string) :
  i1 `prefix_of` i2 -> written i1 m -> written i2 m.
Proof. intros Hp [H|H]; [by left|right]. by eapply indicator_names_prefix. Qed.

Lemma run_rel_refl (l : nat) (st : State) : run_rel l st st.
Proof. split_and!; [apply touches_only_refl|done|done]. Qed.

Lemma run_rel_trans (l : nat) (a b c : State) :
  run_rel l a b -> run_rel l b c -> run_rel l a c.
Proof.
  intros (T1 & P1 & E1) (T2 & P2 & E2). split_and!.
  - eapply touches_only_trans; [|exact T2].
    eapply touches_only_mono; [|exact T1]. intros m. by apply written_prefix.
  - by etrans.
  - congruence.
Qed.

Lemma grows_run_rel (l : nat) (st st' : State) : grows st st' -> run_rel l st st'.
Proof.
  intros (Hh & H0 & Hi). split_and!; [|done|done]. split.
  - intros l' d _ Hd. by eapply prefix_lookup_Some.
  - intros d Hd. exists d. split_and!; [by eapply prefix_lookup_Some|done|done].
Qed.

Lemma tail_rel_refl (l : nat) (W : string -> Prop) (st : State) : tail_rel l W st st.
Proof. split_and!; [apply touches_only_refl|done|done]. Qed.

Lemma tail_rel_trans (l : nat) (W : string -> Prop) (a b c : State) :
  tail_rel l W a b -> tail_rel l W b c -> tail_rel l W a c.
Proof.
  intros (T1 & P1 & E1) (T2 & P2 & E2). split_and!.
  - by eapply touches_only_trans.
  - congruence.
  - congruence.
Qed.

Lemma tail_rel_run_rel (l : nat) (W : string -> Prop) (st st' : State) :
  (forall m, W m -> written (s_indicators st) m) ->
  tail_rel l W st st' -> run_rel l st st'.
Proof.
  intros HW (T & E & E0). split_and!; [|by rewrite E|done].
  eapply touches_only_mono; [|exact T]. intros m Hm. rewrite E. by apply HW.
Qed.

Lemma update_tail_rel (l : nat) (W : string -> Prop)
  (f : DataFrame -> result DataFrame) :
  bounded W f -> preserves (tail_rel l W) (update l f).
Proof.
  intros Hf st r st' H. unfold update, bind, deref, lift, store in H.
  destruct (f (default empty_frame (heap st !! l))) as [d'|e] eqn:E.
  - injection H as <- <-. split_and!; [|done|done]. split; simpl.
    + intros l' d Hl Hd. by rewrite list_lookup_insert_ne.
    + intros d Hd. rewrite Hd in E. simpl in E.
      destruct (Hf d d' E) as [I C]. exists d'. split_and!; [|done|done].
      apply list_lookup_insert_eq. by eapply lookup_lt_Some.
  - injection H as <- <-. apply tail_rel_refl.
Qed.

Lemma set_col_bounded (d d' : DataFrame) (n : string) (c : column) :
  set_col d n c = Ok d' ->
  index d' = index d /\
  forall m, m <> n -> assoc_get m (columns d') = assoc_get m (columns d).
Proof.
  unfold set_col. destruct (decide (col_length c = frame_len d)); [|discriminate].
  intros [= <-]. split; [done|]. intros m Hm. simpl. by apply assoc_get_set_ne.
Qed.

Lemma bounded_set_change W :
  (forall m, m ∈ broker_names -> W m) -> bounded W set_change.
Proof.
  intros HW d d' H. unfold set_change in H.
  destruct (get_num d "close"); [cbn [rbind] in H|discriminate H].
  apply set_col_bounded in H as [I C]. split; [done|].
  intros m Hm. apply C. intros ->. apply Hm, HW.
  unfold broker_names. rewrite !elem_of_cons. tauto.
Qed.

Ltac solve_bounded HW :=
  let d := fresh "d" in let d' := fresh "d'" in let H := fresh "H" in
  intros d d' H;
  repeat match type of H with
  | rbind ?r _ = Ok _ => destruct r; [cbn [rbind] in H | discriminate H]
  end;
  let I := fresh "I" in let C := fresh "C" in
  apply set_col_bounded in H as [I C]; split; [exact I|];
  let m := fresh "m" in let Hm := fresh "Hm" in
  intros m Hm; apply C; intros ->; apply Hm, HW;
  unfold broker_names, ledger_names; rewrite !elem_of_cons; tauto.

Section bounded_lines.
Context (W : string -> Prop).
Hypothesis HW : forall m, m ∈ broker_names -> W m.

Lemma bounded_set_signal sigs : bounded W (set_signal sigs).
Proof. unfold set_signal. solve_bounded HW. Qed.
Lemma bounded_set_pos : bounded W set_pos.
Proof. unfold set_pos. solve_bounded HW. Qed.
Lemma bounded_set_trading_pnl p : bounded W (set_trading_pnl p).
Proof. unfold set_trading_pnl. solve_bounded HW. Qed.
Lemma bounded_set_fee p : bounded W (set_fee p).
Proof. unfold set_fee. solve_bounded HW. Qed.
Lemma bounded_set_netpnl : bounded W set_netpnl.
Proof. unfold set_netpnl. solve_bounded HW. Qed.
Lemma bounded_fill_netpnl : bounded W fill_netpnl.
Proof. unfold fill_netpnl. solve_bounded HW. Qed.
Lemma bounded_set_cumpnl : bounded W set_cumpnl.
Proof. unfold set_cumpnl. solve_bounded HW. Qed.
Lemma bounded_set_capital p : bounded W (set_capital p).
Proof. unfold set_capital. solve_bounded HW. Qed.
Lemma bounded_set_outofmoney p : bounded W (set_outofmoney p).
Proof. unfold set_outofmoney. solve_bounded HW. Qed.

Lemma bounded_set_indicator (f : DataFrame) :
  (forall m, m ∈ (columns f).*1 -> W m) -> bounded W (set_indicator f).
Proof.
  intros Hf d d' [= <-]. split; [done|].
  intros m Hm. apply set_frame_get_ne. intros Hin. by apply Hm, Hf.
Qed.

Lemma assign_indicators_tail_rel (l : nat) (inds : list DataFrame) :
  (forall m, m ∈ indicator_names inds -> W m) ->
  preserves (tail_rel l W) (assign_indicators l inds).
Proof.
  induction inds as [|f inds IH]; intros Hn; simpl.
  - apply preserves_ret, tail_rel_refl.
  - apply preserves_bind; [apply tail_rel_trans| |intros _].
    + apply update_tail_rel, bounded_set_indicator.
      intros m Hm. apply Hn. unfold indicator_names. simpl. rewrite elem_of_app. by left.
    + apply IH. intros m Hm. apply Hn. unfold indicator_names. simpl.
      rewrite elem_of_app. by right.
Qed.

End bounded_lines.

Lemma broker_tail_rel (l : nat) (p : Params) (inds : list DataFrame)
  (W : string -> Prop) :
  (forall m, m ∈ broker_names -> W m) ->
  (forall m, m ∈ indicator_names inds -> W m) ->
  preserves (tail_rel l W)
    (assign_indicators l inds ;;
     update l set_pos ;;
     update l (set_trading_pnl p) ;;
     update l (set_fee p) ;;
     update l set_netpnl ;;
     update l fill_netpnl ;;
     update l set_cumpnl ;;
     update l (set_capital p) ;;
     update l (set_outofmoney p)).
Proof.
  intros HW Hinds.
  repeat (apply preserves_bind; [apply tail_rel_trans| |intros _]).
  - by apply assign_indicators_tail_rel.
  - by apply update_tail_rel, bounded_set_pos.
  - by apply update_tail_rel, bounded_set_trading_pnl.
  - by apply update_tail_rel, bounded_set_fee.
  - by apply update_tail_rel, bounded_set_netpnl.
  - by apply update_tail_rel, bounded_fill_netpnl.
  - by apply update_tail_rel, bounded_set_cumpnl.
  - by apply update_tail_rel, bounded_set_capital.
  - by apply update_tail_rel, bounded_set_outofmoney.
Qed.

Lemma bind_get_indicators {B} (k : list DataFrame -> M B) (st : State) :
  bind get_indicators k st = k (s_indicators st) st.
Proof. done. Qed.

Lemma broker_after_sig_run_rel (l : nat) (p : Params) (siglist : list (option Qc)) :
  preserves (run_rel l)
    (update l (set_signal siglist) ;;
     let* inds := get_indicators in
     assign_indicators l inds ;;
     update l set_pos ;;
     update l (set_trading_pnl p) ;;
     update l (set_fee p) ;;
     update l set_netpnl ;;
     update l fill_netpnl ;;
     update l set_cumpnl ;;
     update l (set_capital p) ;;
     update l (set_outofmoney p)).
Proof.
  intros st r st' H.
  apply bind_inv in H as [(u & sta & H1 & H)|(e & H1 & _)].
  - assert (R1 : tail_rel l (written (s_indicators st)) st sta).
    { eapply (update_tail_rel l _ _ (bounded_set_signal _ (fun m Hm => or_introl Hm) _));
        exact H1. }
    eapply run_rel_trans; [by eapply tail_rel_run_rel; [|exact R1]|].
    cbv beta in H. rewrite bind_get_indicators in H.
    eapply (tail_rel_run_rel l (written (s_indicators sta))); [done|].
    revert H. apply (broker_tail_rel l p (s_indicators sta)).
    + intros m Hm. by left.
    + intros m Hm. by right.
  - eapply (tail_rel_run_rel l (written (s_indicators st))); [done|].
    eapply (update_tail_rel l _ _ (bounded_set_signal _ (fun m Hm => or_introl Hm) _));
      exact H1.
Qed.

Lemma broker_with_run_rel (sig : M (list (option Qc))) (self : BacktestRun) (p : Params) :
  preserves grows sig ->
  preserves (run_rel (r_data self)) (_broker_with sig self p).
Proof.
  intros Hsig. unfold _broker_with.
  apply preserves_bind; [apply run_rel_trans| |intros _].
  { intros st r st' H. eapply (tail_rel_run_rel _ (written (s_indicators st))); [done|].
    eapply (update_tail_rel _ _ _ (bounded_set_change _ (fun m Hm => or_introl Hm)));
      exact H. }
  apply preserves_bind; [apply run_rel_trans| |intros siglist].
  { intros st r st' H. by eapply grows_run_rel, Hsig. }
  apply broker_after_sig_run_rel.
Qed.

Lemma run_run_rel (self : BacktestRun) (p : Params) :
  preserves (run_rel (r_data self)) (run self p).
Proof.
  unfold run.
  apply preserves_bind; [apply run_rel_trans| |intros _].
  { apply broker_with_run_rel, grows_sig. }
  repeat first
    [ apply preserves_ret; apply run_rel_refl
    | apply preserves_lift; apply run_rel_refl
    | apply preserves_deref; apply run_rel_refl
    | apply preserves_read; [apply run_rel_refl|apply run_rel_trans]
    | apply preserves_bind; [apply run_rel_trans| |intros ?] ].
Qed.

Lemma StrategyBase_init_sorted (h : list DataFrame) (input : nat) (df : DataFrame)
  (st : State) :
  h !! input = Some df ->
  is_monotonic_increasing (index df) = true ->
  StrategyBase_init h input = Ok st ->
  st = mkState h input input [].
Proof.
  intros Hin Hmono. unfold StrategyBase_init. rewrite Hin.
  change (default empty_frame (Some df)) with df.
  destruct (negb (forallb (has_column df) ohlcv)); [discriminate|].
  destruct (any_null df); [discriminate|].
  rewrite Hmono. cbn [negb]. by intros [= <-].
Qed.

(** C9, as the code has it.  No private copy is made: a strategy built on a
    table whose index is ascending holds the caller's table object itself,
    and [BacktestRun] binds that same object.  [run] assigns its columns into
    this object in place.  What it leaves alone: every other frame object;
    the index of the object; and every column whose name is not [change],
    [signal], a ledger column or the display name of a recorded indicator, so
    the open, high, low, close and volume cells keep their values unless an
    indicator bears one of these names.  The strategy's [__data] slot still
    names the same object afterwards. *)
Theorem run_in_place :
  (forall (h : list DataFrame) (input : nat) (df : DataFrame) (s : Strategy) (st : State),
     h !! input = Some df ->
     is_monotonic_increasing (index df) = true ->
     StrategyBase_init h input = Ok st ->
     heap st = h /\ s_data st = input /\ s_data0 st = input /\
     BacktestRun_init s st = (Ok (mkRun input s), st))
  /\
  (forall (self : BacktestRun) (p : Params) (st st' : State) (r : result Report),
     run self p st = (r, st') ->
     (forall l' d, l' <> r_data self -> heap st !! l' = Some d -> heap st' !! l' = Some d) /\
     (forall d, heap st !! r_data self = Some d ->
        exists d', heap st' !! r_data self = Some d' /\ index d' = index d /\
          (forall m, ~ written (s_indicators st') m ->
                     assoc_get m (columns d') = assoc_get m (columns d)) /\
          (forall m, m ∈ ohlcv -> m ∉ indicator_names (s_indicators st') ->
                     assoc_get m (columns d') = assoc_get m (columns d))) /\
     s_data0 st' = s_data0 st).
Proof.
  split.
  - intros h input df s st Hin Hmono Hinit.
    rewrite (StrategyBase_init_sorted h input df st Hin Hmono Hinit). done.
  - intros self p st st' r H.
    destruct (run_run_rel self p st r st' H) as ([T1 T2] & _ & E0).
    split_and!; [done| |done].
    intros d Hd. destruct (T2 d Hd) as (d' & Hd' & I & C).
    exists d'. split_and!; [done..|].
    intros m Hm Hn. apply C. intros [Hb|Hi]; [|done].
    unfold ohlcv in Hm. unfold broker_names, ledger_names in Hb.
    rewrite !elem_of_cons, elem_of_nil in Hm. rewrite !elem_of_cons, elem_of_nil in Hb.
    destruct Hm as [->|[->|[->|[->|[->|[]]]]]];
      intuition discriminate.
Qed.

Lemma run_in_place_witness :
  let T := table_of_closes [10; 11; 12; 11; 9]%Z in
  let self := mkRun 0 (sma_cross 1 2) in
  let p := mkParams (Qc_of_Z 1000) 1%Qc 0%Qc 1%Qc in
  let st' := (run self p (fresh_state T)).2 in
  (heap (fresh_state T) = [T] /\ s_data (fresh_state T) = 0%nat /\
   s_data0 (fresh_state T) = 0%nat /\
   BacktestRun_init (sma_cross 1 2) (fresh_state T) = (Ok self, fresh_state T))
  /\
  ((forall l' d, l' <> 0%nat -> [T] !! l' = Some d -> heap st' !! l' = Some d) /\
   (forall d, [T] !! 0%nat = Some d ->
      exists d', heap st' !! 0%nat = Some d' /\ index d' = index d /\
        (forall m, ~ written (s_indicators st') m ->
                   assoc_get m (columns d') = assoc_get m (columns d)) /\
        (forall m, m ∈ ohlcv -> m ∉ indicator_names (s_indicators st') ->
                   assoc_get m (columns d') = assoc_get m (columns d))) /\
   s_data0 st' = 0%nat).
Proof.
  split.
  - apply (proj1 run_in_place [table_of_closes [10; 11; 12; 11; 9]%Z] 0
             (table_of_closes [10; 11; 12; 11; 9]%Z) (sma_cross 1 2)).
    + reflexivity.
    + vm_compute. reflexivity.
    + vm_compute. reflexivity.
  - apply (proj2 run_in_place (mkRun 0 (sma_cross 1 2))
             (mkParams (Qc_of_Z 1000) 1%Qc 0%Qc 1%Qc)
             (fresh_state (table_of_closes [10; 11; 12; 11; 9]%Z))
             (run (mkRun 0 (sma_cross 1 2)) (mkParams (Qc_of_Z 1000) 1%Qc 0%Qc 1%Qc)
                  (fresh_state (table_of_closes [10; 11; 12; 11; 9]%Z))).2
             (run (mkRun 0 (sma_cross 1 2)) (mkParams (Qc_of_Z 1000) 1%Qc 0%Qc 1%Qc)
                  (fresh_state (table_of_closes [10; 11; 12; 11; 9]%Z))).1).
    vm_compute. reflexivity.
Defined.

(** The claim as the specification words it fails: after a run the caller's
    table, which is the object at address 0 that the strategy and the run
    share, carries the signal, indicator and ledger columns. *)
Lemma run_adds_columns_to_input :
  let T := table_of_closes [10; 11; 12; 11; 9]%Z in
  let s := sma_cross 1 2 in
  let p := mkParams (Qc_of_Z 1000) 1%Qc 0%Qc 1%Qc in
  let out := run (mkRun 0 s) p (fresh_state T) in
  StrategyBase_init [T] 0 = Ok (fresh_state T) /\
  BacktestRun_init s (fresh_state T) = (Ok (mkRun 0 s), fresh_state T) /\
  (exists rep, out.1 = Ok rep) /\
  s_data0 out.2 = 0%nat /\
  (columns T).*1 = ["open"; "high"; "low"; "close"; "volume"] /\
  (fun d => (columns d).*1) <$> heap out.2 !! 0%nat
  = Some ["open"; "high"; "low"; "close"; "volume"; "change"; "signal";
          "SMA(c,fast)"; "SMA(c,slow)"; "pos"; "trading_pnl"; "fee"; "netpnl";
          "cumpnl"; "capital"; "outofmoney"] /\
  heap out.2 !! 0%nat <> Some T.
Proof.
  cbv zeta. split_and!.
  - vm_compute. reflexivity.
  - reflexivity.
  - eexists. vm_compute. reflexivity.
  - vm_compute. reflexivity.
  - reflexivity.
  - vm_compute. reflexivity.
  - intros H.
    apply (f_equal (fmap (fun d => length (columns d)))) in H.
    vm_compute in H. discriminate H.
Qed.

(** ** Bar 0 of the ledger *)

Section first_bar.
Local Open Scope Qc_scope.

Lemma fmul_zero_r (x : fnum) : fmul x (Fin 0) = NaN \/ fmul x (Fin 0) = Fin 0.
Proof.
  destruct x as [|b|q]; simpl; [by left|by left|right]. f_equal. ring.
Qed.

Lemma positions_0 (signal : list fnum) :
  signal <> [] -> positions signal !! 0%nat = Some (Fin 0).
Proof.
  intros Hne. unfold positions, fillna. rewrite list_lookup_fmap, lookup_shift_0; [done|].
  unfold ffill. intros E. apply (f_equal length) in E.
  rewrite length_ffill_from in E. by destruct signal.
Qed.

Lemma position_delta_0 (pos : list fnum) :
  pos <> [] ->
  fillna fzero (fabs <$> zip_with fsub pos (shift pos)) !! 0%nat = Some (Fin 0).
Proof.
  intros Hne. unfold fillna. rewrite !list_lookup_fmap, lookup_zip_with.
  rewrite lookup_shift_0 by done.
  destruct pos as [|x pos]; [done|]. simpl. by destruct x.
Qed.

Lemma netpnl_0 (close change signal : list fnum) (p : Params) :
  close <> [] -> change <> [] -> signal <> [] ->
  led_netpnl (ledger_columns close change signal p) !! 0%nat = Some (Fin 0).
Proof.
  intros Hc Hch Hs. unfold ledger_columns. cbn [led_netpnl].
  assert (Hp : positions signal <> []).
  { intros E. apply (f_equal length) in E. rewrite length_positions in E.
    by destruct signal. }
  unfold fillna at 1. rewrite list_lookup_fmap, lookup_zip_with.
  unfold trading_pnl_of, fee_of, scale.
  rewrite !list_lookup_fmap, !lookup_zip_with, !list_lookup_fmap.
  rewrite positions_0, position_delta_0 by done.
  destruct close as [|c0 close]; [done|]. destruct change as [|ch0 change]; [done|].
  cbn [lookup list_lookup fmap option_fmap option_map mbind option_bind].
  destruct (fmul_zero_r ch0) as [->| ->];
    destruct (fmul_zero_r (fmul (fmul (fmul c0 (Fin (size p))) (Fin (amount p)))
                             (Fin (comm p)))) as [->| ->];
    cbn; try done; try (do 2 f_equal; ring).
Qed.

Lemma capital_0 (close change signal : list fnum) (p : Params) :
  close <> [] -> change <> [] -> signal <> [] ->
  led_capital (ledger_columns close change signal p) !! 0%nat = Some (Fin (cash p)).
Proof.
  intros Hc Hch Hs.
  pose proof (netpnl_0 close change signal p Hc Hch Hs) as H.
  unfold ledger_columns in *. cbn [led_netpnl led_capital] in *.
  destruct (fillna fzero _) as [|x net]; [done|]. simpl in H. injection H as ->.
  unfold capital_of, cumsum. cbn. do 2 f_equal. ring.
Qed.

Lemma change_0 (close : list fnum) : close <> [] -> diff close !! 0%nat = Some NaN.
Proof.
  intros H. unfold diff. rewrite lookup_zip_with, lookup_shift_0 by done.
  destruct close as [|x close]; [done|]. simpl. by destruct x.
Qed.

Lemma fee_0 (close signal : list fnum) (p : Params) (q : Qc) :
  close !! 0%nat = Some (Fin q) -> signal <> [] ->
  fee_of close (positions signal) (positions signal) p !! 0%nat = Some (Fin 0).
Proof.
  intros Hq Hs. unfold fee_of, scale.
  rewrite lookup_zip_with, !list_lookup_fmap, Hq.
  rewrite position_delta_0.
  - cbn. do 2 f_equal. ring.
  - intros E. apply (f_equal length) in E. rewrite length_positions in E.
    by destruct signal.
Qed.

End first_bar.

(** ** A whole run *)

Lemma bind_read {B} (l : nat) (name : string) (k : list fnum -> M B) (st : State)
  (d : DataFrame) (xs : list fnum) :
  heap st !! l = Some d -> get_num d name = Ok xs ->
  bind (read l name) k st = k xs st.
Proof.
  intros Hl Hx. unfold read. unfold bind at 1. rewrite (bind_deref _ _ _ d) by done.
  unfold lift. by rewrite Hx.
Qed.

Lemma index_neg_last {A} (xs : list A) (x : A) :
  list.last xs = Some x -> index_neg xs 1 = Ok x.
Proof.
  rewrite last_lookup. intros H. unfold index_neg.
  pose proof (lookup_lt_Some _ _ _ H) as Hlt.
  rewrite decide_True by lia.
  replace (length xs - 1)%nat with (pred (length xs)) by lia. by rewrite H.
Qed.

Lemma set_change_Ok (d : DataFrame) (close : list fnum) :
  frame_wf d -> get_num d "close" = Ok close ->
  exists d1, set_change d = Ok d1 /\ frame_len d1 = frame_len d.
Proof.
  intros Hwf Hclose. unfold set_change. rewrite Hclose. cbn [rbind].
  pose proof (get_num_length _ _ _ Hwf Hclose) as L.
  destruct (set_col_assigned d "change" (NumCol (diff close))) as (d1 & -> & A);
    [simpl; solve_len|].
  exists d1. split; [done|]. by eapply assigned_len.
Qed.

(** [_broker] with the list the strategy's [_sig] returned. *)
Lemma broker_run (self : BacktestRun) (p : Params) (st st2 : State)
  (d d1 : DataFrame) (close : list fnum) (sigs : list (option Qc)) :
  heap st !! r_data self = Some d ->
  frame_wf d ->
  get_num d "close" = Ok close ->
  set_change d = Ok d1 ->
  _sig (r_strategy self) (with_frame st (r_data self) d1) = (Ok sigs, st2) ->
  length sigs = frame_len d ->
  exists d' close2 change2 signal2,
    _broker self p st = (Ok tt, with_frame st2 (r_data self) d') /\
    heap st2 !! r_data self = Some d1 /\
    index d' = index d /\
    frame_wf d' /\
    ledger_of d' = Ok (ledger_columns close2 change2 signal2 p) /\
    (length close2 = frame_len d /\ length change2 = frame_len d
     /\ length signal2 = frame_len d) /\
    (reserved_free (s_indicators st2) ->
       close2 = close /\ change2 = diff close /\ signal2 = signal_column sigs).
Proof.
  intros Hl Hwf Hclose Hch Hsig Hlen.
  destruct (broker_frame_total sigs (s_indicators st2) p d close Hwf Hclose Hlen)
    as (d' & c2 & ch2 & s2 & Hrun & Hidx & Hwf' & Hled & _ & (L1 & L2 & L3) & Hno & _).
  assert (Hl2 : heap st2 !! r_data self = Some d1).
  { eapply grows_lookup; [by eapply grows_sig|]. by eapply lookup_with_frame. }
  exists d', c2, ch2, s2. split; [|by split_and!].
  unfold _broker. apply (broker_with_run _ self p st st2 d d1 d' sigs); try done.
  unfold broker_frame in Hrun. by rewrite Hch in Hrun.
Qed.

Lemma nonempty_of_length {A} (xs : list A) (n : nat) :
  length xs = n -> (1 <= n)%nat -> xs <> [].
Proof. intros <- H ->. simpl in H. lia. Qed.

(** C10, as the code has it.  On a table of at least two bars whose first and
    last labels are at least one day apart, when the strategy's signal loop
    returns, [run] returns a report and leaves a ledger in which bar 0 has
    net profit 0 and capital equal to the cash parameter; the reported return
    is (final capital - cash) / cash * 100, and the reported drawdown is that
    of the capital column.  When no indicator bears a reserved name, the
    price change of bar 0 is undefined and its fee is 0. *)
Theorem run_first_bar (self : BacktestRun) (p : Params) (st st2 : State)
  (d d1 ds : DataFrame) (close : list fnum) (sigs : list (option Qc)) (t0 t1 : Z) :
  heap st !! r_data self = Some d ->
  frame_wf d ->
  get_num d "close" = Ok close ->
  (2 <= frame_len d)%nat ->
  heap st !! s_data st = Some ds ->
  frame_len ds = frame_len d ->
  set_change d = Ok d1 ->
  _sig (r_strategy self) (with_frame st (r_data self) d1) = (Ok sigs, st2) ->
  index d !! 0%nat = Some t0 ->
  list.last (index d) = Some t1 ->
  ((t1 - t0) / ns_per_day <> 0)%Z ->
  exists rep d' L,
    run self p st = (Ok rep, with_frame st2 (r_data self) d') /\
    ledger_of d' = Ok L /\
    led_netpnl L !! 0%nat = Some (Fin 0%Qc) /\
    led_capital L !! 0%nat = Some (Fin (cash p)) /\
    list.last (led_capital L) = Some (rep_final rep) /\
    rep_return rep
    = fmul (fdiv (fsub (rep_final rep) (Fin (cash p))) (Fin (cash p))) (Fin hundred) /\
    rep_drawdown rep = max_drawdown (led_capital L) /\
    (reserved_free (s_indicators st2) ->
       led_change L !! 0%nat = Some NaN /\
       forall q, close !! 0%nat = Some (Fin q) -> led_fee L !! 0%nat = Some (Fin 0%Qc)).
Proof.
  intros Hl Hwf Hclose Hn Hds Hdsn Hch Hsig Ht0 Ht1 Hdays.
  set (l := r_data self) in *.
  destruct (set_change_Ok d close Hwf Hclose) as (d1' & Hch' & N1).
  assert (d1' = d1) as -> by congruence.
  assert (Hlen : length sigs = frame_len d).
  { destruct (decide (s_data st = l)) as [E|E].
    - destruct (sig_result_length (r_strategy self) (with_frame st l d1) st2 sigs d1)
        as (L & _); [|lia|done|lia].
      cbn [s_data with_frame]. rewrite E. by eapply lookup_with_frame.
    - destruct (sig_result_length (r_strategy self) (with_frame st l d1) st2 sigs ds)
        as (L & _); [|lia|done|lia].
      cbn [s_data with_frame heap]. by rewrite list_lookup_insert_ne. }
  destruct (broker_run self p st st2 d d1 close sigs Hl Hwf Hclose Hch Hsig Hlen)
    as (d' & c2 & ch2 & s2 & Hbroker & Hl2 & Hidx & Hwf' & Hled & (L1 & L2 & L3) & Hno).
  pose proof (nonempty_of_length _ _ L1 ltac:(lia)) as Nc.
  pose proof (nonempty_of_length _ _ L2 ltac:(lia)) as Nch.
  pose proof (nonempty_of_length _ _ L3 ltac:(lia)) as Ns.
  set (L := ledger_columns c2 ch2 s2 p) in *.
  pose proof (capital_0 c2 ch2 s2 p Nc Nch Ns) as Hcap0. fold L in Hcap0.
  pose proof (netpnl_0 c2 ch2 s2 p Nc Nch Ns) as Hnet0. fold L in Hnet0.
  destruct (ledger_of_inv d' L Hled) as (_ & Hpos & _ & _ & _ & _ & Hcap & Hoom).
  assert (exists oom, get_num d' "outofmoney" = Ok oom) as [oom Hoom'].
  { unfold get_num. rewrite Hoom. unfold L, ledger_columns. cbn [led_outofmoney].
    by eexists. }
  destruct (list.last (led_capital L)) as [final|] eqn:Hfinal.
  2:{ apply last_None in Hfinal. rewrite Hfinal in Hcap0. done. }
  set (st3 := with_frame st2 l d').
  assert (Hl3 : heap st3 !! l = Some d') by by eapply lookup_with_frame.
  eexists _, d', L. split.
  - unfold run. fold l. unfold bind at 1. rewrite Hbroker. fold st3.
    rewrite (bind_read l "outofmoney" _ st3 d' oom) by done.
    rewrite (bind_deref l _ st3 d') by done.
    rewrite Hidx, Ht0. cbn [from_option].
    rewrite (bind_lift_ok _ t0) by done.
    rewrite (bind_lift_ok _ t1) by (by apply index_neg_last).
    rewrite (bind_read l "pos" _ st3 d' _ Hl3 Hpos).
    unfold exposure_time. rewrite decide_False by done.
    rewrite (bind_lift_ok _ _ _ _ eq_refl).
    rewrite (bind_read l "capital" _ st3 d' _ Hl3 Hcap).
    rewrite (bind_lift_ok _ final) by (by apply index_neg_last).
    rewrite (bind_read l "capital" _ st3 d' _ Hl3 Hcap).
    rewrite Hcap0. cbn [from_option].
    rewrite (bind_lift_ok _ _ _ _ eq_refl).
    rewrite (bind_read l "capital" _ st3 d' _ Hl3 Hcap).
    reflexivity.
  - split_and!; try done.
    intros Hfree. destruct (Hno Hfree) as (-> & -> & ->).
    split.
    + by apply change_0.
    + intros q Hq. unfold L, ledger_columns. cbn [led_fee]. by eapply fee_0.
Qed.

Lemma run_first_bar_witness :
  let T := table_of_closes [10; 11; 12; 11; 9]%Z in
  let self := mkRun 0 (sma_cross 1 2) in
  let p := mkParams (Qc_of_Z 1000) 1%Qc 0%Qc 1%Qc in
  let d1 := mkFrame (index T)
              (assoc_set "change" (NumCol (diff (qz <$> [10; 11; 12; 11; 9]%Z)))
                         (columns T)) in
  let st2 := (_sig (sma_cross 1 2) (with_frame (fresh_state T) 0 d1)).2 in
  exists rep d' L,
    run self p (fresh_state T) = (Ok rep, with_frame st2 0 d') /\
    ledger_of d' = Ok L /\
    led_netpnl L !! 0%nat = Some (Fin 0%Qc) /\
    led_capital L !! 0%nat = Some (Fin (cash p)) /\
    list.last (led_capital L) = Some (rep_final rep) /\
    rep_return rep
    = fmul (fdiv (fsub (rep_final rep) (Fin (cash p))) (Fin (cash p))) (Fin hundred) /\
    rep_drawdown rep = max_drawdown (led_capital L) /\
    (reserved_free (s_indicators st2) ->
       led_change L !! 0%nat = Some NaN /\
       forall q, (qz <$> [10; 11; 12; 11; 9]%Z) !! 0%nat = Some (Fin q) ->
                 led_fee L !! 0%nat = Some (Fin 0%Qc)).
Proof.
  apply (run_first_bar (mkRun 0 (sma_cross 1 2))
           (mkParams (Qc_of_Z 1000) 1%Qc 0%Qc 1%Qc)
           (fresh_state (table_of_closes [10; 11; 12; 11; 9]%Z))
           (_sig (sma_cross 1 2)
              (with_frame (fresh_state (table_of_closes [10; 11; 12; 11; 9]%Z)) 0
                 (mkFrame (index (table_of_closes [10; 11; 12; 11; 9]%Z))
                    (assoc_set "change" (NumCol (diff (qz <$> [10; 11; 12; 11; 9]%Z)))
                       (columns (table_of_closes [10; 11; 12; 11; 9]%Z)))))).2
           (table_of_closes [10; 11; 12; 11; 9]%Z)
           (mkFrame (index (table_of_closes [10; 11; 12; 11; 9]%Z))
              (assoc_set "change" (NumCol (diff (qz <$> [10; 11; 12; 11; 9]%Z)))
                 (columns (table_of_closes [10; 11; 12; 11; 9]%Z))))
           (table_of_closes [10; 11; 12; 11; 9]%Z)
           (qz <$> [10; 11; 12; 11; 9]%Z)
           [None; None; None; Some short; None]
           0%Z (4 * ns_per_day)%Z).
  - reflexivity.
  - apply table_of_closes_wf.
  - reflexivity.
  - vm_compute. lia.
  - reflexivity.
  - reflexivity.
  - vm_compute. reflexivity.
  - vm_compute. reflexivity.
  - reflexivity.
  - reflexivity.
  - vm_compute. discriminate.
Defined.

(** The claim fails on a table of one bar, which [StrategyBase] accepts: the
    order list has two entries and cannot be stored in a column of height 1,
    so [run] raises and leaves no ledger.  It also fails for the report on
    two bars less than a day apart: the exposure time divides by the zero
    days of the duration. *)
Lemma run_one_bar_raises :
  let T := table_of_closes [100]%Z in
  let p := mkParams (Qc_of_Z 1000) 1%Qc 0%Qc 1%Qc in
  let out := run (mkRun 0 (long_at 2)) p (fresh_state T) in
  let c := NumCol [qz 100; qz 101] in
  let T2 := mkFrame [0; 3600000000000]%Z
              [("open", c); ("high", c); ("low", c); ("close", c); ("volume", c)] in
  StrategyBase_init [T] 0 = Ok (fresh_state T) /\
  frame_len T = 1%nat /\
  out.1 = Raise (LengthMismatch 2 1) /\
  (fun d => has_column d "netpnl") <$> heap out.2 !! 0%nat = Some false /\
  StrategyBase_init [T2] 0 = Ok (fresh_state T2) /\
  (run (mkRun 0 (long_at 2)) p (fresh_state T2)).1 = Raise ZeroDivisionError.
Proof.
  cbv zeta. split_and!; vm_compute; reflexivity.
Qed.

(** ** No lookahead, through the broker *)











(** ** Below two observations *)

(** X1.  [crossover] raises exactly when one of the two series has fewer
    than two observations, and what it raises is then the [IndexError] of the
    [[-2]] lookup; on longer series it always returns. *)
Theorem crossover_raises_iff (A B : list fnum) :
  (forall e, crossover A B = Raise e -> e = IndexError) /\
  (crossover A B = Raise IndexError <-> (length A < 2 \/ length B < 2)%nat) /\
  ((2 <= length A)%nat -> (2 <= length B)%nat ->
   exists v, crossover A B = Ok v).
Proof.
  destruct (decide (length A < 2)%nat) as [HA|HA].
  { rewrite crossover_short by done. split_and!.
    - by intros e [= <-].
    - split; [by left|done].
    - lia. }
  destruct (index_neg_lookup A 2) as (a2 & _ & Ia2); [lia..|].
  destruct (index_neg_lookup A 1) as (a1 & _ & Ia1); [lia..|].
  destruct (decide (length B < 2)%nat) as [HB|HB].
  { assert (E : crossover A B = Raise IndexError).
    { unfold crossover. by rewrite Ia2, index_neg_short. }
    rewrite E. split_and!.
    - by intros e [= <-].
    - split; [by right|done].
    - lia. }
  destruct (index_neg_lookup B 2) as (b2 & _ & Ib2); [lia..|].
  destruct (index_neg_lookup B 1) as (b1 & _ & Ib1); [lia..|].
  rewrite (crossover_eval A B a2 a1 b2 b1) by done. split_and!.
  - discriminate.
  - split; [discriminate|lia].
  - intros _ _. by eexists.
Qed.

(** ** The signal loop on a short table *)

(** X2.  On a table of at most two bars [_sig] returns the two leading
    [None]s without ever calling the strategy: the result is the same for
    every strategy, the only effect is the copy of line 189, [self._data] is
    not rebound and nothing is recorded. *)
Theorem sig_short_table (s : Strategy) (st : State) (d : DataFrame) :
  heap st !! s_data st = Some d ->
  (frame_len d <= 2)%nat ->
  _sig s st
  = (Ok [None; None],
     mkState (heap st ++ [d]) (s_data st) (s_data0 st) (s_indicators st)).
Proof.
  intros Hd Hlen. unfold _sig. rewrite (bind_data _ _ d), bind_alloc by done.
  replace (frame_len d - 2)%nat with 0%nat by lia. done.
Qed.

Lemma sig_short_table_witness :
  let T := table_of_closes [100; 101]%Z in
  _sig (sma_cross 1 2) (fresh_state T)
  = (Ok [None; None], mkState ([T] ++ [T]) 0 0 []).
Proof.
  apply (sig_short_table (sma_cross 1 2) (fresh_state (table_of_closes [100; 101]%Z))
           (table_of_closes [100; 101]%Z)).
  - reflexivity.
  - vm_compute. lia.
Defined.

(** ** A run that fails in the strategy *)

(** X3.  When the signal loop raises, [_broker] raises the same exception,
    after line 36 has already assigned the [change] column: the table object
    the run shares with its caller is left with that column and without any
    ledger column. *)
Theorem broker_failure_leaves_change (self : BacktestRun) (p : Params)
  (st st2 : State) (d : DataFrame) (close : list fnum) (e : exn) :
  heap st !! r_data self = Some d ->
  frame_wf d ->
  get_num d "close" = Ok close ->
  _sig (r_strategy self)
       (with_frame st (r_data self)
          (mkFrame (index d) (assoc_set "change" (NumCol (diff close)) (columns d))))
  = (Raise e, st2) ->
  _broker self p st = (Raise e, st2) /\
  run self p st = (Raise e, st2) /\
  heap st2 !! r_data self
  = Some (mkFrame (index d) (assoc_set "change" (NumCol (diff close)) (columns d))).
Proof.
  intros Hl Hwf Hclose Hsig.
  set (d1 := mkFrame (index d) (assoc_set "change" (NumCol (diff close)) (columns d))) in *.
  assert (Hch : set_change d = Ok d1).
  { unfold set_change. rewrite Hclose. cbn [rbind]. unfold set_col.
    rewrite decide_True; [done|].
    simpl. rewrite length_diff. by apply (get_num_length d "close"). }
  assert (Hb : _broker self p st = (Raise e, st2)).
  { unfold _broker, _broker_with.
    rewrite (bind_update _ _ _ st d d1) by done.
    unfold bind at 1. by rewrite Hsig. }
  split_and!; [done| |].
  - unfold run. unfold bind at 1. by rewrite Hb.
  - eapply grows_lookup; [by eapply grows_sig|]. by eapply lookup_with_frame.
Qed.

Section ledger_cells.
Local Open Scope Qc_scope.

Variable closes : list Qc.
Variable sigs : list (option Qc).
Variable p : Params.
Hypothesis same_length : length sigs = length closes.

Let close := Fin <$> closes.
Let pos := positions (signal_column sigs).

Lemma position_change_lookup (k : nat) :
  (k < length closes)%nat ->
  fillna fzero (fabs <$> zip_with fsub pos (shift pos)) !! k
  = Some (Fin (position_change_at sigs k)).
Proof.
  intros Hk. unfold fillna. rewrite !list_lookup_fmap, lookup_zip_with.
  unfold pos. rewrite positions_lookup by lia. simpl.
  destruct k as [|j].
  - rewrite lookup_shift_0; [done|].
    intros E. apply (f_equal length) in E.
    rewrite length_positions, length_signal_column in E. simpl in E. lia.
  - rewrite lookup_shift_S by (rewrite length_positions, length_signal_column; lia).
    rewrite positions_lookup by lia. done.
Qed.

Lemma fee_lookup (k : nat) :
  (k < length closes)%nat ->
  fee_of close pos pos p !! k = Some (Fin (fee_at closes sigs p k)).
Proof.
  intros Hk. unfold fee_of.
  rewrite lookup_zip_with. unfold scale, close. rewrite !list_lookup_fmap.
  destruct (lookup_lt_is_Some_2 closes k Hk) as [c Hc].
  fold close pos. rewrite position_change_lookup by done.
  unfold fee_at. rewrite Hc. done.
Qed.

Lemma netpnl_lookup (k : nat) :
  (k < length closes)%nat ->
  fillna fzero (zip_with fsub (trading_pnl_of (diff close) pos p) (fee_of close pos pos p))
    !! k
  = Some (Fin (netpnl_at closes sigs p k)).
Proof.
  intros Hk. unfold fillna.
  rewrite list_lookup_fmap, lookup_zip_with, fee_lookup by done.
  unfold close, pos. rewrite trading_pnl_lookup by done.
  simpl. unfold netpnl_at, trading_pnl_at.
  destruct (price_change_at closes k) as [dc|] eqn:E; simpl; [done|].
  do 2 f_equal.
  destruct k as [|j]; [|simpl in E].
  - unfold fee_at, position_change_at.
    destruct (closes !! 0%nat); simpl; ring.
  - destruct (lookup_lt_is_Some_2 closes (S j) Hk) as [c Hc].
    destruct (lookup_lt_is_Some_2 closes j) as [c' Hc']; [lia|].
    by rewrite Hc, Hc' in E.
Qed.

Lemma netpnl_fin :
  fillna fzero (zip_with fsub (trading_pnl_of (diff close) pos p) (fee_of close pos pos p))
  = Fin <$> (netpnl_at closes sigs p <$> seq 0 (length closes)).
Proof.
  apply list_eq. intros k.
  destruct (decide (k < length closes)%nat) as [Hk|Hk].
  - rewrite netpnl_lookup by done.
    rewrite !list_lookup_fmap, lookup_seq_lt by done. done.
  - rewrite !lookup_ge_None_2; [done| |].
    + rewrite !length_fmap, length_seq. lia.
    + unfold pos, close. solve_len.
Qed.

Lemma capital_lookup (t : nat) :
  (t < length closes)%nat ->
  led_capital (ledger_columns close (diff close) (signal_column sigs) p) !! t
  = Some (Fin (cash p + sum_list (netpnl_at closes sigs p <$> seq 0 (S t)))).
Proof.
  intros Ht. unfold ledger_columns. cbn [led_capital]. fold pos.
  rewrite netpnl_fin. unfold capital_of, cumsum, fzero.
  rewrite list_lookup_fmap, cumsum_from_fin by (rewrite length_fmap, length_seq; lia).
  rewrite <- fmap_take, take_seq. replace (S t `min` length closes)%nat with (S t) by lia.
  simpl. do 2 f_equal. ring.
Qed.

End ledger_cells.

Lemma abs_Qc_nonneg (q : Qc) : (0 <= abs_Qc q)%Qc.
Proof.
  unfold abs_Qc, Qc_neg. destruct (q ?= 0)%Qc eqn:E.
  - apply Qceq_alt in E. subst. apply Qcle_refl.
  - apply Qclt_alt in E. apply Qclt_le_weak, Qcopp_le_compat in E.
    by replace (- 0)%Qc with 0%Qc in E by ring.
  - apply Qcgt_alt in E. by apply Qclt_le_weak.
Qed.

Lemma abs_Qc_0 : abs_Qc 0 = 0%Qc.
Proof. done. Qed.

Lemma position_change_nonneg (sigs : list (option Qc)) (k : nat) :
  (0 <= position_change_at sigs k)%Qc.
Proof. destruct k; simpl; [apply Qcle_refl|apply abs_Qc_nonneg]. Qed.

(** X4.  The fee column bar by bar, on finite prices: bar 0 is free; at a
    later bar the fee is close * size * amount * comm * |pos[t] - pos[t-1]|,
    so a bar on which the position does not change costs nothing, whatever
    the commission; and no fee is negative when the prices and the three
    parameters are not. *)
Theorem broker_fee_cells (self : BacktestRun) (p : Params) (st : State)
  (d : DataFrame) (closes : list Qc) (sigs : list (option Qc)) :
  heap st !! r_data self = Some d ->
  frame_wf d ->
  get_num d "close" = Ok (Fin <$> closes) ->
  length sigs = frame_len d ->
  reserved_free (s_indicators st) ->
  exists d' fee,
    _broker_with (ret sigs) self p st = (Ok tt, with_frame st (r_data self) d') /\
    get_num d' "fee" = Ok fee /\
    length fee = frame_len d /\
    (forall t, (t < frame_len d)%nat -> fee !! t = Some (Fin (fee_at closes sigs p t))) /\
    ((0 < frame_len d)%nat -> fee !! 0%nat = Some (Fin 0%Qc)) /\
    (forall t c, closes !! S t = Some c ->
       fee !! S t
       = Some (Fin (c * size p * amount p * comm p
                    * abs_Qc (position_at sigs (S t) - position_at sigs t))%Qc)) /\
    (forall t, (S t < frame_len d)%nat ->
       position_at sigs (S t) = position_at sigs t -> fee !! S t = Some (Fin 0%Qc)) /\
    ((forall c, c ∈ closes -> (0 <= c)%Qc) ->
     (0 <= size p)%Qc -> (0 <= amount p)%Qc -> (0 <= comm p)%Qc ->
     forall t, (t < frame_len d)%nat ->
       exists f, fee !! t = Some (Fin f) /\ (0 <= f)%Qc).
Proof.
  intros Hl Hwf Hclose Hlen Hfree.
  pose proof (get_num_length _ _ _ Hwf Hclose) as Lclose. rewrite length_fmap in Lclose.
  assert (Hsame : length sigs = length closes) by lia.
  destruct (broker_ret_ledger self p st d _ sigs Hl Hwf Hclose Hlen Hfree)
    as (d' & Hrun & _ & _ & _ & Hled).
  apply ledger_of_inv in Hled as (_ & _ & _ & Hfee & _).
  unfold ledger_columns in Hfee. cbn [led_fee] in Hfee.
  eexists d', _. split; [exact Hrun|]. split; [exact Hfee|].
  assert (Hcell : forall t, (t < frame_len d)%nat ->
            fee_of (Fin <$> closes) (positions (signal_column sigs))
                   (positions (signal_column sigs)) p !! t
            = Some (Fin (fee_at closes sigs p t))).
  { intros t Ht. apply fee_lookup; [done|lia]. }
  split_and!.
  - solve_len.
  - exact Hcell.
  - intros Hn. rewrite Hcell by done. unfold fee_at, position_change_at.
    destruct (closes !! 0%nat); simpl; do 2 f_equal; ring.
  - intros t c Hc. rewrite Hcell by (apply lookup_lt_Some in Hc; lia).
    unfold fee_at. rewrite Hc. done.
  - intros t Ht E. rewrite Hcell by done. unfold fee_at, position_change_at.
    rewrite E. replace (position_at sigs t - position_at sigs t)%Qc with 0%Qc by ring.
    rewrite abs_Qc_0. destruct (closes !! S t); simpl; do 2 f_equal; ring.
  - intros Hc Hs Ha Hco t Ht. rewrite Hcell by done. eexists. split; [done|].
    unfold fee_at. destruct (closes !! t) as [c|] eqn:E; simpl; [|apply Qcle_refl].
    assert (0 <= c)%Qc by (apply Hc; by eapply list_elem_of_lookup_2).
    pose proof (position_change_nonneg sigs t).
    repeat apply Qcmult_nonneg_nonneg; done.
Qed.

Lemma broker_fee_cells_witness :
  let st := fresh_state (table_of_closes [100; 100; 105; 110]%Z) in
  let closes := Qc_of_Z <$> [100; 100; 105; 110]%Z in
  let sigs := [None; Some long; Some long; Some short] in
  let p := mkParams (Qc_of_Z 1000) (Qc_of_Z 10) (Qc_of_Z 2) 1%Qc in
  exists d' fee,
    _broker_with (ret sigs) (mkRun 0 (long_at 2)) p st = (Ok tt, with_frame st 0 d') /\
    get_num d' "fee" = Ok fee /\
    length fee = 4%nat /\
    (forall t, (t < 4)%nat -> fee !! t = Some (Fin (fee_at closes sigs p t))) /\
    ((0 < 4)%nat -> fee !! 0%nat = Some (Fin 0%Qc)) /\
    (forall t c, closes !! S t = Some c ->
       fee !! S t
       = Some (Fin (c * size p * amount p * comm p
                    * abs_Qc (position_at sigs (S t) - position_at sigs t))%Qc)) /\
    (forall t, (S t < 4)%nat ->
       position_at sigs (S t) = position_at sigs t -> fee !! S t = Some (Fin 0%Qc)) /\
    ((forall c, c ∈ closes -> (0 <= c)%Qc) ->
     (0 <= size p)%Qc -> (0 <= amount p)%Qc -> (0 <= comm p)%Qc ->
     forall t, (t < 4)%nat ->
       exists f, fee !! t = Some (Fin f) /\ (0 <= f)%Qc).
Proof.
  apply (broker_fee_cells (mkRun 0 (long_at 2))
           (mkParams (Qc_of_Z 1000) (Qc_of_Z 10) (Qc_of_Z 2) 1%Qc)
           (fresh_state (table_of_closes [100; 100; 105; 110]%Z))
           (table_of_closes [100; 100; 105; 110]%Z)
           (Qc_of_Z <$> [100; 100; 105; 110]%Z)
           [None; Some long; Some long; Some short]).
  - reflexivity.
  - apply table_of_closes_wf.
  - reflexivity.
  - reflexivity.
  - apply reserved_free_nil.
Defined.

Lemma sum_list_app (xs ys : list Qc) :
  sum_list (xs ++ ys) = (sum_list xs + sum_list ys)%Qc.
Proof. induction xs as [|x xs IH]; simpl; [ring|]. rewrite IH. ring. Qed.

Lemma sum_list_seq_S (f : nat -> Qc) (t : nat) :
  sum_list (f <$> seq 0 (S t)) = (sum_list (f <$> seq 0 t) + f t)%Qc.
Proof. rewrite seq_S, fmap_app, sum_list_app. simpl. ring. Qed.

(** X5.  The capital column with a commission, on finite prices, as long as
    no recorded indicator is displayed as close, change or signal, and in
    exact arithmetic: the net profit of bar [t] is
    price change * position * size minus the fee of the bar (0 at bar 0), the
    capital at bar [t] is the cash plus the net profits of the bars up to
    [t], and from one bar to the next the capital moves by the net profit of
    the later bar. *)
Theorem broker_capital_cells (self : BacktestRun) (p : Params) (st : State)
  (d : DataFrame) (closes : list Qc) (sigs : list (option Qc)) :
  heap st !! r_data self = Some d ->
  frame_wf d ->
  get_num d "close" = Ok (Fin <$> closes) ->
  length sigs = frame_len d ->
  reserved_free (s_indicators st) ->
  exists d' netpnl capital,
    _broker_with (ret sigs) self p st = (Ok tt, with_frame st (r_data self) d') /\
    get_num d' "netpnl" = Ok netpnl /\
    get_num d' "capital" = Ok capital /\
    length capital = frame_len d /\
    (forall t, (t < frame_len d)%nat ->
       netpnl !! t = Some (Fin (netpnl_at closes sigs p t))) /\
    (forall t, (t < frame_len d)%nat ->
       capital !! t
       = Some (Fin (cash p + sum_list (netpnl_at closes sigs p <$> seq 0 (S t)))%Qc)) /\
    (forall t, (S t < frame_len d)%nat ->
       exists c, capital !! t = Some (Fin c) /\
                 capital !! S t = Some (Fin (c + netpnl_at closes sigs p (S t))%Qc)).
Proof.
  intros Hl Hwf Hclose Hlen Hfree.
  pose proof (get_num_length _ _ _ Hwf Hclose) as Lclose. rewrite length_fmap in Lclose.
  assert (Hsame : length sigs = length closes) by lia.
  destruct (broker_ret_ledger self p st d _ sigs Hl Hwf Hclose Hlen Hfree)
    as (d' & Hrun & _ & _ & _ & Hled).
  pose proof (ledger_of_inv _ _ Hled) as (_ & _ & _ & _ & Hnet & _ & Hcap & _).
  assert (Hcell : forall t, (t < frame_len d)%nat ->
            led_capital (ledger_columns (Fin <$> closes) (diff (Fin <$> closes))
                           (signal_column sigs) p) !! t
            = Some (Fin (cash p + sum_list (netpnl_at closes sigs p <$> seq 0 (S t)))%Qc)).
  { intros t Ht. apply capital_lookup; [done|lia]. }
  eexists d', _, _. split; [exact Hrun|]. split; [exact Hnet|]. split; [exact Hcap|].
  split_and!.
  - unfold ledger_columns. cbn [led_capital]. unfold capital_of, cumsum.
    rewrite length_fmap, length_cumsum_from. solve_len.
  - intros t Ht. unfold ledger_columns. cbn [led_netpnl].
    apply netpnl_lookup; [done|lia].
  - exact Hcell.
  - intros t Ht. eexists. split; [apply Hcell; lia|].
    rewrite Hcell by done. rewrite (sum_list_seq_S _ (S t)). do 2 f_equal. ring.
Qed.

Lemma broker_capital_cells_witness :
  let st := fresh_state (table_of_closes [100; 100; 105; 110]%Z) in
  let closes := Qc_of_Z <$> [100; 100; 105; 110]%Z in
  let sigs := [None; Some long; Some long; Some short] in
  let p := mkParams (Qc_of_Z 1000) (Qc_of_Z 10) (Qc_of_Z 2) 1%Qc in
  exists d' netpnl capital,
    _broker_with (ret sigs) (mkRun 0 (long_at 2)) p st = (Ok tt, with_frame st 0 d') /\
    get_num d' "netpnl" = Ok netpnl /\
    get_num d' "capital" = Ok capital /\
    length capital = 4%nat /\
    (forall t, (t < 4)%nat -> netpnl !! t = Some (Fin (netpnl_at closes sigs p t))) /\
    (forall t, (t < 4)%nat ->
       capital !! t
       = Some (Fin (cash p + sum_list (netpnl_at closes sigs p <$> seq 0 (S t)))%Qc)) /\
    (forall t, (S t < 4)%nat ->
       exists c, capital !! t = Some (Fin c) /\
                 capital !! S t = Some (Fin (c + netpnl_at closes sigs p (S t))%Qc)).
Proof.
  apply (broker_capital_cells (mkRun 0 (long_at 2))
           (mkParams (Qc_of_Z 1000) (Qc_of_Z 10) (Qc_of_Z 2) 1%Qc)
           (fresh_state (table_of_closes [100; 100; 105; 110]%Z))
           (table_of_closes [100; 100; 105; 110]%Z)
           (Qc_of_Z <$> [100; 100; 105; 110]%Z)
           [None; Some long; Some long; Some short]).
  - reflexivity.
  - apply table_of_closes_wf.
  - reflexivity.
  - reflexivity.
  - apply reserved_free_nil.
Defined.

(** ** Mirrored orders *)

Lemma abs_Qc_opp (q : Qc) : abs_Qc (- q) = abs_Qc q.
Proof.
  unfold abs_Qc, Qc_neg.
  destruct (q ?= 0)%Qc eqn:E.
  - apply Qceq_alt in E. subst. done.
  - apply Qclt_alt in E.
    assert ((- q ?= 0) = Gt)%Qc as ->; [|done].
    apply Qcgt_alt. apply Qclt_minus_iff in E.
    by replace (0 + - q)%Qc with (- q)%Qc in E by ring.
  - apply Qcgt_alt in E.
    assert ((- q ?= 0) = Lt)%Qc as ->; [|ring].
    apply Qclt_alt, Qclt_minus_iff. by replace (0 + - - q)%Qc with q by ring.
Qed.

Lemma omap_id_mirror (l : list (option Qc)) :
  omap id (mirror l) = Qcopp <$> omap id l.
Proof.
  unfold mirror. induction l as [|[q|] l IH]; csimpl; [done| |done]. by rewrite IH.
Qed.

Lemma take_mirror (t : nat) (sigs : list (option Qc)) :
  take t (mirror sigs) = mirror (take t sigs).
Proof. unfold mirror. by rewrite fmap_take. Qed.

Lemma position_at_mirror (sigs : list (option Qc)) (t : nat) :
  position_at (mirror sigs) t = (- position_at sigs t)%Qc.
Proof.
  unfold position_at, last_action_before.
  rewrite take_mirror, omap_id_mirror, fmap_last.
  destruct (list.last (omap id (take t sigs))); simpl; [done|ring].
Qed.

Lemma length_mirror (sigs : list (option Qc)) : length (mirror sigs) = length sigs.
Proof. unfold mirror. by rewrite length_fmap. Qed.

Lemma trading_pnl_at_mirror (closes : list Qc) (sigs : list (option Qc)) (sz : Qc) (k : nat) :
  trading_pnl_at closes (mirror sigs) sz k = (- trading_pnl_at closes sigs sz k)%Qc.
Proof.
  unfold trading_pnl_at. rewrite position_at_mirror.
  destruct (price_change_at closes k); simpl; ring.
Qed.

Lemma fee_at_mirror (closes : list Qc) (sigs : list (option Qc)) (p : Params) (k : nat) :
  fee_at closes (mirror sigs) p k = fee_at closes sigs p k.
Proof.
  unfold fee_at. f_equal. f_equal.
  destruct k as [|j]; simpl; [done|].
  rewrite !position_at_mirror.
  replace (- position_at sigs (S j) - - position_at sigs j)%Qc
    with (- (position_at sigs (S j) - position_at sigs j))%Qc by ring.
  by rewrite abs_Qc_opp.
Qed.

Lemma sum_list_netpnl (closes : list Qc) (sigs : list (option Qc)) (p : Params)
  (ks : list nat) :
  sum_list (netpnl_at closes sigs p <$> ks)
  = (sum_list (trading_pnl_at closes sigs (size p) <$> ks)
     - sum_list (fee_at closes sigs p <$> ks))%Qc.
Proof. induction ks as [|k ks IH]; csimpl; [ring|]. rewrite IH. unfold netpnl_at. ring. Qed.

Lemma sum_list_opp (f g : nat -> Qc) (ks : list nat) :
  (forall k, f k = (- g k)%Qc) -> sum_list (f <$> ks) = (- sum_list (g <$> ks))%Qc.
Proof. intros H. induction ks as [|k ks IH]; csimpl; [ring|]. rewrite IH, H. ring. Qed.

Lemma fee_at_zero_comm (closes : list Qc) (sigs : list (option Qc)) (p : Params) (k : nat) :
  comm p = 0%Qc -> fee_at closes sigs p k = 0%Qc.
Proof.
  intros H. unfold fee_at. rewrite H. destruct (closes !! k); simpl; ring.
Qed.

Lemma sum_list_zero (f : nat -> Qc) (ks : list nat) :
  (forall k, f k = 0%Qc) -> sum_list (f <$> ks) = 0%Qc.
Proof. intros H. induction ks as [|k ks IH]; csimpl; [done|]. rewrite IH, H. ring. Qed.

(** X6.  Mirrored orders, on finite prices and as long as no recorded
    indicator is displayed as close, change or signal.  Settling the
    opposite orders (long for short, short for long) on the same table and
    parameters flips the sign of the trading profit and charges the same
    fees: where the capital is
    cash + G - F, the mirrored capital is cash - G - F, with G the trading
    profits and F the fees up to the bar.  With commission 0 the two capital
    curves are each other's reflection about the cash line. *)
Theorem broker_mirrored_orders (self : BacktestRun) (p : Params) (st : State)
  (d : DataFrame) (closes : list Qc) (sigs : list (option Qc)) :
  heap st !! r_data self = Some d ->
  frame_wf d ->
  get_num d "close" = Ok (Fin <$> closes) ->
  length sigs = frame_len d ->
  reserved_free (s_indicators st) ->
  exists d1 d2 capital capital',
    _broker_with (ret sigs) self p st = (Ok tt, with_frame st (r_data self) d1) /\
    _broker_with (ret (mirror sigs)) self p st = (Ok tt, with_frame st (r_data self) d2) /\
    get_num d1 "capital" = Ok capital /\
    get_num d2 "capital" = Ok capital' /\
    (forall t, (t < frame_len d)%nat ->
       let G := sum_list (trading_pnl_at closes sigs (size p) <$> seq 0 (S t)) in
       let F := sum_list (fee_at closes sigs p <$> seq 0 (S t)) in
       capital !! t = Some (Fin (cash p + G - F)%Qc) /\
       capital' !! t = Some (Fin (cash p - G - F)%Qc)) /\
    (comm p = 0%Qc ->
     forall t c, capital !! t = Some (Fin c) ->
                 capital' !! t = Some (Fin (cash p - (c - cash p))%Qc)).
Proof.
  intros Hl Hwf Hclose Hlen Hfree.
  pose proof (get_num_length _ _ _ Hwf Hclose) as Lclose. rewrite length_fmap in Lclose.
  assert (Hsame : length sigs = length closes) by lia.
  assert (Hsame' : length (mirror sigs) = length closes) by (rewrite length_mirror; lia).
  destruct (broker_ret_ledger self p st d _ sigs Hl Hwf Hclose Hlen Hfree)
    as (d1 & Hrun1 & _ & _ & _ & Hled1).
  destruct (broker_ret_ledger self p st d _ (mirror sigs) Hl Hwf Hclose) as
    (d2 & Hrun2 & _ & _ & _ & Hled2); [by rewrite length_mirror|done|].
  apply ledger_of_inv in Hled1 as (_ & _ & _ & _ & _ & _ & Hcap1 & _).
  apply ledger_of_inv in Hled2 as (_ & _ & _ & _ & _ & _ & Hcap2 & _).
  assert (Hcells : forall t, (t < frame_len d)%nat ->
    led_capital (ledger_columns (Fin <$> closes) (diff (Fin <$> closes))
                   (signal_column sigs) p) !! t
    = Some (Fin (cash p + sum_list (trading_pnl_at closes sigs (size p) <$> seq 0 (S t))
                 - sum_list (fee_at closes sigs p <$> seq 0 (S t)))%Qc) /\
    led_capital (ledger_columns (Fin <$> closes) (diff (Fin <$> closes))
                   (signal_column (mirror sigs)) p) !! t
    = Some (Fin (cash p - sum_list (trading_pnl_at closes sigs (size p) <$> seq 0 (S t))
                 - sum_list (fee_at closes sigs p <$> seq 0 (S t)))%Qc)).
  { intros t Ht. rewrite !capital_lookup by (done || lia).
    rewrite !sum_list_netpnl.
    rewrite (sum_list_opp (trading_pnl_at closes (mirror sigs) (size p))
               (trading_pnl_at closes sigs (size p)))
      by (intros k; apply trading_pnl_at_mirror).
    rewrite (list_fmap_ext (fee_at closes (mirror sigs) p) (fee_at closes sigs p))
      by (intros _ k _; apply fee_at_mirror).
    split; do 2 f_equal; ring. }
  eexists d1, d2, _, _.
  split; [exact Hrun1|]. split; [exact Hrun2|]. split; [exact Hcap1|].
  split; [exact Hcap2|]. split.
  - intros t Ht. cbv zeta. by apply Hcells.
  - intros Hcomm t c Hc.
    assert (t < frame_len d)%nat as Ht.
    { apply lookup_lt_Some in Hc. unfold ledger_columns in Hc. cbn [led_capital] in Hc.
      unfold capital_of, cumsum in Hc.
      rewrite length_fmap, length_cumsum_from in Hc. revert Hc. solve_len. }
    destruct (Hcells t Ht) as [E1 E2].
    assert (Ec : c = (cash p
                      + sum_list (trading_pnl_at closes sigs (size p) <$> seq 0 (S t))
                      - sum_list (fee_at closes sigs p <$> seq 0 (S t)))%Qc) by congruence.
    rewrite E2, Ec. do 2 f_equal.
    rewrite (sum_list_zero (fee_at closes sigs p)) by (intros k; by apply fee_at_zero_comm).
    ring.
Qed.

(** ** The report of a run *)

(** The report of [run], field by field, in terms of the ledger the run
    leaves in the table. *)
Lemma run_report (self : BacktestRun) (p : Params) (st st2 : State)
  (d d1 ds : DataFrame) (close : list fnum) (sigs : list (option Qc)) (t0 t1 : Z) :
  heap st !! r_data self = Some d ->
  frame_wf d ->
  get_num d "close" = Ok close ->
  (2 <= frame_len d)%nat ->
  heap st !! s_data st = Some ds ->
  frame_len ds = frame_len d ->
  set_change d = Ok d1 ->
  _sig (r_strategy self) (with_frame st (r_data self) d1) = (Ok sigs, st2) ->
  index d !! 0%nat = Some t0 ->
  list.last (index d) = Some t1 ->
  ((t1 - t0) / ns_per_day <> 0)%Z ->
  exists rep d' close2 change2 signal2,
    let L := ledger_columns close2 change2 signal2 p in
    run self p st = (Ok rep, with_frame st2 (r_data self) d') /\
    ledger_of d' = Ok L /\
    length sigs = frame_len d /\
    (length close2 = frame_len d /\ length change2 = frame_len d
     /\ length signal2 = frame_len d) /\
    (reserved_free (s_indicators st2) ->
       close2 = close /\ change2 = diff close /\ signal2 = signal_column sigs) /\
    rep_name rep = strategy_name (r_strategy self) /\
    rep_valid rep
    = feqb (foldl fadd fzero
              ((fun b : bool => if b then fone else fzero)
                 <$> outofmoney_of (led_capital L) close2 (led_fee L) (led_fee L) p))
           fzero /\
    rep_start rep = t0 /\ rep_end rep = t1 /\
    rep_days rep = ((t1 - t0) / ns_per_day)%Z /\
    rep_exposure rep
    = Fin ((Qc_of_Z (rep_days rep
                     - Z.of_nat (length (filter (fun x => feqb x fzero = true) (led_pos L))))
            / Qc_of_Z (rep_days rep)) * hundred)%Qc /\
    list.last (led_capital L) = Some (rep_final rep) /\
    rep_peak rep = series_max (led_capital L) /\
    rep_return rep = return_percent (rep_final rep) (Fin (cash p)) /\
    rep_drawdown rep = max_drawdown (led_capital L).
Proof.
  intros Hl Hwf Hclose Hn Hds Hdsn Hch Hsig Ht0 Ht1 Hdays.
  set (l := r_data self) in *.
  destruct (set_change_Ok d close Hwf Hclose) as (d1' & Hch' & N1).
  assert (d1' = d1) as -> by congruence.
  assert (Hlen : length sigs = frame_len d).
  { destruct (decide (s_data st = l)) as [E|E].
    - destruct (sig_result_length (r_strategy self) (with_frame st l d1) st2 sigs d1)
        as (L & _); [|lia|done|lia].
      cbn [s_data with_frame]. rewrite E. by eapply lookup_with_frame.
    - destruct (sig_result_length (r_strategy self) (with_frame st l d1) st2 sigs ds)
        as (L & _); [|lia|done|lia].
      cbn [s_data with_frame heap]. by rewrite list_lookup_insert_ne. }
  destruct (broker_run self p st st2 d d1 close sigs Hl Hwf Hclose Hch Hsig Hlen)
    as (d' & c2 & ch2 & s2 & Hbroker & Hl2 & Hidx & Hwf' & Hled & (L1 & L2 & L3) & Hno).
  pose proof (nonempty_of_length _ _ L1 ltac:(lia)) as Nc.
  pose proof (nonempty_of_length _ _ L2 ltac:(lia)) as Nch.
  pose proof (nonempty_of_length _ _ L3 ltac:(lia)) as Ns.
  set (L := ledger_columns c2 ch2 s2 p) in *.
  pose proof (capital_0 c2 ch2 s2 p Nc Nch Ns) as Hcap0. fold L in Hcap0.
  destruct (ledger_of_inv d' L Hled) as (_ & Hpos & _ & _ & _ & _ & Hcap & Hoom).
  assert (Hoom' : get_num d' "outofmoney"
                  = Ok ((fun b : bool => if b then fone else fzero)
                          <$> outofmoney_of (led_capital L) c2 (led_fee L) (led_fee L) p)).
  { unfold get_num. rewrite Hoom. done. }
  destruct (list.last (led_capital L)) as [final|] eqn:Hfinal.
  2:{ apply last_None in Hfinal. rewrite Hfinal in Hcap0. done. }
  set (st3 := with_frame st2 l d').
  assert (Hl3 : heap st3 !! l = Some d') by by eapply lookup_with_frame.
  eexists _, d', c2, ch2, s2. cbv zeta. fold L. split.
  - unfold run. fold l. unfold bind at 1. rewrite Hbroker. fold st3.
    rewrite (bind_read l "outofmoney" _ st3 d' _ Hl3 Hoom').
    rewrite (bind_deref l _ st3 d') by done.
    rewrite Hidx, Ht0. cbn [from_option].
    rewrite (bind_lift_ok _ t0) by done.
    rewrite (bind_lift_ok _ t1) by (by apply index_neg_last).
    rewrite (bind_read l "pos" _ st3 d' _ Hl3 Hpos).
    unfold exposure_time. rewrite decide_False by done.
    rewrite (bind_lift_ok _ _ _ _ eq_refl).
    rewrite (bind_read l "capital" _ st3 d' _ Hl3 Hcap).
    rewrite (bind_lift_ok _ final) by (by apply index_neg_last).
    rewrite (bind_read l "capital" _ st3 d' _ Hl3 Hcap).
    rewrite Hcap0. cbn [from_option].
    rewrite (bind_lift_ok _ _ _ _ eq_refl).
    rewrite (bind_read l "capital" _ st3 d' _ Hl3 Hcap).
    reflexivity.
  - split_and!; done.
Qed.

(** *** The solvency flag *)

Lemma fadd_zero_zero : fadd fzero fzero = fzero.
Proof. apply show_inj. reflexivity. Qed.

Lemma foldl_fadd_zeros (n : nat) : foldl fadd fzero (replicate n fzero) = fzero.
Proof.
  induction n as [|n IH]; [done|].
  cbn [replicate foldl]. by rewrite fadd_zero_zero.
Qed.

Lemma outofmoney_free (capital close fee : list fnum) (p : Params) :
  (forall k f, fee !! k = Some f -> f = Fin 0%Qc) ->
  outofmoney_of capital close fee fee p
  = replicate (length (outofmoney_of capital close fee fee p)) false.
Proof.
  intros Hfee. symmetry. apply replicate_as_Forall. split; [done|].
  apply list.Forall_forall. intros b Hb. unfold outofmoney_of in Hb.
  apply elem_of_lookup_zip_with_1 in Hb as (i & x & y & -> & _ & Hy).
  rewrite list_lookup_fmap in Hy.
  destruct (fee !! i) as [f|] eqn:E; [|done]. injection Hy as <-.
  rewrite (Hfee i f E). by destruct x.
Qed.

Lemma valid_of_free (capital close fee : list fnum) (p : Params) :
  (forall k f, fee !! k = Some f -> f = Fin 0%Qc) ->
  feqb (foldl fadd fzero
          ((fun b : bool => if b then fone else fzero)
             <$> outofmoney_of capital close fee fee p)) fzero = true.
Proof.
  intros Hfee. rewrite (outofmoney_free _ _ _ _ Hfee), fmap_replicate, foldl_fadd_zeros.
  done.
Qed.

Lemma fee_zero_comm_cells (close pos pos' : list fnum) (p : Params) :
  comm p = 0%Qc ->
  forall k f, fee_of close pos pos' p !! k = Some f -> f = Fin 0%Qc \/ f = NaN.
Proof.
  intros Hcomm k f Hk. unfold fee_of in Hk.
  apply lookup_zip_with_Some in Hk as (x & y & -> & Hx & _).
  unfold scale in Hx. rewrite list_lookup_fmap in Hx.
  destruct (_ !! k) as [z|] in Hx; [|done]. injection Hx as <-. rewrite Hcomm.
  destruct (fmul_zero_r z) as [-> | ->]; [by right|].
  destruct y as [|b|q]; cbn [fmul]; [by right|by right|left].
  f_equal. ring.
Qed.

Lemma outofmoney_zero_or_nan (capital close fee : list fnum) (p : Params) :
  (forall k f, fee !! k = Some f -> f = Fin 0%Qc \/ f = NaN) ->
  outofmoney_of capital close fee fee p
  = replicate (length (outofmoney_of capital close fee fee p)) false.
Proof.
  intros Hfee. symmetry. apply replicate_as_Forall. split; [done|].
  apply list.Forall_forall. intros b Hb. unfold outofmoney_of in Hb.
  apply elem_of_lookup_zip_with_1 in Hb as (i & x & y & -> & Hx & Hy).
  rewrite list_lookup_fmap in Hy.
  destruct (fee !! i) as [f|] eqn:E; [|done]. injection Hy as <-.
  destruct (Hfee i f E) as [-> | ->].
  - by destruct x.
  - apply lookup_zip_with_Some in Hx as (c & z & -> & _ & Hz).
    apply lookup_zip_with_Some in Hz as (u & v & -> & _ & Hv).
    rewrite E in Hv. injection Hv as <-.
    assert (fadd u NaN = NaN) as -> by by destruct u.
    assert (fleb c NaN = false) as -> by by destruct c.
    done.
Qed.

(** X7.  With commission 0 a run is always reported valid, whatever the
    closes and whatever indicators were recorded: with commission 0 every
    fee is 0 or not-a-number, a bar is flagged out of money only when its
    fee is a number other than 0, so no bar is flagged and line 76 finds no
    flag, however little cash the run starts with. *)
Theorem run_zero_commission_valid (self : BacktestRun) (p : Params) (st st2 : State)
  (d d1 ds : DataFrame) (close : list fnum) (sigs : list (option Qc)) (t0 t1 : Z) :
  heap st !! r_data self = Some d ->
  frame_wf d ->
  get_num d "close" = Ok close ->
  (2 <= frame_len d)%nat ->
  heap st !! s_data st = Some ds ->
  frame_len ds = frame_len d ->
  set_change d = Ok d1 ->
  _sig (r_strategy self) (with_frame st (r_data self) d1) = (Ok sigs, st2) ->
  index d !! 0%nat = Some t0 ->
  list.last (index d) = Some t1 ->
  ((t1 - t0) / ns_per_day <> 0)%Z ->
  comm p = 0%Qc ->
  exists rep d',
    run self p st = (Ok rep, with_frame st2 (r_data self) d') /\
    rep_valid rep = true /\
    assoc_get "outofmoney" (columns d') = Some (BoolCol (replicate (frame_len d) false)).
Proof.
  intros Hl Hwf Hclose Hn Hds Hdsn Hch Hsig Ht0 Ht1 Hdays Hcomm.
  destruct (run_report self p st st2 d d1 ds close sigs t0 t1) as
    (rep & d' & c2 & ch2 & s2 & Hrun & Hled & Hlen & (L1 & L2 & L3) & _ & _ & Hvalid & _);
    try done.
  set (L := ledger_columns c2 ch2 s2 p) in *.
  assert (Hfee : forall k f, led_fee L !! k = Some f -> f = Fin 0%Qc \/ f = NaN).
  { intros k f Hk. unfold L, ledger_columns in Hk. cbn [led_fee] in Hk.
    by eapply fee_zero_comm_cells. }
  assert (Hout : outofmoney_of (led_capital L) c2 (led_fee L) (led_fee L) p
                 = replicate (frame_len d) false).
  { rewrite (outofmoney_zero_or_nan _ _ _ _ Hfee). f_equal.
    unfold L, ledger_columns. cbn [led_capital led_fee]. solve_len. }
  exists rep, d'. split_and!; [done| |].
  - rewrite Hvalid, Hout, fmap_replicate, foldl_fadd_zeros. done.
  - apply ledger_of_inv in Hled as (_ & _ & _ & _ & _ & _ & _ & ->).
    unfold L at 1, ledger_columns at 1. cbn [led_outofmoney]. do 2 f_equal.
    exact Hout.
Qed.

(** *** Exposure time *)

Lemma Qcdiv_lt_1 (a b : Qc) : (0 < b)%Qc -> (a < b)%Qc -> (a / b < 1)%Qc.
Proof.
  intros Hb Hab. unfold Qcdiv.
  replace 1%Qc with (b * / b)%Qc.
  - apply Qcmult_lt_compat_r; [by apply Qcinv_pos|done].
  - apply Qcmult_inv_r. intros ->. by apply Qclt_not_eq in Hb.
Qed.

Lemma hundred_pos : (0 < hundred)%Qc.
Proof. done. Qed.

Lemma flat_first (signal : list fnum) :
  signal <> [] ->
  (1 <= length (filter (fun x => feqb x fzero = true) (positions signal)))%nat.
Proof.
  intros Hne. pose proof (positions_0 signal Hne) as H0.
  destruct (positions signal) as [|x pos]; [done|]. simpl in H0. injection H0 as ->.
  rewrite filter_cons_True by done. simpl. lia.
Qed.

(** X8.  The reported exposure time is
    (days - flat bars) / days * 100, with [days] the whole days between the
    first and the last label and [flat bars] the number of bars whose
    position is 0.  Bar 0 is always flat, so the figure is strictly below
    100; and it counts bars against calendar days, so it falls below 0 as
    soon as the flat bars outnumber the days. *)
Theorem run_exposure_time (self : BacktestRun) (p : Params) (st st2 : State)
  (d d1 ds : DataFrame) (close : list fnum) (sigs : list (option Qc)) (t0 t1 : Z) :
  heap st !! r_data self = Some d ->
  frame_wf d ->
  get_num d "close" = Ok close ->
  (2 <= frame_len d)%nat ->
  heap st !! s_data st = Some ds ->
  frame_len ds = frame_len d ->
  set_change d = Ok d1 ->
  _sig (r_strategy self) (with_frame st (r_data self) d1) = (Ok sigs, st2) ->
  index d !! 0%nat = Some t0 ->
  list.last (index d) = Some t1 ->
  (ns_per_day <= t1 - t0)%Z ->
  exists rep d' pos e,
    let days := ((t1 - t0) / ns_per_day)%Z in
    let flat := length (filter (fun x => feqb x fzero = true) pos) in
    run self p st = (Ok rep, with_frame st2 (r_data self) d') /\
    get_num d' "pos" = Ok pos /\
    (1 <= days)%Z /\ (1 <= flat <= frame_len d)%nat /\
    rep_exposure rep = Fin e /\
    e = (Qc_of_Z (days - Z.of_nat flat) / Qc_of_Z days * hundred)%Qc /\
    (e < hundred)%Qc /\
    ((days < Z.of_nat flat)%Z -> (e < 0)%Qc).
Proof.
  intros Hl Hwf Hclose Hn Hds Hdsn Hch Hsig Ht0 Ht1 Hspan.
  assert (Hdays : (1 <= (t1 - t0) / ns_per_day)%Z).
  { apply Z.div_le_lower_bound; [done|]. lia. }
  destruct (run_report self p st st2 d d1 ds close sigs t0 t1) as
    (rep & d' & c2 & ch2 & s2 & Hrun & Hled & Hlen & (L1 & L2 & L3) & _ & _ & _ & _ & _
     & Hd & Hexp & _); try done; [lia|].
  apply ledger_of_inv in Hled as (_ & Hpos & _).
  unfold ledger_columns in Hpos, Hexp. cbn [led_pos] in Hpos, Hexp.
  rewrite Hd in Hexp.
  exists rep, d', (positions s2),
    (Qc_of_Z ((t1 - t0) / ns_per_day
              - Z.of_nat (length (filter (fun x => feqb x fzero = true) (positions s2))))
     / Qc_of_Z ((t1 - t0) / ns_per_day) * hundred)%Qc.
  cbv zeta.
  set (flat := length (filter (fun x => feqb x fzero = true) (positions s2))) in *.
  assert (Hflat : (1 <= flat)%nat).
  { apply flat_first. by apply (nonempty_of_length _ (frame_len d)); [|lia]. }
  assert (Hflat' : (flat <= frame_len d)%nat).
  { unfold flat. etrans; [apply length_filter|]. rewrite length_positions. lia. }
  clearbody flat.
  set (D := ((t1 - t0) / ns_per_day)%Z) in *. clearbody D.
  assert (HD : (0 < Qc_of_Z D)%Qc) by (apply (proj1 (Z2Qc_inj_lt 0 D)); lia).
  split_and!; try done.
  - replace hundred with (1 * hundred)%Qc at 2 by ring.
    apply Qcmult_lt_compat_r; [apply hundred_pos|].
    apply Qcdiv_lt_1; [done|]. apply (proj1 (Z2Qc_inj_lt _ _)). lia.
  - intros Hneg.
    replace 0%Qc with (0 * hundred)%Qc by ring.
    apply Qcmult_lt_compat_r; [apply hundred_pos|].
    unfold Qcdiv. replace 0%Qc with (0 * / Qc_of_Z D)%Qc by ring.
    apply Qcmult_lt_compat_r; [by apply Qcinv_pos|].
    apply (proj1 (Z2Qc_inj_lt _ 0)). lia.
Qed.

(** *** A strategy that never trades *)

Lemma sum_list_zero_on (f : nat -> Qc) (ks : list nat) :
  (forall k, k ∈ ks -> f k = 0%Qc) -> sum_list (f <$> ks) = 0%Qc.
Proof.
  induction ks as [|k ks IH]; intros H; csimpl; [done|].
  rewrite IH, H; [ring|left|]. intros j Hj. apply H. by right.
Qed.

Lemma position_at_idle (sigs : list (option Qc)) (t : nat) :
  (forall k a, sigs !! k = Some a -> a = None) ->
  (t <= length sigs)%nat ->
  position_at sigs t = 0%Qc.
Proof.
  intros Hnone Ht. unfold position_at. rewrite last_action_before_none; [done|].
  intros k Hk. destruct (lookup_lt_is_Some_2 sigs k) as [a Ha]; [lia|].
  by rewrite Ha, (Hnone k a Ha).
Qed.

Lemma netpnl_at_idle (closes : list Qc) (sigs : list (option Qc)) (p : Params) (k : nat) :
  (forall k a, sigs !! k = Some a -> a = None) ->
  (k < length sigs)%nat ->
  netpnl_at closes sigs p k = 0%Qc /\ fee_at closes sigs p k = 0%Qc.
Proof.
  intros Hnone Hk.
  assert (Hfee : fee_at closes sigs p k = 0%Qc).
  { unfold fee_at, position_change_at. destruct k as [|j].
    - destruct (closes !! 0%nat); simpl; ring.
    - rewrite !position_at_idle by (done || lia).
      replace (0 - 0)%Qc with 0%Qc by ring. rewrite abs_Qc_0.
      destruct (closes !! S j); simpl; ring. }
  split; [|done]. unfold netpnl_at, trading_pnl_at. rewrite Hfee.
  rewrite position_at_idle by (done || lia).
  destruct (price_change_at closes k); simpl; ring.
Qed.

Lemma filter_replicate {A} (P : A -> Prop) `{!forall x, Decision (P x)} (n : nat) (x : A) :
  P x -> filter P (replicate n x) = replicate n x.
Proof.
  intros Hx. induction n as [|n IH]; [done|].
  cbn [replicate]. rewrite filter_cons_True by done. by rewrite IH.
Qed.

Lemma last_replicate {A} (n : nat) (x : A) :
  (1 <= n)%nat -> list.last (replicate n x) = Some x.
Proof.
  intros Hn. rewrite last_lookup, length_replicate.
  apply lookup_replicate_2. lia.
Qed.

Lemma series_max_replicate (n : nat) (c : Qc) :
  (1 <= n)%nat -> series_max (replicate n (Fin c)) = Fin c.
Proof.
  intros Hn.
  destruct (series_max_fin (replicate n (Fin c))) as (i & m & Hi & -> & _).
  - destruct n; [lia|done].
  - intros j x Hx. apply lookup_replicate in Hx as [-> _]. by eexists.
  - apply lookup_replicate in Hi as [Hi _]. done.
Qed.

Lemma max_drawdown_monotone (cs : list Qc) :
  non_decreasing cs -> max_drawdown (Fin <$> cs) = Fin 0%Qc.
Proof.
  intros Hmono. apply max_drawdown_zero, series_max_zero_or_nan.
  intros j x Hx.
  assert (j < length cs)%nat as Hj.
  { apply lookup_lt_Some in Hx. by rewrite length_drawdown, length_fmap in Hx. }
  destruct (lookup_lt_is_Some_2 cs j Hj) as [c Hc].
  destruct (maximum_accumulate_fin cs j Hj) as (m & Hacc & (k & Hk & Hm) & Hub).
  assert (m = c) as ->.
  { apply Qcle_antisym; [by apply (Hmono k j)|by apply (Hub j)]. }
  rewrite (drawdown_lookup _ j (Fin c) (Fin c)) in Hx;
    [|by rewrite list_lookup_fmap, Hc|done].
  injection Hx as <-. cbn [fdiv].
  destruct (decide (c = 0%Qc)) as [->|Hc0].
  - by left.
  - right. unfold fsub, fone. cbn [fneg fadd]. f_equal. by field.
Qed.

Lemma return_percent_flat (c : Qc) :
  c <> 0%Qc -> return_percent (Fin c) (Fin c) = Fin 0%Qc.
Proof.
  intros Hc. unfold return_percent, fsub. cbn [fneg fadd fdiv].
  rewrite decide_False by done. cbn [fmul]. f_equal. by field.
Qed.

(** X9.  A strategy that never places an order, on finite prices and as
    long as no recorded indicator is displayed as close, change or signal:
    every position is 0, no fee is charged, the capital stays at the cash on every bar, and the report
    shows a valid run whose final and peak capital are the cash, with
    return 0 (for a cash other than 0) and drawdown 0.  Every bar being flat,
    the exposure time is (days - bars) / days * 100. *)
Theorem run_never_trading (self : BacktestRun) (p : Params) (st st2 : State)
  (d d1 ds : DataFrame) (closes : list Qc) (sigs : list (option Qc)) (t0 t1 : Z) :
  heap st !! r_data self = Some d ->
  frame_wf d ->
  get_num d "close" = Ok (Fin <$> closes) ->
  (2 <= frame_len d)%nat ->
  heap st !! s_data st = Some ds ->
  frame_len ds = frame_len d ->
  set_change d = Ok d1 ->
  _sig (r_strategy self) (with_frame st (r_data self) d1) = (Ok sigs, st2) ->
  index d !! 0%nat = Some t0 ->
  list.last (index d) = Some t1 ->
  ((t1 - t0) / ns_per_day <> 0)%Z ->
  reserved_free (s_indicators st2) ->
  (forall k a, sigs !! k = Some a -> a = None) ->
  exists rep d',
    run self p st = (Ok rep, with_frame st2 (r_data self) d') /\
    get_num d' "pos" = Ok (replicate (frame_len d) fzero) /\
    get_num d' "fee" = Ok (replicate (frame_len d) fzero) /\
    get_num d' "capital" = Ok (replicate (frame_len d) (Fin (cash p))) /\
    rep_valid rep = true /\
    rep_final rep = Fin (cash p) /\
    rep_peak rep = Fin (cash p) /\
    (cash p <> 0%Qc -> rep_return rep = Fin 0%Qc) /\
    rep_drawdown rep = Fin 0%Qc /\
    rep_exposure rep
    = Fin (Qc_of_Z (rep_days rep - Z.of_nat (frame_len d)) / Qc_of_Z (rep_days rep)
           * hundred)%Qc.
Proof.
  intros Hl Hwf Hclose Hn Hds Hdsn Hch Hsig Ht0 Ht1 Hdays Hfree Hnone.
  destruct (run_report self p st st2 d d1 ds (Fin <$> closes) sigs t0 t1) as
    (rep & d' & c2 & ch2 & s2 & Hrun & Hled & Hlen & _ & Hno & _ & Hvalid & _ & _ & _
     & Hexp & Hfinal & Hpeak & Hret & Hdd); try done.
  destruct (Hno Hfree) as (-> & -> & ->). clear Hno.
  pose proof (get_num_length _ _ _ Hwf Hclose) as Lclose. rewrite length_fmap in Lclose.
  assert (Hsame : length sigs = length closes) by lia.
  set (L := ledger_columns (Fin <$> closes) (diff (Fin <$> closes)) (signal_column sigs) p)
    in *.
  assert (Epos : led_pos L = replicate (frame_len d) fzero).
  { symmetry. apply replicate_as_Forall. unfold L, ledger_columns. cbn [led_pos].
    split; [by rewrite length_positions, length_signal_column|].
    apply list.Forall_forall. intros x Hx.
    apply list_elem_of_lookup_1 in Hx as [k Hk].
    assert (k < length sigs)%nat as Hlt.
    { apply lookup_lt_Some in Hk.
      by rewrite length_positions, length_signal_column in Hk. }
    rewrite positions_lookup in Hk by done. injection Hk as <-.
    by rewrite position_at_idle by (done || lia). }
  assert (Efee : led_fee L = replicate (frame_len d) fzero).
  { symmetry. apply replicate_as_Forall. unfold L, ledger_columns. cbn [led_fee].
    split; [solve_len|].
    apply list.Forall_forall. intros x Hx.
    apply list_elem_of_lookup_1 in Hx as [k Hk].
    assert (k < length closes)%nat as Hlt.
    { apply lookup_lt_Some in Hk. revert Hk. solve_len. }
    rewrite (fee_lookup closes sigs p Hsame k Hlt) in Hk. injection Hk as <-.
    destruct (netpnl_at_idle closes sigs p k Hnone) as [_ ->]; [lia|done]. }
  assert (Ecap : led_capital L = replicate (frame_len d) (Fin (cash p))).
  { symmetry. apply replicate_as_Forall. split.
    { unfold L, ledger_columns. cbn [led_capital]. unfold capital_of, cumsum.
      rewrite length_fmap, length_cumsum_from. solve_len. }
    apply list.Forall_forall. intros x Hx.
    apply list_elem_of_lookup_1 in Hx as [k Hk].
    assert (k < length closes)%nat as Hlt.
    { apply lookup_lt_Some in Hk. unfold L, ledger_columns in Hk. cbn [led_capital] in Hk.
      unfold capital_of, cumsum in Hk.
      rewrite length_fmap, length_cumsum_from in Hk. revert Hk. solve_len. }
    unfold L in Hk. rewrite (capital_lookup closes sigs p Hsame k Hlt) in Hk.
    assert (x = Fin (cash p + sum_list (netpnl_at closes sigs p <$> seq 0 (S k)))%Qc)
      as -> by congruence.
    f_equal. rewrite sum_list_zero_on; [ring|].
    intros j Hj. apply elem_of_seq in Hj.
    apply netpnl_at_idle; [done|lia]. }
  pose proof (ledger_of_inv _ _ Hled) as (_ & Hpos & _ & Hfee & _ & _ & Hcap & _).
  rewrite Ecap in Hfinal, Hpeak, Hdd, Hcap.
  rewrite last_replicate in Hfinal by lia. injection Hfinal as Hfinal.
  exists rep, d'. split_and!.
  - done.
  - by rewrite Hpos, Epos.
  - by rewrite Hfee, Efee.
  - done.
  - rewrite Hvalid. apply valid_of_free. intros k f Hk.
    rewrite Efee in Hk. by apply lookup_replicate in Hk as [-> _].
  - done.
  - rewrite Hpeak. apply series_max_replicate. lia.
  - intros Hc. rewrite Hret, <- Hfinal. by apply return_percent_flat.
  - rewrite Hdd, <- fmap_replicate. apply max_drawdown_monotone.
    intros i j a b _ Hi Hj.
    apply lookup_replicate in Hi as [-> _]. apply lookup_replicate in Hj as [-> _].
    apply Qcle_refl.
  - rewrite Hexp, Epos. rewrite filter_replicate by done.
    by rewrite length_replicate.
Qed.

(** *** Final and peak capital *)

(** X10.  On finite prices, as long as no recorded indicator is displayed
    as close, change or signal, and in exact arithmetic (no overflow), the
    capital column is finite on every bar; the
    reported peak is the largest capital of the run, attained on some bar,
    and it is neither below the final capital nor below the cash the run
    started with.  The reported return is computed from the final capital
    and the cash. *)
Theorem run_capital_peak (self : BacktestRun) (p : Params) (st st2 : State)
  (d d1 ds : DataFrame) (closes : list Qc) (sigs : list (option Qc)) (t0 t1 : Z) :
  heap st !! r_data self = Some d ->
  frame_wf d ->
  get_num d "close" = Ok (Fin <$> closes) ->
  (2 <= frame_len d)%nat ->
  heap st !! s_data st = Some ds ->
  frame_len ds = frame_len d ->
  set_change d = Ok d1 ->
  _sig (r_strategy self) (with_frame st (r_data self) d1) = (Ok sigs, st2) ->
  index d !! 0%nat = Some t0 ->
  list.last (index d) = Some t1 ->
  ((t1 - t0) / ns_per_day <> 0)%Z ->
  reserved_free (s_indicators st2) ->
  exists rep d' capital f m,
    run self p st = (Ok rep, with_frame st2 (r_data self) d') /\
    get_num d' "capital" = Ok capital /\
    rep_final rep = Fin f /\
    rep_peak rep = Fin m /\
    list.last capital = Some (Fin f) /\
    (exists t, capital !! t = Some (Fin m)) /\
    (forall t x, capital !! t = Some x -> exists c, x = Fin c /\ (c <= m)%Qc) /\
    (f <= m)%Qc /\ (cash p <= m)%Qc /\
    rep_return rep = return_percent (Fin f) (Fin (cash p)).
Proof.
  intros Hl Hwf Hclose Hn Hds Hdsn Hch Hsig Ht0 Ht1 Hdays Hfree.
  destruct (run_report self p st st2 d d1 ds (Fin <$> closes) sigs t0 t1) as
    (rep & d' & c2 & ch2 & s2 & Hrun & Hled & Hlen & _ & Hno & _ & _ & _ & _ & _
     & _ & Hfinal & Hpeak & Hret & _); try done.
  destruct (Hno Hfree) as (-> & -> & ->). clear Hno.
  pose proof (get_num_length _ _ _ Hwf Hclose) as Lclose. rewrite length_fmap in Lclose.
  assert (Hsame : length sigs = length closes) by lia.
  set (L := ledger_columns (Fin <$> closes) (diff (Fin <$> closes)) (signal_column sigs) p)
    in *.
  assert (Lcap : length (led_capital L) = length closes).
  { unfold L, ledger_columns. cbn [led_capital]. unfold capital_of, cumsum.
    rewrite length_fmap, length_cumsum_from. solve_len. }
  assert (Hfin : forall j x, led_capital L !! j = Some x -> exists q, x = Fin q).
  { intros j x Hx.
    assert (j < length closes)%nat as Hj by (apply lookup_lt_Some in Hx; lia).
    unfold L in Hx. rewrite (capital_lookup closes sigs p Hsame j Hj) in Hx.
    injection Hx as <-. by eexists. }
  destruct (series_max_fin (led_capital L)) as (i & m & Hi & Hmax & Hub); [|done|].
  { intros E. rewrite E in Lcap. simpl in Lcap. lia. }
  assert (Hlast : led_capital L !! pred (length (led_capital L)) = Some (rep_final rep))
    by (by rewrite <- last_lookup).
  destruct (Hfin _ _ Hlast) as [f Hf].
  pose proof (ledger_of_inv _ _ Hled) as (_ & _ & _ & _ & _ & _ & Hcap & _).
  exists rep, d', (led_capital L), f, m. split_and!; try done.
  - congruence.
  - by rewrite Hfinal, Hf.
  - by exists i.
  - intros t x Hx. destruct (Hfin t x Hx) as [c ->]. exists c. split; [done|].
    by apply (Hub t).
  - apply (Hub (pred (length (led_capital L)))). by rewrite <- Hf.
  - apply (Hub 0%nat). unfold L.
    rewrite (capital_0 (Fin <$> closes) (diff (Fin <$> closes)) (signal_column sigs) p);
      [done| | |].
    + apply (nonempty_of_length _ (length closes)); [by rewrite length_fmap|lia].
    + apply (nonempty_of_length _ (length closes)); [by rewrite length_diff, length_fmap|lia].
    + apply (nonempty_of_length _ (length closes)); [by rewrite length_signal_column|lia].
  - by rewrite Hret, Hf.
Qed.

Lemma broker_failure_leaves_change_witness :
  let T := table_of_closes [10; 11; 12; 11; 9]%Z in
  let s := mkStrategy "Failing" [] (fun _ _ => Raise IndexError) in
  let p := mkParams (Qc_of_Z 1000) 1%Qc 0%Qc 1%Qc in
  let T1 := mkFrame (index T)
              (assoc_set "change" (NumCol (diff (qz <$> [10; 11; 12; 11; 9]%Z)))
                         (columns T)) in
  let st2 := (_sig s (with_frame (fresh_state T) 0 T1)).2 in
  _broker (mkRun 0 s) p (fresh_state T) = (Raise IndexError, st2) /\
  run (mkRun 0 s) p (fresh_state T) = (Raise IndexError, st2) /\
  heap st2 !! 0%nat = Some T1.
Proof.
  apply (broker_failure_leaves_change
           (mkRun 0 (mkStrategy "Failing" [] (fun _ _ => Raise IndexError)))
           (mkParams (Qc_of_Z 1000) 1%Qc 0%Qc 1%Qc)
           (fresh_state (table_of_closes [10; 11; 12; 11; 9]%Z))
           (_sig (mkStrategy "Failing" [] (fun _ _ => Raise IndexError))
              (with_frame (fresh_state (table_of_closes [10; 11; 12; 11; 9]%Z)) 0
                 (mkFrame (index (table_of_closes [10; 11; 12; 11; 9]%Z))
                    (assoc_set "change" (NumCol (diff (qz <$> [10; 11; 12; 11; 9]%Z)))
                       (columns (table_of_closes [10; 11; 12; 11; 9]%Z)))))).2
           (table_of_closes [10; 11; 12; 11; 9]%Z)
           (qz <$> [10; 11; 12; 11; 9]%Z)
           IndexError).
  - reflexivity.
  - apply table_of_closes_wf.
  - reflexivity.
  - vm_compute. reflexivity.
Defined.

Lemma broker_mirrored_orders_witness :
  let st := fresh_state (table_of_closes [100; 100; 105; 110]%Z) in
  let closes := Qc_of_Z <$> [100; 100; 105; 110]%Z in
  let sigs := [None; Some long; Some long; Some short] in
  let p := mkParams (Qc_of_Z 1000) (Qc_of_Z 10) (Qc_of_Z 2) 1%Qc in
  exists d1 d2 capital capital',
    _broker_with (ret sigs) (mkRun 0 (long_at 2)) p st = (Ok tt, with_frame st 0 d1) /\
    _broker_with (ret (mirror sigs)) (mkRun 0 (long_at 2)) p st
    = (Ok tt, with_frame st 0 d2) /\
    get_num d1 "capital" = Ok capital /\
    get_num d2 "capital" = Ok capital' /\
    (forall t, (t < 4)%nat ->
       let G := sum_list (trading_pnl_at closes sigs (size p) <$> seq 0 (S t)) in
       let F := sum_list (fee_at closes sigs p <$> seq 0 (S t)) in
       capital !! t = Some (Fin (cash p + G - F)%Qc) /\
       capital' !! t = Some (Fin (cash p - G - F)%Qc)) /\
    (comm p = 0%Qc ->
     forall t c, capital !! t = Some (Fin c) ->
                 capital' !! t = Some (Fin (cash p - (c - cash p))%Qc)).
Proof.
  apply (broker_mirrored_orders (mkRun 0 (long_at 2))
           (mkParams (Qc_of_Z 1000) (Qc_of_Z 10) (Qc_of_Z 2) 1%Qc)
           (fresh_state (table_of_closes [100; 100; 105; 110]%Z))
           (table_of_closes [100; 100; 105; 110]%Z)
           (Qc_of_Z <$> [100; 100; 105; 110]%Z)
           [None; Some long; Some long; Some short]).
  - reflexivity.
  - apply table_of_closes_wf.
  - reflexivity.
  - reflexivity.
  - apply reserved_free_nil.
Defined.

Lemma run_zero_commission_valid_witness :
  let T := table_of_closes [10; 11; 12; 11; 9]%Z in
  let self := mkRun 0 (long_at 2) in
  let p := mkParams 1%Qc (Qc_of_Z 100) 0%Qc 1%Qc in
  let d1 := mkFrame (index T)
              (assoc_set "change" (NumCol (diff (qz <$> [10; 11; 12; 11; 9]%Z)))
                         (columns T)) in
  let st2 := (_sig (long_at 2) (with_frame (fresh_state T) 0 d1)).2 in
  exists rep d',
    run self p (fresh_state T) = (Ok rep, with_frame st2 0 d') /\
    rep_valid rep = true /\
    assoc_get "outofmoney" (columns d') = Some (BoolCol (replicate (frame_len T) false)).
Proof.
  apply (run_zero_commission_valid (mkRun 0 (long_at 2))
           (mkParams 1%Qc (Qc_of_Z 100) 0%Qc 1%Qc)
           (fresh_state (table_of_closes [10; 11; 12; 11; 9]%Z))
           (_sig (long_at 2)
              (with_frame (fresh_state (table_of_closes [10; 11; 12; 11; 9]%Z)) 0
                 (mkFrame (index (table_of_closes [10; 11; 12; 11; 9]%Z))
                    (assoc_set "change" (NumCol (diff (qz <$> [10; 11; 12; 11; 9]%Z)))
                       (columns (table_of_closes [10; 11; 12; 11; 9]%Z)))))).2
           (table_of_closes [10; 11; 12; 11; 9]%Z)
           (mkFrame (index (table_of_closes [10; 11; 12; 11; 9]%Z))
              (assoc_set "change" (NumCol (diff (qz <$> [10; 11; 12; 11; 9]%Z)))
                 (columns (table_of_closes [10; 11; 12; 11; 9]%Z))))
           (table_of_closes [10; 11; 12; 11; 9]%Z)
           (qz <$> [10; 11; 12; 11; 9]%Z)
           [None; None; Some long; None; None]
           0%Z (4 * ns_per_day)%Z).
  - reflexivity.
  - apply table_of_closes_wf.
  - reflexivity.
  - vm_compute. lia.
  - reflexivity.
  - reflexivity.
  - vm_compute. reflexivity.
  - vm_compute. reflexivity.
  - reflexivity.
  - reflexivity.
  - vm_compute. discriminate.
  - reflexivity.
Defined.

Lemma run_exposure_time_witness :
  let T := table_of_closes [10; 11; 12; 11; 9]%Z in
  let self := mkRun 0 (long_at 2) in
  let p := mkParams (Qc_of_Z 1000) 1%Qc 0%Qc 1%Qc in
  let d1 := mkFrame (index T)
              (assoc_set "change" (NumCol (diff (qz <$> [10; 11; 12; 11; 9]%Z)))
                         (columns T)) in
  let st2 := (_sig (long_at 2) (with_frame (fresh_state T) 0 d1)).2 in
  exists rep d' pos e,
    let days := ((4 * ns_per_day - 0) / ns_per_day)%Z in
    let flat := length (filter (fun x => feqb x fzero = true) pos) in
    run self p (fresh_state T) = (Ok rep, with_frame st2 0 d') /\
    get_num d' "pos" = Ok pos /\
    (1 <= days)%Z /\ (1 <= flat <= frame_len T)%nat /\
    rep_exposure rep = Fin e /\
    e = (Qc_of_Z (days - Z.of_nat flat) / Qc_of_Z days * hundred)%Qc /\
    (e < hundred)%Qc /\
    ((days < Z.of_nat flat)%Z -> (e < 0)%Qc).
Proof.
  apply (run_exposure_time (mkRun 0 (long_at 2))
           (mkParams (Qc_of_Z 1000) 1%Qc 0%Qc 1%Qc)
           (fresh_state (table_of_closes [10; 11; 12; 11; 9]%Z))
           (_sig (long_at 2)
              (with_frame (fresh_state (table_of_closes [10; 11; 12; 11; 9]%Z)) 0
                 (mkFrame (index (table_of_closes [10; 11; 12; 11; 9]%Z))
                    (assoc_set "change" (NumCol (diff (qz <$> [10; 11; 12; 11; 9]%Z)))
                       (columns (table_of_closes [10; 11; 12; 11; 9]%Z)))))).2
           (table_of_closes [10; 11; 12; 11; 9]%Z)
           (mkFrame (index (table_of_closes [10; 11; 12; 11; 9]%Z))
              (assoc_set "change" (NumCol (diff (qz <$> [10; 11; 12; 11; 9]%Z)))
                 (columns (table_of_closes [10; 11; 12; 11; 9]%Z))))
           (table_of_closes [10; 11; 12; 11; 9]%Z)
           (qz <$> [10; 11; 12; 11; 9]%Z)
           [None; None; Some long; None; None]
           0%Z (4 * ns_per_day)%Z).
  - reflexivity.
  - apply table_of_closes_wf.
  - reflexivity.
  - vm_compute. lia.
  - reflexivity.
  - reflexivity.
  - vm_compute. reflexivity.
  - vm_compute. reflexivity.
  - reflexivity.
  - reflexivity.
  - vm_compute. discriminate.
Defined.

Lemma run_never_trading_witness :
  let T := table_of_closes [10; 11; 12; 11; 9]%Z in
  let self := mkRun 0 (long_at 7) in
  let p := mkParams (Qc_of_Z 1000) 1%Qc (Qc_of_Z 2) 1%Qc in
  let d1 := mkFrame (index T)
              (assoc_set "change" (NumCol (diff (qz <$> [10; 11; 12; 11; 9]%Z)))
                         (columns T)) in
  let st2 := (_sig (long_at 7) (with_frame (fresh_state T) 0 d1)).2 in
  exists rep d',
    run self p (fresh_state T) = (Ok rep, with_frame st2 0 d') /\
    get_num d' "pos" = Ok (replicate (frame_len T) fzero) /\
    get_num d' "fee" = Ok (replicate (frame_len T) fzero) /\
    get_num d' "capital" = Ok (replicate (frame_len T) (Fin (cash p))) /\
    rep_valid rep = true /\
    rep_final rep = Fin (cash p) /\
    rep_peak rep = Fin (cash p) /\
    (cash p <> 0%Qc -> rep_return rep = Fin 0%Qc) /\
    rep_drawdown rep = Fin 0%Qc /\
    rep_exposure rep
    = Fin (Qc_of_Z (rep_days rep - Z.of_nat (frame_len T)) / Qc_of_Z (rep_days rep)
           * hundred)%Qc.
Proof.
  apply (run_never_trading (mkRun 0 (long_at 7))
           (mkParams (Qc_of_Z 1000) 1%Qc (Qc_of_Z 2) 1%Qc)
           (fresh_state (table_of_closes [10; 11; 12; 11; 9]%Z))
           (_sig (long_at 7)
              (with_frame (fresh_state (table_of_closes [10; 11; 12; 11; 9]%Z)) 0
                 (mkFrame (index (table_of_closes [10; 11; 12; 11; 9]%Z))
                    (assoc_set "change" (NumCol (diff (qz <$> [10; 11; 12; 11; 9]%Z)))
                       (columns (table_of_closes [10; 11; 12; 11; 9]%Z)))))).2
           (table_of_closes [10; 11; 12; 11; 9]%Z)
           (mkFrame (index (table_of_closes [10; 11; 12; 11; 9]%Z))
              (assoc_set "change" (NumCol (diff (qz <$> [10; 11; 12; 11; 9]%Z)))
                 (columns (table_of_closes [10; 11; 12; 11; 9]%Z))))
           (table_of_closes [10; 11; 12; 11; 9]%Z)
           (Qc_of_Z <$> [10; 11; 12; 11; 9]%Z)
           [None; None; None; None; None]
           0%Z (4 * ns_per_day)%Z).
  - reflexivity.
  - apply table_of_closes_wf.
  - reflexivity.
  - vm_compute. lia.
  - reflexivity.
  - reflexivity.
  - vm_compute. reflexivity.
  - vm_compute. reflexivity.
  - reflexivity.
  - reflexivity.
  - vm_compute. discriminate.
  - vm_compute s_indicators. apply reserved_free_nil.
  - intros k a H. destruct k as [|[|[|[|[|k]]]]]; simpl in H; by inversion H.
Defined.

Lemma run_capital_peak_witness :
  let T := table_of_closes [10; 11; 12; 11; 9]%Z in
  let self := mkRun 0 (long_at 2) in
  let p := mkParams (Qc_of_Z 1000) 1%Qc (Qc_of_Z 2) 1%Qc in
  let d1 := mkFrame (index T)
              (assoc_set "change" (NumCol (diff (qz <$> [10; 11; 12; 11; 9]%Z)))
                         (columns T)) in
  let st2 := (_sig (long_at 2) (with_frame (fresh_state T) 0 d1)).2 in
  exists rep d' capital f m,
    run self p (fresh_state T) = (Ok rep, with_frame st2 0 d') /\
    get_num d' "capital" = Ok capital /\
    rep_final rep = Fin f /\
    rep_peak rep = Fin m /\
    list.last capital = Some (Fin f) /\
    (exists t, capital !! t = Some (Fin m)) /\
    (forall t x, capital !! t = Some x -> exists c, x = Fin c /\ (c <= m)%Qc) /\
    (f <= m)%Qc /\ (cash p <= m)%Qc /\
    rep_return rep = return_percent (Fin f) (Fin (cash p)).
Proof.
  apply (run_capital_peak (mkRun 0 (long_at 2))
           (mkParams (Qc_of_Z 1000) 1%Qc (Qc_of_Z 2) 1%Qc)
           (fresh_state (table_of_closes [10; 11; 12; 11; 9]%Z))
           (_sig (long_at 2)
              (with_frame (fresh_state (table_of_closes [10; 11; 12; 11; 9]%Z)) 0
                 (mkFrame (index (table_of_closes [10; 11; 12; 11; 9]%Z))
                    (assoc_set "change" (NumCol (diff (qz <$> [10; 11; 12; 11; 9]%Z)))
                       (columns (table_of_closes [10; 11; 12; 11; 9]%Z)))))).2
           (table_of_closes [10; 11; 12; 11; 9]%Z)
           (mkFrame (index (table_of_closes [10; 11; 12; 11; 9]%Z))
              (assoc_set "change" (NumCol (diff (qz <$> [10; 11; 12; 11; 9]%Z)))
                 (columns (table_of_closes [10; 11; 12; 11; 9]%Z))))
           (table_of_closes [10; 11; 12; 11; 9]%Z)
           (Qc_of_Z <$> [10; 11; 12; 11; 9]%Z)
           [None; None; Some long; None; None]
           0%Z (4 * ns_per_day)%Z).
  - reflexivity.
  - apply table_of_closes_wf.
  - reflexivity.
  - vm_compute. lia.
  - reflexivity.
  - reflexivity.
  - vm_compute. reflexivity.
  - vm_compute. reflexivity.
  - reflexivity.
  - reflexivity.
  - vm_compute. discriminate.
  - vm_compute s_indicators. apply reserved_free_nil.
Defined.

(** ** What a declaration does to the strategy *)

Lemma frame_of_array_inv (value : ndarray) (idx : list Z) (name : string) (f : DataFrame) :
  frame_of_array value idx name = Ok f ->
  f = mkFrame idx [(name, NumCol (flat value))] /\
  (shape value = [length idx] \/ shape value = [length idx; 1%nat]).
Proof.
  unfold frame_of_array.
  destruct (shape value) as [|x [|y [|z sh]]]; try discriminate.
  - destruct (decide (x = length idx)) as [->|]; [|discriminate].
    intros [= <-]. split; [done|by left].
  - destruct y as [|[|y]]; try discriminate.
    destruct (decide (x = length idx)) as [->|]; [|discriminate].
    intros [= <-]. split; [done|by right].
  - destruct y as [|[|y]]; discriminate.
Qed.

(** X11.  The only thing [ind] ever does to the strategy, whatever the
    indicator function returned: either nothing at all, which is the case
    whenever it raises, or, once per call, it appends one frame to
    [_indicators], holding the returned values in a single column under the
    display name over the visible index, and rebinds [self._data] to a new
    object that is the visible table with that column added.  The second
    case needs a value as long as the whole table, and on a table of two or
    more bars a one-dimensional one. *)
Theorem ind_effect (name : string) (out : outcome) (st st' : State)
  (r : result ndarray) (d d0 : DataFrame) :
  heap st !! s_data st = Some d ->
  heap st !! s_data0 st = Some d0 ->
  frame_wf d ->
  ind name out st = (r, st') ->
  (forall e, r = Raise e -> st' = st) /\
  (st' = st \/
   exists v,
     let f := mkFrame (index d) [(name, NumCol (flat v))] in
     r = Ok v /\
     array_len v = Ok (frame_len d0) /\
     frame_len d0 = frame_len d /\
     (shape v = [frame_len d] \/ (frame_len d = 1%nat /\ shape v = [1%nat; 1%nat])) /\
     st' = mkState (heap st ++ [concat_columns d f]) (length (heap st)) (s_data0 st)
                   (s_indicators st ++ [f])).
Proof.
  intros Hd Hd0 Hwf H. unfold ind in H.
  destruct out as [v|cause].
  2:{ injection H as <- <-. split; [done|by left]. }
  destruct (as_array v) as [a|].
  2:{ rewrite (bind_data _ _ d) in H by done.
      destruct (get_num d "close") as [close|e] eqn:E.
      - rewrite (bind_lift_ok _ close) in H by done. injection H as <- <-.
        split; [done|by left].
      - rewrite (bind_lift_raise _ e) in H by done. injection H as <- <-.
        split; [done|by left]. }
  destruct (flip_back a) as [value|e] eqn:E1.
  2:{ rewrite (bind_lift_raise _ e) in H by done. injection H as <- <-.
      split; [done|by left]. }
  rewrite (bind_lift_ok _ value) in H by done.
  destruct (index_neg (shape value) 1) as [last|e] eqn:E2.
  2:{ rewrite (bind_lift_raise _ e) in H by done. injection H as <- <-.
      split; [done|by left]. }
  rewrite (bind_lift_ok _ last) in H by done.
  rewrite (bind_data _ _ d) in H by done.
  destruct (get_num d "close") as [close|e] eqn:E3.
  2:{ rewrite (bind_lift_raise _ e) in H by done. injection H as <- <-.
      split; [done|by left]. }
  rewrite (bind_lift_ok _ close) in H by done.
  destruct (decide (last = length close)) as [Elast|].
  2:{ injection H as <- <-. split; [done|by left]. }
  destruct (array_len value) as [n|e] eqn:E4.
  2:{ rewrite (bind_lift_raise _ e) in H by done. injection H as <- <-.
      split; [done|by left]. }
  rewrite (bind_lift_ok _ n) in H by done.
  rewrite bind_get_s_data0, (bind_deref _ _ _ d0) in H by done.
  destruct (decide (n = frame_len d0)) as [->|].
  2:{ injection H as <- <-. split; [done|by left]. }
  rewrite (bind_data _ _ d) in H by done.
  destruct (frame_of_array value (index d) name) as [f|e] eqn:E5.
  2:{ rewrite (bind_lift_raise _ e) in H by done. injection H as <- <-.
      split; [done|by left]. }
  rewrite (bind_lift_ok _ f) in H by done.
  rewrite bind_append_indicator in H.
  rewrite (bind_data _ _ d) in H by done.
  rewrite (bind_lift_ok _ f) in H by done.
  rewrite bind_alloc, bind_set_s_data in H. injection H as <- <-.
  split; [discriminate|]. right.
  pose proof (frame_of_array_Ok _ _ _ _ _ E5 E4) as En.
  apply frame_of_array_inv in E5 as [-> Hshape].
  exists value. cbv zeta. split_and!; try done.
  destruct Hshape as [Hs|Hs]; [by left|right].
  rewrite Hs in E2. unfold index_neg in E2. simpl in E2. injection E2 as <-.
  pose proof (get_num_length _ _ _ Hwf E3) as Lclose.
  assert (frame_len d = 1%nat) as E by congruence.
  split; [done|]. rewrite Hs. unfold frame_len in E. by rewrite E.
Qed.

Lemma ind_effect_witness :
  let T := table_of_closes [100; 100; 105; 110]%Z in
  let st := fresh_state T in
  let a := mkArray [4%nat] [qz 1; qz 2; qz 3; qz 4] in
  let out := ind "SMA(c,2)" (Returned (RetArray a)) st in
  (forall e, out.1 = Raise e -> out.2 = st) /\
  (out.2 = st \/
   exists v,
     let f := mkFrame (index T) [("SMA(c,2)", NumCol (flat v))] in
     out.1 = Ok v /\
     array_len v = Ok (frame_len T) /\
     frame_len T = frame_len T /\
     (shape v = [frame_len T] \/ (frame_len T = 1%nat /\ shape v = [1%nat; 1%nat])) /\
     out.2 = mkState (heap st ++ [concat_columns T f]) (length (heap st)) (s_data0 st)
                     (s_indicators st ++ [f])).
Proof.
  apply (ind_effect "SMA(c,2)"
           (Returned (RetArray (mkArray [4%nat] [qz 1; qz 2; qz 3; qz 4])))
           (fresh_state (table_of_closes [100; 100; 105; 110]%Z))
           (ind "SMA(c,2)" (Returned (RetArray (mkArray [4%nat] [qz 1; qz 2; qz 3; qz 4])))
                (fresh_state (table_of_closes [100; 100; 105; 110]%Z))).2
           (ind "SMA(c,2)" (Returned (RetArray (mkArray [4%nat] [qz 1; qz 2; qz 3; qz 4])))
                (fresh_state (table_of_closes [100; 100; 105; 110]%Z))).1
           (table_of_closes [100; 100; 105; 110]%Z)
           (table_of_closes [100; 100; 105; 110]%Z)).
  - reflexivity.
  - reflexivity.
  - apply table_of_closes_wf.
  - by destruct (ind _ _ _).
Defined.

(** *** Values of more than one dimension *)

Lemma argmax_second (k n : nat) : (k < n)%nat -> argmax [k; n] = Ok 1%nat.
Proof. intros H. unfold argmax, argmax_from. by rewrite decide_True. Qed.

Lemma argmax_first (n k : nat) : (k <= n)%nat -> argmax [n; k] = Ok 0%nat.
Proof. intros H. unfold argmax, argmax_from. by rewrite decide_False by lia. Qed.

Lemma shape_transpose (a : ndarray) : shape (transpose a) = reverse (shape a).
Proof. done. Qed.

(** X12.  An indicator given as a DataFrame of [k] columns, or as a
    two-dimensional array with one row per bar and [k] columns, passes the
    shape check whenever [k] is smaller than the number of bars, and is
    handed back as a [k]-by-bars array; but it is never recorded: nothing is
    appended to [_indicators] and no column is added, on the whole table
    included, so such an indicator never reaches the run's table. *)
Theorem ind_two_dimensional_unrecorded (name : string) (values : ndarray)
  (st : State) (d d0 : DataFrame) (close : list fnum) (k : nat) :
  heap st !! s_data st = Some d ->
  heap st !! s_data0 st = Some d0 ->
  frame_wf d ->
  get_num d "close" = Ok close ->
  shape values = [frame_len d; k] ->
  (k < frame_len d)%nat ->
  (frame_len d <= frame_len d0)%nat ->
  ind name (Returned (RetFrame values)) st = (Ok (transpose values), st) /\
  ind name (Returned (RetArray values)) st = (Ok (transpose values), st) /\
  shape (transpose values) = [k; frame_len d].
Proof.
  intros Hd Hd0 Hwf Hclose Hshape Hk Hle.
  pose proof (get_num_length _ _ _ Hwf Hclose) as Lclose.
  assert (Hs : shape (transpose values) = [k; frame_len d]).
  { by rewrite shape_transpose, Hshape. }
  assert (Hrun : forall a, flip_back a = Ok (transpose values) ->
            (let* value := lift (flip_back a) in
             let* last := lift (index_neg (shape value) 1) in
             let* d := data in
             let* close := lift (get_num d "close") in
             if decide (last = length close) then
               let* n := lift (array_len value) in
               let* l0 := get_s_data0 in
               let* d0 := deref l0 in
               if decide (n = frame_len d0) then
                 let* d := data in
                 let* f := lift (frame_of_array value (index d) name) in
                 append_indicator f ;;
                 let* d := data in
                 let* f' := lift (frame_of_array value (index d) name) in
                 let* l := alloc (concat_columns d f') in
                 set_s_data l ;;
                 ret value
               else ret value
             else raise (IndicatorShape [length close] name (Some (shape value)))) st
            = (Ok (transpose values), st)).
  { intros a Ha.
    rewrite (bind_lift_ok _ (transpose values)) by done.
    rewrite (bind_lift_ok _ (frame_len d)) by (by rewrite Hs).
    rewrite (bind_data _ _ d) by done.
    rewrite (bind_lift_ok _ close) by done.
    rewrite decide_True by done.
    rewrite (bind_lift_ok _ k) by (unfold array_len; by rewrite Hs).
    rewrite bind_get_s_data0, (bind_deref _ _ _ d0) by done.
    rewrite decide_False by lia. done. }
  split_and!; [| |done].
  - unfold ind. cbn [as_array]. apply Hrun.
    unfold flip_back. rewrite Hs, argmax_second by done. done.
  - unfold ind. cbn [as_array]. apply Hrun.
    unfold flip_back. rewrite Hshape, argmax_first by lia. done.
Qed.

Lemma ind_two_dimensional_unrecorded_witness :
  let T := table_of_closes [100; 100; 105; 110]%Z in
  let st := fresh_state T in
  let values := mkArray [4%nat; 1%nat] [qz 1; qz 2; qz 3; qz 4] in
  ind "macd(c)" (Returned (RetFrame values)) st = (Ok (transpose values), st) /\
  ind "macd(c)" (Returned (RetArray values)) st = (Ok (transpose values), st) /\
  shape (transpose values) = [1%nat; frame_len T].
Proof.
  apply (ind_two_dimensional_unrecorded "macd(c)"
           (mkArray [4%nat; 1%nat] [qz 1; qz 2; qz 3; qz 4])
           (fresh_state (table_of_closes [100; 100; 105; 110]%Z))
           (table_of_closes [100; 100; 105; 110]%Z)
           (table_of_closes [100; 100; 105; 110]%Z)
           (qz <$> [100; 100; 105; 110]%Z) 1).
  - reflexivity.
  - reflexivity.
  - apply table_of_closes_wf.
  - reflexivity.
  - reflexivity.
  - vm_compute. lia.
  - vm_compute. lia.
Defined.

(** ** The registry after a signal loop *)

Lemma ind_records_full (name : string) (xs : list fnum) (st : State) (d d0 : DataFrame) :
  heap st !! s_data st = Some d ->
  heap st !! s_data0 st = Some d0 ->
  close_ok d ->
  frame_len d = frame_len d0 ->
  let v := transpose (mkArray [frame_len d] xs) in
  let f := mkFrame (index d) [(name, NumCol (flat v))] in
  ind name (Returned (RetArray (mkArray [frame_len d] xs))) st
  = (Ok v, mkState (heap st ++ [concat_columns d f]) (length (heap st)) (s_data0 st)
                   (s_indicators st ++ [f])).
Proof.
  intros Hd Hd0 (close & Hc & L) E. cbv zeta.
  unfold ind. cbn [as_array].
  rewrite (bind_lift_ok _ (transpose (mkArray [frame_len d] xs))) by reflexivity.
  rewrite (bind_lift_ok _ (frame_len d)) by reflexivity.
  rewrite (bind_data _ _ d) by done.
  rewrite (bind_lift_ok _ close) by done.
  rewrite decide_True by done.
  rewrite (bind_lift_ok _ (frame_len d)) by reflexivity.
  rewrite bind_get_s_data0, (bind_deref _ _ _ d0) by done.
  rewrite decide_True by done.
  rewrite (bind_data _ _ d) by done.
  set (value := transpose (mkArray [frame_len d] xs)).
  assert (Hf : frame_of_array value (index d) name
               = Ok (mkFrame (index d) [(name, NumCol (flat value))])).
  { unfold frame_of_array. cbn [shape value transpose reverse rev_append].
    by rewrite decide_True. }
  rewrite (bind_lift_ok _ _ _ _ Hf).
  rewrite bind_append_indicator.
  rewrite (bind_data _ _ d) by done.
  rewrite (bind_lift_ok _ _ _ _ Hf).
  by rewrite bind_alloc, bind_set_s_data.
Qed.

Lemma declare_all_records (s : Strategy) (calls : list IndicatorCall)
  (declared : list ndarray) (st : State) (d d0 : DataFrame) :
  well_behaved s ->
  (forall c, c ∈ calls -> c ∈ indicator_calls s) ->
  heap st !! s_data st = Some d ->
  heap st !! s_data0 st = Some d0 ->
  close_ok d ->
  frame_len d = frame_len d0 ->
  exists vs st' d' new,
    declare_all calls declared st = (Ok vs, st') /\
    grows st st' /\
    (s_data st <= s_data st')%nat /\
    s_indicators st' = s_indicators st ++ new /\
    (fun f => (columns f).*1) <$> new = (fun c => [ic_name c]) <$> calls /\
    Forall (fun f => index f = index d) new /\
    heap st' !! s_data st' = Some d' /\
    index d' = index d /\ close_ok d' /\
    (columns d').*1 = (columns d).*1 ++ (ic_name <$> calls).
Proof.
  intros [Hwb _]. revert declared st d.
  induction calls as [|c calls IH]; intros declared st d Hsub Hd Hd0 Hok Hn; simpl.
  - exists declared, st, d, []. rewrite !app_nil_r.
    split_and!; done.
  - rewrite (bind_data _ _ d) by done.
    destruct (Hwb c d declared) as [xs Hxs]; [apply Hsub; left|done|].
    rewrite Hxs. unfold bind at 1.
    rewrite (ind_records_full (ic_name c) xs st d d0) by done.
    set (v := transpose (mkArray [frame_len d] xs)).
    set (f := mkFrame (index d) [(ic_name c, NumCol (flat v))]).
    set (st1 := mkState (heap st ++ [concat_columns d f]) (length (heap st)) (s_data0 st)
                        (s_indicators st ++ [f])).
    destruct (IH (declared ++ [v]) st1 (concat_columns d f))
      as (vs & st' & d' & new & Hrun & G & Hsd & Hi & Hnames & Hidx & Hd' & Hi' & Hok' & Hcols).
    + intros c' Hc'. apply Hsub. by right.
    + apply list_lookup_middle. reflexivity.
    + by apply lookup_app_l_Some.
    + by apply close_ok_concat.
    + done.
    + exists vs, st', d', (f :: new). split_and!; try done.
      * eapply grows_trans; [|exact G].
        split_and!; simpl; [by apply prefix_app_r|done|by apply prefix_app_r].
      * apply lookup_lt_Some in Hd. simpl in Hsd. lia.
      * rewrite Hi. simpl. by rewrite <- app_assoc.
      * rewrite !fmap_cons. by rewrite Hnames.
      * by constructor.
      * rewrite Hcols. unfold concat_columns, f. cbn [columns].
        rewrite fmap_app, <- app_assoc. done.
Qed.

Lemma sig_loop_cons (s : Strategy) (lf i : nat) (rest : list nat)
  (acc : list (option Qc)) (st : State) (whole : DataFrame) :
  heap st !! lf = Some whole ->
  sig_loop s lf (i :: rest) acc st
  = bind (set_indicators s)
      (fun declared => bind data (fun d => bind (lift (next s d declared))
         (fun a => sig_loop s lf rest (acc ++ [a]))))
      (mkState (heap st ++ [iloc_to (i + 1) whole]) (length (heap st)) (s_data0 st)
               (s_indicators st)).
Proof. intros H. simpl. by rewrite (bind_deref _ _ _ whole) by done. Qed.

Lemma sig_loop_records (s : Strategy) (lf : nat) (whole d0 : DataFrame)
  (bars : list nat) (final : nat) (acc : list (option Qc)) (st : State) :
  well_behaved s ->
  close_ok whole ->
  heap st !! lf = Some whole ->
  heap st !! s_data0 st = Some d0 ->
  (forall i, i ∈ bars -> (i + 1 < frame_len d0)%nat) ->
  frame_len (iloc_to (final + 1) whole) = frame_len d0 ->
  exists l st' d' new,
    sig_loop s lf (bars ++ [final]) acc st = (Ok l, st') /\
    grows st st' /\
    (length (heap st) <= s_data st')%nat /\
    s_indicators st' = s_indicators st ++ new /\
    (fun f => (columns f).*1) <$> new = (fun c => [ic_name c]) <$> indicator_calls s /\
    Forall (fun f => index f = index (iloc_to (final + 1) whole)) new /\
    heap st' !! s_data st' = Some d' /\
    index d' = index (iloc_to (final + 1) whole) /\ close_ok d' /\
    (columns d').*1
    = (columns (iloc_to (final + 1) whole)).*1 ++ (ic_name <$> indicator_calls s).
Proof.
  intros Hwb Hok. revert acc st.
  induction bars as [|i bars IH]; intros acc st Hlf Hd0 Hquiet Hfinal.
  - cbn [app]. rewrite (sig_loop_cons _ _ _ _ _ _ whole) by done.
    set (df := iloc_to (final + 1) whole) in *.
    set (st2 := mkState (heap st ++ [df]) (length (heap st)) (s_data0 st)
                        (s_indicators st)).
    destruct (declare_all_records s (indicator_calls s) [] st2 df d0)
      as (vs & st3 & d' & new & Hdecl & G & Hsd & Hi & Hnames & Hidx & Hd' & Hi' & Hok' & Hc);
      try done.
    { apply list_lookup_middle. reflexivity. }
    { by apply lookup_app_l_Some. }
    { by apply close_ok_iloc. }
    unfold bind at 1. unfold set_indicators. rewrite Hdecl.
    rewrite (bind_data _ _ d') by done.
    destruct Hwb as [_ Hwb2]. destruct (Hwb2 d' vs) as [a Ha].
    rewrite (bind_lift_ok _ a) by done.
    exists (acc ++ [a]), st3, d', new. split_and!; try done.
    eapply grows_trans; [|exact G].
    split_and!; simpl; [by apply prefix_app_r|done|done].
  - rewrite <- app_comm_cons. rewrite (sig_loop_cons _ _ _ _ _ _ whole) by done.
    set (df := iloc_to (i + 1) whole).
    set (st2 := mkState (heap st ++ [df]) (length (heap st)) (s_data0 st)
                        (s_indicators st)).
    assert (Hdf : heap st2 !! s_data st2 = Some df) by apply list_lookup_middle, eq_refl.
    assert (Hd02 : heap st2 !! s_data0 st2 = Some d0) by by apply lookup_app_l_Some.
    assert (Hinv : loop_inv d0 (frame_len df) st2).
    { split; [done|]. exists df. split_and!; [done|by apply close_ok_iloc|done]. }
    destruct (declare_all_returns s (indicator_calls s) [] st2 d0 _ Hwb ltac:(done) Hinv)
      as (vs & st3 & Hdecl & _ & _).
    pose proof Hdecl as Hq.
    apply (declare_all_quiet _ _ _ _ _ df d0) in Hq as [-> _]; try done.
    2:{ unfold df. rewrite frame_len_iloc. specialize (Hquiet i ltac:(left)). lia. }
    unfold bind at 1. unfold set_indicators. rewrite Hdecl.
    rewrite (bind_data _ _ df) by done.
    pose proof Hwb as [_ Hwb2]. destruct (Hwb2 df vs) as [a Ha].
    rewrite (bind_lift_ok _ a) by done.
    destruct (IH (acc ++ [a]) st2)
      as (l & st' & d' & new & Hrun & G & Hsd & Hi & Hrest); try done.
    { by apply lookup_app_l_Some. }
    { intros j Hj. apply Hquiet. by right. }
    exists l, st', d', new. split_and!; try done; try apply Hrest.
    + eapply grows_trans; [|exact G].
      split_and!; simpl; [by apply prefix_app_r|done|done].
    + simpl in Hsd. rewrite length_app in Hsd. lia.
Qed.

Lemma iloc_to_all_index (n : nat) (d : DataFrame) :
  (frame_len d <= n)%nat -> index (iloc_to n d) = index d.
Proof. intros H. unfold iloc_to; simpl. by apply take_ge. Qed.

Lemma iloc_to_names (n : nat) (d : DataFrame) :
  (columns (iloc_to n d)).*1 = (columns d).*1.
Proof.
  unfold iloc_to; simpl. rewrite <- list_fmap_compose.
  apply list_fmap_ext. by intros _ [m c] _.
Qed.

(** X13.  Every call of [_sig] on a table of three or more bars, for a
    strategy whose indicator functions return one-dimensional arrays of the
    visible height and whose [next] returns, appends to [_indicators] exactly
    one frame per declared indicator, in declaration order, each one column
    under the display name over the whole index: the declarations of the
    last bar only.  It never removes or replaces an entry, so a second call
    appends the same number again.  Afterwards [self._data] names a new
    object, the whole table with one more column per indicator, and no
    object that existed before is changed. *)
Theorem sig_records_indicators (s : Strategy) (st : State) (d d0 : DataFrame) :
  well_behaved s ->
  heap st !! s_data st = Some d ->
  heap st !! s_data0 st = Some d0 ->
  close_ok d ->
  frame_len d = frame_len d0 ->
  (3 <= frame_len d)%nat ->
  exists l st' d' new,
    _sig s st = (Ok l, st') /\
    s_indicators st' = s_indicators st ++ new /\
    (fun f => (columns f).*1) <$> new = (fun c => [ic_name c]) <$> indicator_calls s /\
    Forall (fun f => index f = index d) new /\
    heap st `prefix_of` heap st' /\
    s_data0 st' = s_data0 st /\
    (length (heap st) < s_data st')%nat /\
    heap st' !! s_data st' = Some d' /\
    index d' = index d /\ close_ok d' /\
    (columns d').*1 = (columns d).*1 ++ (ic_name <$> indicator_calls s).
Proof.
  intros Hwb Hd Hd0 Hok Hn H3. unfold _sig.
  rewrite (bind_data _ _ d), bind_alloc by done.
  replace (seq 2 (frame_len d - 2)) with (seq 2 (frame_len d - 3) ++ [frame_len d - 1])%nat.
  2:{ replace (frame_len d - 2)%nat with (S (frame_len d - 3)) by lia.
      rewrite seq_S. do 2 f_equal. lia. }
  set (st1 := mkState (heap st ++ [d]) (s_data st) (s_data0 st) (s_indicators st)).
  destruct (sig_loop_records s (length (heap st)) d d0 (seq 2 (frame_len d - 3))
              (frame_len d - 1) [None; None] st1)
    as (l & st' & d' & new & Hrun & G & Hsd & Hi & Hnames & Hidx & Hd' & Hi' & Hok' & Hc);
    try done.
  { apply list_lookup_middle. reflexivity. }
  { by apply lookup_app_l_Some. }
  { intros i Hi. apply elem_of_seq in Hi. lia. }
  { rewrite frame_len_iloc. lia. }
  replace (frame_len d - 1 + 1)%nat with (frame_len d) in * by lia.
  rewrite iloc_to_all_index in Hidx, Hi' by done.
  rewrite iloc_to_names in Hc.
  exists l, st', d', new. split_and!; try done.
  - destruct G as (G & _). simpl in G. etrans; [|exact G]. by apply prefix_app_r.
  - by destruct G as (_ & -> & _).
  - simpl in Hsd. rewrite length_app in Hsd. simpl in Hsd. lia.
Qed.

Lemma sig_records_indicators_witness :
  let T := table_of_closes [10; 11; 12; 11; 9]%Z in
  let s := mkStrategy "Hold" [sma_call "SMA(c,2)" 2] (fun _ _ => Ok None) in
  let st := fresh_state T in
  exists l st' d' new,
    _sig s st = (Ok l, st') /\
    s_indicators st' = s_indicators st ++ new /\
    (fun f => (columns f).*1) <$> new = (fun c => [ic_name c]) <$> indicator_calls s /\
    Forall (fun f => index f = index T) new /\
    heap st `prefix_of` heap st' /\
    s_data0 st' = s_data0 st /\
    (length (heap st) < s_data st')%nat /\
    heap st' !! s_data st' = Some d' /\
    index d' = index T /\ close_ok d' /\
    (columns d').*1 = (columns T).*1 ++ (ic_name <$> indicator_calls s).
Proof.
  apply (sig_records_indicators
           (mkStrategy "Hold" [sma_call "SMA(c,2)" 2] (fun _ _ => Ok None))
           (fresh_state (table_of_closes [10; 11; 12; 11; 9]%Z))
           (table_of_closes [10; 11; 12; 11; 9]%Z)
           (table_of_closes [10; 11; 12; 11; 9]%Z)).
  - split.
    + intros c d declared Hc (close & Hcl & L).
      apply list_elem_of_singleton in Hc as ->. simpl. rewrite Hcl, L. by eexists.
    + intros d declared. by eexists.
  - reflexivity.
  - reflexivity.
  - apply close_ok_table.
  - reflexivity.
  - vm_compute. lia.
Defined.

(** ** The constructor *)

Lemma forallb_has_column (df : DataFrame) :
  forallb (has_column df) ohlcv = true
  <-> forall n, n ∈ ohlcv -> is_Some (assoc_get n (columns df)).
Proof.
  rewrite forallb_forall. split.
  - intros H n Hn. apply list_elem_of_In in Hn. specialize (H n Hn).
    unfold has_column in H. by apply bool_decide_eq_true in H.
  - intros H n Hn. apply list_elem_of_In in Hn.
    unfold has_column. apply bool_decide_eq_true. by apply H.
Qed.

Lemma col_has_nan_spec (c : column) :
  col_has_nan c = true <-> exists xs, c = NumCol xs /\ NaN ∈ xs.
Proof.
  destruct c as [xs|bs]; simpl.
  - rewrite existsb_exists. split.
    + intros (x & Hx & Hn). exists xs. split; [done|].
      destruct x; try discriminate. by apply list_elem_of_In.
    + intros (xs' & [= <-] & Hn). exists NaN. split; [by apply list_elem_of_In|done].
  - split; [discriminate|]. by intros (xs & ? & _).
Qed.

Lemma any_null_spec (df : DataFrame) :
  any_null df = true
  <-> exists n xs, n ∈ ohlcv /\ assoc_get n (columns df) = Some (NumCol xs) /\ NaN ∈ xs.
Proof.
  unfold any_null. rewrite existsb_exists. split.
  - intros (n & Hn & H). apply list_elem_of_In in Hn.
    destruct (assoc_get n (columns df)) as [c|] eqn:E; cbn [from_option] in H; [|discriminate].
    apply col_has_nan_spec in H as (xs & -> & Hx). by exists n, xs.
  - intros (n & xs & Hn & E & Hx). exists n. split; [by apply list_elem_of_In|].
    rewrite E. cbn [from_option]. apply col_has_nan_spec. by exists xs.
Qed.

(** *** Sorting the index *)

Section sorting.
Variable idx : list Z.

Let key (p : nat) : Z := default 0%Z (idx !! p).

Lemma insert_pos_perm (p : nat) (l : list nat) : insert_pos idx p l ≡ₚ p :: l.
Proof.
  induction l as [|q l IH]; simpl; [done|].
  case_bool_decide; [done|]. rewrite IH. apply Permutation_swap.
Qed.

Lemma sorted_positions_perm : sorted_positions idx ≡ₚ seq 0 (length idx).
Proof.
  unfold sorted_positions. generalize (seq 0 (length idx)) as l.
  induction l as [|p l IH]; simpl; [done|]. by rewrite insert_pos_perm, IH.
Qed.

Lemma mono_cons2 (a b : Z) (l : list Z) :
  is_monotonic_increasing (a :: b :: l)
  = bool_decide (a <= b)%Z && is_monotonic_increasing (b :: l).
Proof. done. Qed.

Lemma insert_pos_sorted_from (a : Z) (p : nat) (l : list nat) :
  (a <= key p)%Z ->
  is_monotonic_increasing (a :: (key <$> l)) = true ->
  is_monotonic_increasing (a :: (key <$> insert_pos idx p l)) = true.
Proof.
  revert a. induction l as [|q l IH]; intros a Hap Hm.
  - simpl. rewrite bool_decide_eq_true_2 by done. done.
  - cbn [insert_pos]. fold (key p) (key q).
    rewrite fmap_cons, mono_cons2 in Hm. apply andb_true_iff in Hm as [Haq Hm].
    apply bool_decide_eq_true in Haq.
    case_bool_decide as Hpq.
    + rewrite !fmap_cons, !mono_cons2.
      rewrite !bool_decide_eq_true_2 by done. done.
    + rewrite fmap_cons, mono_cons2. rewrite bool_decide_eq_true_2 by done.
      apply IH; [lia|done].
Qed.

Lemma insert_pos_sorted (p : nat) (l : list nat) :
  is_monotonic_increasing (key <$> l) = true ->
  is_monotonic_increasing (key <$> insert_pos idx p l) = true.
Proof.
  destruct l as [|q l]; [done|]. intros Hm.
  cbn [insert_pos]. fold (key p) (key q).
  case_bool_decide as Hpq.
  - rewrite !fmap_cons, mono_cons2. rewrite bool_decide_eq_true_2 by done. done.
  - rewrite fmap_cons. apply insert_pos_sorted_from; [lia|done].
Qed.

Lemma sorted_positions_sorted :
  is_monotonic_increasing (key <$> sorted_positions idx) = true.
Proof.
  unfold sorted_positions. generalize (seq 0 (length idx)) as l.
  induction l as [|p l IH]; [done|]. simpl. by apply insert_pos_sorted.
Qed.

End sorting.

Lemma col_permute_length (perm : list nat) (c : column) :
  col_length (col_permute perm c) = length perm.
Proof. destruct c; simpl; by rewrite length_fmap. Qed.

Lemma lookup_seq_id {A} (dflt : A) (xs : list A) :
  (fun p => default dflt (xs !! p)) <$> seq 0 (length xs) = xs.
Proof.
  apply list_eq. intros i. rewrite list_lookup_fmap.
  destruct (decide (i < length xs)%nat) as [Hi|Hi].
  - rewrite lookup_seq_lt by done. simpl.
    destruct (lookup_lt_is_Some_2 xs i Hi) as [x Hx]. by rewrite Hx.
  - rewrite lookup_seq_ge by lia. simpl. symmetry. apply lookup_ge_None_2. lia.
Qed.

Lemma col_permute_id (c : column) : col_permute (seq 0 (col_length c)) c = c.
Proof. destruct c; simpl; by rewrite lookup_seq_id. Qed.

Lemma columns_permute_id (d : DataFrame) :
  frame_wf d ->
  prod_map id (col_permute (seq 0 (frame_len d))) <$> columns d = columns d.
Proof.
  intros Hwf. rewrite <- (list_fmap_id (columns d)) at 2.
  apply list.Forall_fmap_ext_1. unfold frame_wf in Hwf.
  eapply list.Forall_impl; [exact Hwf|].
  intros [n c] E. simpl in E. unfold prod_map. simpl. by rewrite <- E, col_permute_id.
Qed.

Lemma sort_index_get_num (df : DataFrame) (name : string) (xs : list fnum) (i j : nat) :
  frame_wf df ->
  get_num df name = Ok xs ->
  sorted_positions (index df) !! i = Some j ->
  exists xs', get_num (sort_index df) name = Ok xs' /\ xs' !! i = xs !! j.
Proof.
  intros Hwf Hx Hp. unfold get_num in *. unfold sort_index. cbn [columns].
  rewrite assoc_get_fmap.
  destruct (assoc_get name (columns df)) as [c|] eqn:E; [|discriminate]. simpl.
  assert (j < col_length c)%nat as Hj.
  { rewrite (assoc_get_wf df name c Hwf E). unfold frame_len.
    apply list_elem_of_lookup_2 in Hp. rewrite sorted_positions_perm in Hp.
    apply elem_of_seq in Hp. lia. }
  destruct c as [ys|bs]; injection Hx as <-; simpl; eexists; (split; [done|]).
  - rewrite list_lookup_fmap, Hp. simpl.
    destruct (lookup_lt_is_Some_2 ys j Hj) as [y Hy]. by rewrite Hy.
  - rewrite !list_lookup_fmap, Hp. simpl.
    destruct (lookup_lt_is_Some_2 bs j Hj) as [b Hb]. by rewrite Hb.
Qed.

Lemma sort_index_wf (df : DataFrame) : frame_wf (sort_index df).
Proof.
  unfold frame_wf, sort_index, frame_len. cbn [index columns].
  apply list.Forall_fmap, list.Forall_forall. intros [n c] _. simpl.
  by rewrite col_permute_length, length_fmap.
Qed.

Lemma sort_index_has_column (df : DataFrame) (n : string) :
  has_column (sort_index df) n = has_column df n.
Proof.
  unfold has_column, sort_index. cbn [columns]. rewrite assoc_get_fmap.
  apply bool_decide_ext. by rewrite fmap_is_Some.
Qed.

Lemma sort_index_any_null (df : DataFrame) :
  frame_wf df -> any_null df = false -> any_null (sort_index df) = false.
Proof.
  intros Hwf Hn. destruct (any_null (sort_index df)) eqn:N; [|done].
  apply any_null_spec in N as (n & xs & Hn' & E & Hx).
  assert (any_null df = true); [|congruence].
  apply any_null_spec. unfold sort_index in E. cbn [columns] in E.
  rewrite assoc_get_fmap in E.
  destruct (assoc_get n (columns df)) as [[ys|bs]|] eqn:Ec; simpl in E; try discriminate.
  injection E as <-. exists n, ys. split_and!; [done..|].
  apply list_elem_of_fmap in Hx as (p & Hp & Hin).
  rewrite sorted_positions_perm in Hin. apply elem_of_seq in Hin.
  pose proof (assoc_get_wf df n _ Hwf Ec) as L. simpl in L. unfold frame_len in L.
  destruct (lookup_lt_is_Some_2 ys p) as [y Hy]; [lia|].
  rewrite Hy in Hp. simpl in Hp. subst y. by eapply list_elem_of_lookup_2.
Qed.

Lemma sort_index_sorted (df : DataFrame) :
  is_monotonic_increasing (index (sort_index df)) = true.
Proof. unfold sort_index. cbn [index]. apply sorted_positions_sorted. Qed.

(** X15.  What the constructor establishes.  After [StrategyBase(data)] the
    strategy holds a table whose index is ascending, which has the five
    columns without a not-a-number cell, and whose rows are the rows of
    [data], each row kept whole; [_data] and [__data] name the same object
    and nothing is recorded yet.  When the index of [data] was ascending,
    that object is [data] itself and the store is as it was; otherwise it is
    a new object, the sorted copy, and [data] is left as the caller gave
    it. *)
Theorem StrategyBase_init_establishes (h : list DataFrame) (input : nat)
  (df : DataFrame) (st : State) :
  h !! input = Some df ->
  frame_wf df ->
  StrategyBase_init h input = Ok st ->
  exists d perm,
    heap st !! s_data st = Some d /\
    s_data0 st = s_data st /\
    s_indicators st = [] /\
    (h `prefix_of` heap st) /\
    is_monotonic_increasing (index d) = true /\
    forallb (has_column d) ohlcv = true /\
    any_null d = false /\
    frame_wf d /\
    (perm ≡ₚ seq 0 (frame_len df)) /\
    index d = (fun j => default 0%Z (index df !! j)) <$> perm /\
    (forall i j name xs, perm !! i = Some j -> get_num df name = Ok xs ->
       exists xs', get_num d name = Ok xs' /\ xs' !! i = xs !! j) /\
    (is_monotonic_increasing (index df) = true ->
       d = df /\ s_data st = input /\ heap st = h) /\
    (is_monotonic_increasing (index df) = false ->
       d = sort_index df /\ s_data st = length h /\ heap st = h ++ [d]).
Proof.
  intros Hin Hwf. unfold StrategyBase_init. rewrite Hin.
  change (default empty_frame (Some df)) with df.
  destruct (forallb (has_column df) ohlcv) eqn:Hcols; [cbn [negb]|discriminate].
  destruct (any_null df) eqn:Hnull; [discriminate|].
  destruct (is_monotonic_increasing (index df)) eqn:Hmono; cbn [negb]; intros [= <-].
  - exists df, (seq 0 (frame_len df)). cbn [heap s_data s_data0 s_indicators].
    split_and!; try done.
    + unfold frame_len. by rewrite lookup_seq_id.
    + intros i j name xs Hp Hx. exists xs. split; [done|].
      apply lookup_seq in Hp as [-> _]. done.
  - exists (sort_index df), (sorted_positions (index df)).
    cbn [heap s_data s_data0 s_indicators].
    split_and!; try done.
    + apply list_lookup_middle. reflexivity.
    + by apply prefix_app_r.
    + apply sort_index_sorted.
    + rewrite <- Hcols. unfold ohlcv. cbn [forallb]. by rewrite !sort_index_has_column.
    + by apply sort_index_any_null.
    + apply sort_index_wf.
    + apply sorted_positions_perm.
    + intros i j name xs Hp Hx. by apply sort_index_get_num.
Qed.

Lemma StrategyBase_init_establishes_witness :
  let c := NumCol [qz 3; qz 1; qz 2] in
  let T := mkFrame [300; 100; 200]%Z
             [("open", c); ("high", c); ("low", c); ("close", c); ("volume", c)] in
  let st := mkState [T; sort_index T] 1 1 [] in
  exists d perm,
    heap st !! s_data st = Some d /\
    s_data0 st = s_data st /\
    s_indicators st = [] /\
    ([T] `prefix_of` heap st) /\
    is_monotonic_increasing (index d) = true /\
    forallb (has_column d) ohlcv = true /\
    any_null d = false /\
    frame_wf d /\
    (perm ≡ₚ seq 0 (frame_len T)) /\
    index d = (fun j => default 0%Z (index T !! j)) <$> perm /\
    (forall i j name xs, perm !! i = Some j -> get_num T name = Ok xs ->
       exists xs', get_num d name = Ok xs' /\ xs' !! i = xs !! j) /\
    (is_monotonic_increasing (index T) = true ->
       d = T /\ s_data st = 0%nat /\ heap st = [T]) /\
    (is_monotonic_increasing (index T) = false ->
       d = sort_index T /\ s_data st = length [T] /\ heap st = [T] ++ [d]).
Proof.
  cbv zeta.
  set (c := NumCol [qz 3; qz 1; qz 2]).
  set (T := mkFrame [300; 100; 200]%Z
              [("open", c); ("high", c); ("low", c); ("close", c); ("volume", c)]).
  apply (StrategyBase_init_establishes [T] 0 T (mkState [T; sort_index T] 1 1 [])).
  - reflexivity.
  - repeat constructor.
  - reflexivity.
Defined.

(** ** The moving-average cross during its warm-up *)

Lemma transpose_1d (n : nat) (xs : list fnum) :
  length xs = n -> transpose (mkArray [n] xs) = mkArray [n] xs.
Proof.
  intros <-. unfold transpose. cbn [shape flat reverse rev_append].
  f_equal. cbn [size_of foldr]. rewrite Nat.mul_1_r.
  apply list_eq. intros i. rewrite list_lookup_fmap.
  destruct (decide (i < length xs)%nat) as [Hi|Hi].
  - rewrite lookup_seq_lt by done. cbn [fmap option_fmap option_map plus].
    cbn [unravel size_of foldr reverse rev_append ravel].
    rewrite Nat.div_1_r, Nat.mul_1_r, Nat.add_0_r.
    destruct (lookup_lt_is_Some_2 xs i Hi) as [x Hx]. by rewrite Hx.
  - rewrite lookup_seq_ge by lia. simpl. symmetry. apply lookup_ge_None_2. lia.
Qed.

Lemma length_SMA (k : nat) (xs : list fnum) : length (SMA k xs) = length xs.
Proof. unfold SMA. by rewrite length_fmap, length_seq. Qed.

Lemma SMA_warm (k : nat) (xs : list fnum) (t : nat) :
  (t < length xs)%nat -> (S t < k)%nat -> SMA k xs !! t = Some NaN.
Proof.
  intros Ht Hk. unfold SMA. rewrite list_lookup_fmap, lookup_seq_lt by done.
  simpl. unfold window_mean. by rewrite decide_False by lia.
Qed.

Lemma sma_value (name : string) (k : nat) (d : DataFrame) (close : list fnum)
  (declared : list ndarray) :
  get_num d "close" = Ok close ->
  ind_value name (ic_func (sma_call name k) d declared) d
  = Ok (mkArray [length close] (SMA k close)).
Proof.
  intros Hc. unfold sma_call. cbn [ic_func]. rewrite Hc.
  unfold ind_value. cbn [as_array]. unfold flip_back. cbn [shape argmax argmax_from].
  rewrite decide_True by done.
  rewrite transpose_1d by apply length_SMA.
  cbn [rbind shape]. unfold index_neg. cbn [length]. rewrite decide_True by lia.
  cbn [lookup list_lookup Nat.sub rbind]. rewrite Hc. cbn [rbind].
  by rewrite decide_True.
Qed.

Lemma sma_value_missing (name : string) (k : nat) (d : DataFrame) (e : exn)
  (declared : list ndarray) :
  get_num d "close" = Raise e ->
  ind_value (ic_name (sma_call name k)) (ic_func (sma_call name k) d declared) d
  = Raise (IndicatorErrored name "close").
Proof. intros Hc. unfold sma_call. cbn [ic_func ic_name]. by rewrite Hc. Qed.

Lemma sma_cross_warm_bar (fast slow : nat) (d : DataFrame) (close : list fnum) :
  get_num d "close" = Ok close ->
  (2 <= length close <= slow)%nat ->
  bar_action (sma_cross fast slow) d = Ok None.
Proof.
  intros Hc [H2 Hs]. unfold bar_action, sma_cross.
  cbn [indicator_calls declare_values app next].
  change (ic_name (sma_call "SMA(c,fast)" fast)) with "SMA(c,fast)".
  change (ic_name (sma_call "SMA(c,slow)" slow)) with "SMA(c,slow)".
  rewrite (sma_value _ _ _ close) by done. cbn [rbind app].
  rewrite (sma_value _ _ _ close) by done. cbn [rbind app].
  unfold sma_next. cbn [flat].
  assert (Hslow : index_neg (SMA slow close) 2 = Ok NaN).
  { unfold index_neg. rewrite length_SMA, decide_True by lia.
    rewrite SMA_warm by lia. done. }
  destruct (index_neg_lookup (SMA fast close) 2) as (a2 & _ & Hfast);
    [rewrite length_SMA; lia|lia|].
  assert (E1 : crossover (SMA fast close) (SMA slow close) = Ok PyNone).
  { unfold crossover. rewrite Hfast, Hslow. by rewrite fltb_nan_r. }
  assert (E2 : crossover (SMA slow close) (SMA fast close) = Ok PyNone).
  { unfold crossover. rewrite Hslow, Hfast. by rewrite fltb_nan_l. }
  by rewrite E1, E2.
Qed.

Lemma iloc_to_wf (k : nat) (d : DataFrame) : frame_wf d -> frame_wf (iloc_to k d).
Proof.
  intros Hwf. unfold frame_wf, iloc_to, frame_len. cbn [columns index].
  apply list.Forall_fmap. eapply list.Forall_impl; [exact Hwf|].
  intros [n c] E. unfold frame_len in E. cbn [snd] in E.
  unfold prod_map. cbn [snd fst].
  destruct c as [xs|bs]; cbn [col_take col_length] in *; rewrite !length_take;
    simpl; rewrite length_take; lia.
Qed.

(** X16.  The moving-average cross of simple_example.py places no order
    before its slow average exists on the two latest bars: whenever its
    signal loop returns, the order of every bar before bar [slow] is [None]
    (the last bar of the table apart, where the indicators are recorded), so
    with the windows 5 and 20 of the example the first order can only come
    at bar 20. *)
Theorem sma_cross_warm_up (fast slow : nat) (st st' : State) (d d0 : DataFrame)
  (l : list (option Qc)) :
  heap st !! s_data st = Some d ->
  heap st !! s_data0 st = Some d0 ->
  frame_wf d ->
  _sig (sma_cross fast slow) st = (Ok l, st') ->
  forall i, (i < slow)%nat -> (i < frame_len d)%nat -> (i + 1 < frame_len d0)%nat ->
    l !! i = Some None.
Proof.
  intros Hd Hd0 Hwf H i Hi Hin Hi0.
  destruct (decide (2 <= i)%nat) as [Hi2|Hi2].
  - destruct (sig_actions _ st st' d d0 l i Hd Hd0 H Hi2 Hin Hi0) as (a & Ha & Hact).
    rewrite Ha. f_equal.
    destruct (get_num (iloc_to (i + 1) d) "close") as [close|e] eqn:Hc.
    + pose proof (iloc_to_wf (i + 1) d Hwf) as Hwf'.
      pose proof (get_num_length (iloc_to (i + 1) d) "close" close Hwf' Hc) as L.
      rewrite frame_len_iloc in L.
      rewrite (sma_cross_warm_bar fast slow _ close) in Hact; [congruence|done|].
      lia.
    + exfalso. unfold bar_action, sma_cross in Hact.
      cbn [indicator_calls declare_values] in Hact.
      rewrite (sma_value_missing _ _ _ e) in Hact by done. discriminate Hact.
  - destruct (decide (2 <= frame_len d)%nat) as [Hn|Hn].
    + destruct (sig_result_length _ st st' l d Hd Hn H) as (_ & E0 & E1).
      destruct i as [|[|i]]; [done|done|lia].
    + destruct (signal_length_short (sma_cross fast slow) st d Hd) as [st2 E]; [lia|].
      rewrite E in H. injection H as <- _.
      destruct i as [|[|i]]; [done|done|lia].
Qed.

Lemma sma_cross_warm_up_witness :
  let T := table_of_closes [10; 11; 12; 11; 9; 8; 9]%Z in
  let l := [None; None; None; None; None; None; None] in
  _sig (sma_cross 2 5) (fresh_state T)
  = (Ok l, (_sig (sma_cross 2 5) (fresh_state T)).2) /\
  (l !! 3%nat = Some None).
Proof.
  cbv zeta. split; [vm_compute; reflexivity|].
  apply (sma_cross_warm_up 2 5
           (fresh_state (table_of_closes [10; 11; 12; 11; 9; 8; 9]%Z))
           (_sig (sma_cross 2 5)
              (fresh_state (table_of_closes [10; 11; 12; 11; 9; 8; 9]%Z))).2
           (table_of_closes [10; 11; 12; 11; 9; 8; 9]%Z)
           (table_of_closes [10; 11; 12; 11; 9; 8; 9]%Z)
           [None; None; None; None; None; None; None]).
  - reflexivity.
  - reflexivity.
  - apply table_of_closes_wf.
  - vm_compute. reflexivity.
  - lia.
  - vm_compute. lia.
  - vm_compute. lia.
Defined.

(** ** Indicators that share a display name *)

Lemma label_pos_lookup (idx : list Z) (i : nat) (t : Z) :
  NoDup idx -> idx !! i = Some t -> label_pos t idx = Some i.
Proof.
  intros Hnd. revert i. induction Hnd as [|s idx Hs Hnd IH]; intros i Hi; [done|].
  destruct i as [|i]; simpl in *.
  - injection Hi as ->. by rewrite decide_True.
  - rewrite decide_False.
    + by rewrite (IH i Hi).
    + intros ->. apply Hs. by eapply list_elem_of_lookup_2.
Qed.

Lemma reindex_num_same (idx : list Z) (xs : list fnum) :
  NoDup idx -> length xs = length idx -> reindex_num idx xs idx = xs.
Proof.
  intros Hnd Hlen. unfold reindex_num. apply list_eq. intros i.
  rewrite list_lookup_fmap.
  destruct (idx !! i) as [t|] eqn:E; simpl.
  - rewrite (label_pos_lookup idx i t Hnd E).
    destruct (lookup_lt_is_Some_2 xs i) as [x Hx].
    { apply lookup_lt_Some in E. lia. }
    by rewrite Hx.
  - symmetry. apply lookup_ge_None_2. apply lookup_ge_None_1 in E. lia.
Qed.

Lemma ledger_lines_other (p : Params) (d d' : DataFrame) (m : string) :
  ledger_lines p d = Ok d' ->
  m ∉ broker_names ->
  index d' = index d /\ assoc_get m (columns d') = assoc_get m (columns d).
Proof.
  intros H Hm. unfold ledger_lines in H.
  assert (HW : forall m, m ∈ broker_names -> (fun m => m ∈ broker_names) m) by done.
  split_rbind H e1 E1. split_rbind H e2 E2. split_rbind H e3 E3.
  split_rbind H e4 E4. split_rbind H e5 E5. split_rbind H e6 E6.
  split_rbind H e7 E7.
  apply (bounded_set_pos _ HW) in E1 as [I1 C1].
  apply (bounded_set_trading_pnl _ HW) in E2 as [I2 C2].
  apply (bounded_set_fee _ HW) in E3 as [I3 C3].
  apply (bounded_set_netpnl _ HW) in E4 as [I4 C4].
  apply (bounded_fill_netpnl _ HW) in E5 as [I5 C5].
  apply (bounded_set_cumpnl _ HW) in E6 as [I6 C6].
  apply (bounded_set_capital _ HW) in E7 as [I7 C7].
  apply (bounded_set_outofmoney _ HW) in H as [I8 C8].
  split; [congruence|].
  rewrite C8, C7, C6, C5, C4, C3, C2, C1; done.
Qed.

Lemma set_frame_single (d : DataFrame) (idx : list Z) (n : string) (xs : list fnum) :
  assoc_get n (columns (set_frame d (mkFrame idx [(n, NumCol xs)])))
  = Some (NumCol (reindex_num idx xs (index d))).
Proof. unfold set_frame. cbn [columns index foldl fst snd]. apply assoc_get_set_eq. Qed.

(** X17.  Display names are not keys.  When several recorded indicators
    bear the same display name, lines 38-39 assign them one after the other
    under that name, so the run's table keeps the values of the last of
    them only; the earlier ones are overwritten without a word. *)
Theorem broker_same_name_last_wins (self : BacktestRun) (p : Params) (st : State)
  (d : DataFrame) (close : list fnum) (sigs : list (option Qc))
  (before after : list DataFrame) (n : string) (xs : list fnum) :
  heap st !! r_data self = Some d ->
  frame_wf d ->
  get_num d "close" = Ok close ->
  length sigs = frame_len d ->
  NoDup (index d) ->
  s_indicators st = before ++ mkFrame (index d) [(n, NumCol xs)] :: after ->
  length xs = frame_len d ->
  n ∉ indicator_names after ->
  n ∉ broker_names ->
  exists d',
    _broker_with (ret sigs) self p st = (Ok tt, with_frame st (r_data self) d') /\
    get_num d' n = Ok xs.
Proof.
  intros Hl Hwf Hclose Hlen Hnd Hinds Lxs Hafter Hn.
  destruct (broker_frame_total sigs (s_indicators st) p d close Hwf Hclose Hlen)
    as (d' & _ & _ & _ & Hrun & _).
  exists d'. split; [by apply (broker_with_ret self p st d)|].
  unfold broker_frame in Hrun.
  split_rbind Hrun d1 E1. split_rbind Hrun d2 E2.
  assert (I2 : index d2 = index d).
  { unfold set_change in E1. destruct (get_num d "close"); [|discriminate].
    cbn [rbind] in E1. apply set_col_bounded in E1 as [I1 _].
    unfold set_signal in E2. apply set_col_bounded in E2 as [I2 _]. congruence. }
  apply (ledger_lines_other p _ d' n) in Hrun as [_ Hget]; [|done].
  unfold get_num. rewrite Hget, Hinds, foldl_app. cbn [foldl].
  rewrite set_frames_get_ne by done.
  rewrite set_frame_single, set_frames_index, I2.
  by rewrite reindex_num_same.
Qed.

Lemma broker_same_name_last_wins_witness :
  let T := table_of_closes [100; 100; 105; 110]%Z in
  let f1 := mkFrame (index T) [("SMA(c,5)", NumCol [qz 1; qz 2; qz 3; qz 4])] in
  let xs := [qz 5; qz 6; qz 7; qz 8] in
  let st := mkState [T] 0 0 [f1; mkFrame (index T) [("SMA(c,5)", NumCol xs)]] in
  exists d',
    _broker_with (ret [None; None; Some long; None]) (mkRun 0 (long_at 2))
                 (mkParams (Qc_of_Z 1000) 1%Qc 0%Qc 1%Qc) st
    = (Ok tt, with_frame st 0 d') /\
    get_num d' "SMA(c,5)" = Ok xs.
Proof.
  cbv zeta.
  set (T := table_of_closes [100; 100; 105; 110]%Z).
  apply (broker_same_name_last_wins (mkRun 0 (long_at 2))
           (mkParams (Qc_of_Z 1000) 1%Qc 0%Qc 1%Qc)
           (mkState [T] 0 0
              [mkFrame (index T) [("SMA(c,5)", NumCol [qz 1; qz 2; qz 3; qz 4])];
               mkFrame (index T) [("SMA(c,5)", NumCol [qz 5; qz 6; qz 7; qz 8])]])
           T (qz <$> [100; 100; 105; 110]%Z)
           [None; None; Some long; None]
           [mkFrame (index T) [("SMA(c,5)", NumCol [qz 1; qz 2; qz 3; qz 4])]] []
           "SMA(c,5)" [qz 5; qz 6; qz 7; qz 8]).
  - reflexivity.
  - apply table_of_closes_wf.
  - reflexivity.
  - reflexivity.
  - vm_compute. repeat constructor; rewrite ?elem_of_cons, ?elem_of_nil; intuition discriminate.
  - reflexivity.
  - reflexivity.
  - apply not_elem_of_nil.
  - unfold broker_names, ledger_names. rewrite !elem_of_cons, elem_of_nil.
    intuition discriminate.
Defined.

(** ** Display names *)

(** The names of simple_example.py: [ind(ta.SMA, self.data.close, 5)]. *)
Example display_name_sma :
  display_name (ArgObject [] (Some (pystr_of "SMA")))
               [ArgObject (pystr_of "close") None; ArgNumber (pystr_of "5")]
  = pystr_of "SMA(c,5)".
Proof. vm_compute. reflexivity. Qed.

Lemma name_str_object_length (name : pystr) (callable : option pystr) :
  (length (_name_str (ArgObject name callable)) <= 10)%nat.
Proof.
  unfold _name_str. destruct (decide (name ∈ pystr_of <$> ohlcv)).
  - rewrite length_take. lia.
  - cbv zeta. destruct (decide (10 < length (default name callable))%nat).
    + rewrite length_app, length_take. cbn [length]. lia.
    + lia.
Qed.

(** X18.  A display name keeps at most ten characters of the name of a
    function or of a series, the tenth being the mark of a cut; so two
    functions whose names are longer than ten characters and agree on the
    first nine get the same display name on the same arguments, and a
    series named open, high, low, close or volume is shown by its first
    letter alone, like a series named by that letter. *)
Theorem display_name_truncates :
  (forall name callable,
     (length (_name_str (ArgObject name callable)) <= 10)%nat) /\
  (forall attr n,
     attr ∉ pystr_of <$> ohlcv -> (length n <= 10)%nat ->
     _name_str (ArgObject attr (Some n)) = n) /\
  (forall attr1 attr2 n1 n2 args,
     attr1 ∉ pystr_of <$> ohlcv -> attr2 ∉ pystr_of <$> ohlcv ->
     (10 < length n1)%nat -> (10 < length n2)%nat ->
     take 9 n1 = take 9 n2 ->
     display_name (ArgObject attr1 (Some n1)) args
     = display_name (ArgObject attr2 (Some n2)) args) /\
  (forall col func before after,
     col ∈ ohlcv ->
     display_name func (before ++ ArgObject (pystr_of col) None :: after)
     = display_name func (before ++ ArgObject (take 1 (pystr_of col)) None :: after)).
Proof.
  split_and!.
  - apply name_str_object_length.
  - intros attr n Hattr Hn. unfold _name_str.
    rewrite decide_False by done. cbn [from_option id].
    by rewrite decide_False by lia.
  - intros attr1 attr2 n1 n2 args H1 H2 L1 L2 E.
    unfold display_name. cbv zeta.
    assert (_name_str (ArgObject attr1 (Some n1)) = _name_str (ArgObject attr2 (Some n2)))
      as ->; [|done].
    unfold _name_str. cbn [from_option id].
    destruct (decide (attr1 ∈ pystr_of <$> ohlcv)); [done|].
    destruct (decide (attr2 ∈ pystr_of <$> ohlcv)); [done|].
    destruct (decide (10 < length n1)%nat); [|lia].
    destruct (decide (10 < length n2)%nat); [|lia].
    by rewrite E.
  - intros col func before after Hcol.
    unfold display_name. cbv zeta. rewrite !fmap_app, !fmap_cons.
    assert (_name_str (ArgObject (pystr_of col) None)
            = _name_str (ArgObject (take 1 (pystr_of col)) None)) as ->; [|done].
    unfold ohlcv in Hcol. rewrite !elem_of_cons, elem_of_nil in Hcol.
    destruct Hcol as [->|[->|[->|[->|[->|[]]]]]]; vm_compute; reflexivity.
Qed.

Lemma display_name_truncates_witness :
  display_name (ArgObject [] (Some (pystr_of "upper_bound_a"))) [ArgFrame]
  = display_name (ArgObject [] (Some (pystr_of "upper_bound_b"))) [ArgFrame].
Proof.
  apply (proj1 (proj2 (proj2 display_name_truncates)) [] []
           (pystr_of "upper_bound_a") (pystr_of "upper_bound_b") [ArgFrame]).
  - apply (bool_decide_unpack _). vm_compute. reflexivity.
  - apply (bool_decide_unpack _). vm_compute. reflexivity.
  - vm_compute. lia.
  - vm_compute. lia.
  - reflexivity.
Defined.

(** X19.  An argument without a name of its own, such as a numpy array or
    a list, leaves no trace in the display name: the same function on two
    different unnamed arrays, or on none at all, is recorded under one and
    the same name. *)
Theorem display_name_drops_unnamed (func : pyarg) (before after : list pyarg) :
  display_name func (before ++ ArgObject [] None :: after)
  = display_name func (before ++ after) /\
  display_name func [ArgObject [] None] = _name_str func.
Proof.
  assert (E : _name_str (ArgObject [] None) = []).
  { unfold _name_str. rewrite decide_False; [done|].
    apply (bool_decide_unpack _). vm_compute. reflexivity. }
  split.
  - unfold display_name. cbv zeta.
    rewrite !fmap_app, fmap_cons, E, !list.filter_app.
    by rewrite filter_cons_False by (intros H; by apply H).
  - unfold display_name. cbv zeta. cbn [fmap list_fmap]. rewrite E.
    rewrite filter_cons_False by (intros H; by apply H). done.
Qed.

(** ** The marker columns of [plot] *)

Lemma label_pos_None (t : Z) (src : list Z) : t ∉ src -> label_pos t src = None.
Proof.
  induction src as [|s src IH]; [done|]. intros H. simpl.
  rewrite decide_False.
  - rewrite IH; [done|]. intros ?. apply H. by right.
  - intros ->. apply H. by left.
Qed.

Lemma label_pos_Some (t : Z) (src : list Z) :
  t ∈ src -> exists j, label_pos t src = Some j /\ src !! j = Some t.
Proof.
  induction src as [|s src IH]; intros H.
  - by apply elem_of_nil in H.
  - simpl. destruct (decide (s = t)) as [->|Hne].
    + by exists 0%nat.
    + apply elem_of_cons in H as [->|H]; [done|].
      destruct (IH H) as (j & -> & Hj). by exists (S j).
Qed.

Lemma series_at_rows (rows : list (Z * fnum)) (P : fnum -> bool) (g : fnum -> fnum)
  (t : Z) (s : fnum) :
  NoDup rows.*1 -> (t, s) ∈ rows ->
  series_at (mkSeries (filter (fun r => P r.2 = true) rows).*1
                      (g <$> (filter (fun r => P r.2 = true) rows).*2)) t
  = if P s then g s else NaN.
Proof.
  unfold series_at. cbn [ser_labels ser_values].
  induction rows as [|[t0 s0] rows IH]; intros Hnd Hin.
  - by apply elem_of_nil in Hin.
  - rewrite fmap_cons in Hnd. apply list.NoDup_cons in Hnd as [Hfresh Hnd].
    cbn [fst] in Hfresh.
    assert (Hsub : forall t', t' ∈ (filter (fun r => P r.2 = true) rows).*1 -> t' ∈ rows.*1).
    { intros t' Ht'. apply list_elem_of_fmap in Ht' as ([t1 s1] & -> & H1).
      apply list_elem_of_filter in H1 as [_ H1].
      apply list_elem_of_fmap. by exists (t1, s1). }
    apply elem_of_cons in Hin as [[= -> ->]|Hin].
    + destruct (P s0) eqn:EP.
      * rewrite filter_cons_True by done. csimpl. by rewrite decide_True.
      * rewrite filter_cons_False by (cbn [snd]; by rewrite EP).
        rewrite label_pos_None; [done|]. intros Ht'. by apply Hfresh, Hsub.
    + assert (Hne : t0 <> t).
      { intros ->. apply Hfresh. apply list_elem_of_fmap. by exists (t, s). }
      specialize (IH Hnd Hin).
      destruct (P s0) eqn:EP.
      * rewrite filter_cons_True by done. csimpl. rewrite decide_False by done.
        destruct (label_pos t (filter (fun r => P r.2 = true) rows).*1) as [j|]; [|done].
        done.
      * by rewrite filter_cons_False by (cbn [snd]; by rewrite EP).
Qed.

Lemma series_at_where (idx : list Z) (xs : list fnum) (v : Qc) (g : fnum -> fnum)
  (i : nat) (t : Z) (s : fnum) :
  NoDup idx -> length xs = length idx ->
  idx !! i = Some t -> xs !! i = Some s ->
  series_at (series_map g (where_eq (mkSeries idx xs) v)) t
  = if feqb s (Fin v) then g s else NaN.
Proof.
  intros Hnd Hlen Ht Hs. unfold series_map, where_eq. cbn [ser_labels ser_values].
  apply (series_at_rows (zip idx xs) (fun x => feqb x (Fin v)) g t s).
  - rewrite fst_zip by lia. done.
  - apply list_elem_of_lookup_2 with i. rewrite lookup_zip_with, Ht. csimpl. by rewrite Hs.
Qed.

Lemma series_map_id (s : Series) : series_map id s = s.
Proof. destruct s as [l v]. unfold series_map. cbn [ser_labels ser_values]. by rewrite list_fmap_id. Qed.

Lemma fmul_one_l (c : fnum) : fmul fone c = c.
Proof.
  destruct c as [|b|q]; [done|done|]. unfold fone. cbn [fmul]. by rewrite Qcmult_1_l.
Qed.

Lemma feqb_Fin (s : fnum) (v : Qc) : feqb s (Fin v) = true -> s = Fin v.
Proof.
  unfold feqb. destruct s as [|b|q]; cbn [fcmp]; [done|by destruct b|].
  destruct (q ?= v)%Qc eqn:E; [|done..]. intros _. f_equal. by apply Qceq_alt.
Qed.

Lemma series_mul_at (a : Series) (idx : list Z) (close : list fnum)
  (i : nat) (t : Z) (c : fnum) :
  NoDup idx -> idx !! i = Some t -> close !! i = Some c ->
  series_at (series_mul a (mkSeries idx close)) t = fmul (series_at a t) c.
Proof.
  intros Hnd Et Ec.
  assert (Hin : t ∈ ser_labels (series_mul a (mkSeries idx close))).
  { unfold series_mul. cbn [ser_labels].
    destruct (decide (t ∈ ser_labels a)) as [Ha|Ha].
    - apply elem_of_app. by left.
    - apply elem_of_app. right. apply list_elem_of_filter. split; [done|].
      by eapply list_elem_of_lookup_2. }
  destruct (label_pos_Some t _ Hin) as (j & Hp & Hj).
  unfold series_at at 1. rewrite Hp.
  unfold series_mul in Hj |- *. cbn [ser_labels ser_values] in Hj |- *.
  rewrite list_lookup_fmap, Hj. csimpl. f_equal.
  unfold series_at. cbn [ser_labels ser_values].
  by rewrite (label_pos_lookup idx i t Hnd Et), Ec.
Qed.

(** One marker column: the product of the selected orders, brought to one
    by [g], with the closes, aligned on the table. *)
Lemma marker_cells (idx : list Z) (signal close : list fnum) (v : Qc)
  (g : fnum -> fnum) :
  NoDup idx -> length signal = length idx -> length close = length idx ->
  g (Fin v) = fone ->
  let m := series_mul (series_map g (where_eq (mkSeries idx signal) v))
                      (mkSeries idx close) in
  reindex_num (ser_labels m) (ser_values m) idx
  = zip_with (fun s c => if feqb s (Fin v) then c else NaN) signal close.
Proof.
  intros Hnd Hs Hc Hg m. apply list_eq. intros i.
  unfold reindex_num. rewrite list_lookup_fmap, lookup_zip_with.
  destruct (idx !! i) as [t|] eqn:Et.
  - destruct (lookup_lt_is_Some_2 signal i) as [s Es].
    { apply lookup_lt_Some in Et. lia. }
    destruct (lookup_lt_is_Some_2 close i) as [c Ec].
    { apply lookup_lt_Some in Et. lia. }
    rewrite Es. csimpl. rewrite Ec. csimpl. f_equal.
    change (series_at m t = if feqb s (Fin v) then c else NaN).
    unfold m. rewrite (series_mul_at _ idx close i t c Hnd Et Ec).
    rewrite (series_at_where idx signal v g i t s Hnd Hs Et Es).
    destruct (feqb s (Fin v)) eqn:E; [|done].
    apply feqb_Fin in E. subst s. rewrite Hg. apply fmul_one_l.
  - assert (signal !! i = None) as ->; [|done].
    apply lookup_ge_None_2. apply lookup_ge_None_1 in Et. lia.
Qed.

Lemma marker_frame (d : DataFrame) (signal close : list fnum) (name : string)
  (v : Qc) (g : fnum -> fnum) :
  frame_wf d -> NoDup (index d) ->
  get_num d "signal" = Ok signal -> get_num d "close" = Ok close ->
  g (Fin v) = fone ->
  set_series d name
    (series_mul (series_map g (where_eq (mkSeries (index d) signal) v))
                (mkSeries (index d) close))
  = mkFrame (index d)
      (assoc_set name
         (NumCol (zip_with (fun s c => if feqb s (Fin v) then c else NaN) signal close))
         (columns d)).
Proof.
  intros Hwf Hnd Hs Hc Hg. unfold set_series.
  rewrite (marker_cells (index d) signal close v g); [done|done| | |done].
  - by apply (get_num_length d "signal").
  - by apply (get_num_length d "close").
Qed.

Lemma marker_wf (d : DataFrame) (signal close : list fnum) (name : string)
  (f : fnum -> fnum -> fnum) :
  frame_wf d ->
  get_num d "signal" = Ok signal -> get_num d "close" = Ok close ->
  frame_wf (mkFrame (index d)
              (assoc_set name (NumCol (zip_with f signal close)) (columns d))).
Proof.
  intros Hwf Hs Hc. unfold frame_wf, frame_len. cbn [columns index].
  apply assoc_set_wf; [|done]. cbn [col_length]. rewrite length_zip_with.
  apply (get_num_length d "signal") in Hs; [|done].
  apply (get_num_length d "close") in Hc; [|done].
  unfold frame_len in *. lia.
Qed.

Lemma get_num_marker (d : DataFrame) (name n : string) (c : column) :
  name <> n ->
  get_num (mkFrame (index d) (assoc_set name c (columns d))) n = get_num d n.
Proof. intros H. apply get_num_ext. cbn [columns]. by apply assoc_get_set_ne. Qed.

(** [plot] on a table that has its [signal] and [close] columns. *)
Lemma plot_eval (self : BacktestRun) (_result : option Report)
  (title : option string) (type : string) (st : State) (d : DataFrame)
  (signal close : list fnum) :
  type ∈ plot_types ->
  heap st !! r_data self = Some d ->
  frame_wf d -> NoDup (index d) ->
  get_num d "signal" = Ok signal -> get_num d "close" = Ok close ->
  let mark (v : Qc) :=
    zip_with (fun s c => if feqb s (Fin v) then c else NaN) signal close in
  plot self _result (Some <$> title) type st
  = (inr (mkPlan (default (from_option rep_name "Backtesting Plot" _result) title) type
            (filter (fun e : string * list fnum => some_number e.2 = true)
                    [("long", mark 1%Qc); ("short", mark (- 1)%Qc); ("offset", mark 0%Qc)])),
     with_frame st (r_data self)
       (mkFrame (index d)
          (assoc_set "signal-1" (NumCol (mark (- 1)%Qc))
             (assoc_set "signal0" (NumCol (mark 0%Qc))
                (assoc_set "signal1" (NumCol (mark 1%Qc)) (columns d)))))).
Proof.
  intros Hty Hl Hwf Hnd Hs Hc mark.
  set (d1 := mkFrame (index d) (assoc_set "signal1" (NumCol (mark 1%Qc)) (columns d))).
  set (d2 := mkFrame (index d) (assoc_set "signal0" (NumCol (mark 0%Qc)) (columns d1))).
  set (d3 := mkFrame (index d) (assoc_set "signal-1" (NumCol (mark (- 1)%Qc)) (columns d2))).
  assert (H1 : marker_long d = Ok d1).
  { unfold marker_long, series_of. rewrite Hs, Hc. cbn [rbind]. f_equal.
    rewrite <- (series_map_id (where_eq _ _)).
    by apply (marker_frame d signal close "signal1" 1%Qc id). }
  assert (Hwf1 : frame_wf d1) by by apply marker_wf.
  assert (Hs1 : get_num d1 "signal" = Ok signal).
  { unfold d1. by rewrite get_num_marker. }
  assert (Hc1 : get_num d1 "close" = Ok close).
  { unfold d1. by rewrite get_num_marker. }
  assert (H2 : marker_offset d1 = Ok d2).
  { unfold marker_offset, series_of. rewrite Hs1, Hc1. cbn [rbind]. f_equal.
    apply (marker_frame d1 signal close "signal0" 0%Qc (fun x => fadd x fone));
      [done..|].
    unfold fone. cbn [fadd]. by rewrite Qcplus_0_l. }
  assert (Hwf2 : frame_wf d2) by by apply (marker_wf d1).
  assert (Hs2 : get_num d2 "signal" = Ok signal).
  { unfold d2. change (index d) with (index d1). by rewrite get_num_marker. }
  assert (Hc2 : get_num d2 "close" = Ok close).
  { unfold d2. change (index d) with (index d1). by rewrite get_num_marker. }
  assert (H3 : marker_short d2 = Ok d3).
  { unfold marker_short, series_of. rewrite Hs2, Hc2. cbn [rbind]. f_equal.
    apply (marker_frame d2 signal close "signal-1" (- 1)%Qc fneg); [done..|].
    unfold fone. cbn [fneg]. by rewrite Qcopp_involutive. }
  assert (Hap : addplots d3
    = Ok (filter (fun e : string * list fnum => some_number e.2 = true)
            [("long", mark 1%Qc); ("short", mark (- 1)%Qc); ("offset", mark 0%Qc)])).
  { unfold addplots.
    assert (get_num d3 "signal1" = Ok (mark 1%Qc)) as ->.
    { unfold d3. change (index d) with (index d2). rewrite get_num_marker by done.
      unfold d2. change (index d) with (index d1). rewrite get_num_marker by done.
      unfold get_num, d1. cbn [columns]. by rewrite assoc_get_set_eq. }
    assert (get_num d3 "signal-1" = Ok (mark (- 1)%Qc)) as ->.
    { unfold get_num, d3. cbn [columns]. by rewrite assoc_get_set_eq. }
    assert (get_num d3 "signal0" = Ok (mark 0%Qc)) as ->.
    { unfold d3. change (index d) with (index d2). rewrite get_num_marker by done.
      unfold get_num, d2. cbn [columns]. by rewrite assoc_get_set_eq. }
    cbn [rbind]. f_equal.
    destruct (some_number (mark 1%Qc)) eqn:E1,
             (some_number (mark (- 1)%Qc)) eqn:E2,
             (some_number (mark 0%Qc)) eqn:E3;
      repeat first
        [ rewrite filter_cons_True by (cbn [snd]; congruence)
        | rewrite filter_cons_False by (cbn [snd]; congruence) ];
      by rewrite filter_nil. }
  unfold plot.
  assert (match Some <$> title with
          | Some text => text
          | None => Some (from_option rep_name "Backtesting Plot" _result)
          end = Some (default (from_option rep_name "Backtesting Plot" _result) title)) as ->.
  { by destruct title. }
  rewrite decide_False by (intros H; by apply H).
  rewrite (update_ok _ _ st d d1 Hl H1).
  rewrite (bind_update _ _ _ _ d1 d2); [|by eapply lookup_with_frame|done].
  rewrite with_frame_twice.
  rewrite (bind_update _ _ _ _ d2 d3); [|by eapply lookup_with_frame|done].
  rewrite with_frame_twice.
  rewrite (bind_deref _ _ _ d3) by by eapply lookup_with_frame.
  unfold lift. by rewrite Hap.
Qed.

Lemma get_num_missing (d : DataFrame) (n : string) :
  has_column d n = false -> get_num d n = Raise (KeyError n).
Proof.
  unfold has_column, get_num. intros H. apply bool_decide_eq_false in H.
  destruct (assoc_get n (columns d)) as [c|]; [|done]. destruct H. by eexists.
Qed.

Lemma plot_no_column (self : BacktestRun) (_result : option Report)
  (title : option string) (type : string) (st : State) (d : DataFrame) :
  heap st !! r_data self = Some d ->
  type ∈ plot_types ->
  has_column d "signal" = false \/ has_column d "close" = false ->
  plot self _result (Some <$> title) type st = (inl _PlotBeforeRun, st).
Proof.
  intros Hl Hty Hno. unfold plot.
  assert (exists t, match Some <$> title with
          | Some text => text
          | None => Some (from_option rep_name "Backtesting Plot" _result)
          end = Some t) as [t ->].
  { destruct title; by eexists. }
  rewrite decide_False by (intros H; by apply H).
  assert (exists e, marker_long d = Raise e) as [e He].
  { unfold marker_long, series_of. destruct Hno as [Hno|Hno].
    - rewrite (get_num_missing d "signal" Hno). by eexists.
    - destruct (get_num d "signal"); cbn [rbind]; [|by eexists].
      rewrite (get_num_missing d "close" Hno). by eexists. }
  by rewrite (update_raise _ _ st d e Hl He).
Qed.

(** X20.  [plot] checks its arguments before it looks at the table, and
    it draws only a table that has been run: a [type] other than line, ohlc
    and candle is a ValueError even after a run; on a table without a
    [signal] column it raises [_PlotBeforeRun]; and a run that failed in the
    strategy does not count, [plot] raises [_PlotBeforeRun] after it too.
    In none of these cases does [plot] touch the table. *)
Theorem plot_requires_run (self : BacktestRun) (_result : option Report)
  (title : option string) (type : string) (st : State) (d : DataFrame) :
  heap st !! r_data self = Some d ->
  (type ∉ plot_types ->
   plot self _result (Some <$> title) type st = (inl PlotValueError, st)) /\
  (type ∈ plot_types ->
   has_column d "signal" = false \/ has_column d "close" = false ->
   plot self _result (Some <$> title) type st = (inl _PlotBeforeRun, st)) /\
  (forall (p : Params) (close : list fnum) (e : exn) (st2 : State),
     type ∈ plot_types -> frame_wf d ->
     has_column d "signal" = false -> get_num d "close" = Ok close ->
     _sig (r_strategy self)
          (with_frame st (r_data self)
             (mkFrame (index d) (assoc_set "change" (NumCol (diff close)) (columns d))))
     = (Raise e, st2) ->
     run self p st = (Raise e, st2) /\
     plot self _result (Some <$> title) type st2 = (inl _PlotBeforeRun, st2)).
Proof.
  intros Hl. split_and!.
  - intros Hty. unfold plot.
    assert (exists t, match Some <$> title with
            | Some text => text
            | None => Some (from_option rep_name "Backtesting Plot" _result)
            end = Some t) as [t ->].
    { destruct title; by eexists. }
    by rewrite decide_True.
  - intros Hty Hno. by eapply plot_no_column.
  - intros p close e st2 Hty Hwf Hno Hclose Hsig.
    set (d1 := mkFrame (index d) (assoc_set "change" (NumCol (diff close)) (columns d))) in *.
    assert (Hch : set_change d = Ok d1).
    { unfold set_change. rewrite Hclose. cbn [rbind]. unfold set_col.
      rewrite decide_True; [done|].
      simpl. rewrite length_diff. by apply (get_num_length d "close"). }
    split.
    + unfold run, _broker, _broker_with. unfold bind at 1.
      rewrite (bind_update _ _ _ st d d1) by done.
      unfold bind at 1. by rewrite Hsig.
    + apply (plot_no_column self _result title type st2 d1); [|done|].
      * eapply grows_lookup; [by eapply grows_sig|]. by eapply lookup_with_frame.
      * left. unfold has_column in *. apply bool_decide_eq_false.
        apply bool_decide_eq_false in Hno. unfold d1. cbn [columns].
        by rewrite assoc_get_set_ne.
Qed.

Lemma assoc_set_same (n : string) (c : column) cols :
  assoc_get n cols = Some c -> assoc_set n c cols = cols.
Proof.
  induction cols as [|[k c'] cols IH]; [done|]. simpl.
  destruct (decide (k = n)) as [->|Hne].
  - by intros [= ->].
  - intros H. by rewrite IH.
Qed.

(** X21.  After a run [plot] returns, and before it draws it writes three
    columns into the run's table, which is the caller's: [signal1],
    [signal0] and [signal-1] hold the close of the bars where the strategy
    went long, flat or short, and not-a-number on all other bars.  No other
    column changes, and plotting again changes nothing more and gives the
    same markers. *)
Theorem plot_markers (self : BacktestRun) (_result : option Report)
  (title : option string) (type : string) (st : State) (d : DataFrame)
  (signal close : list fnum) :
  type ∈ plot_types ->
  heap st !! r_data self = Some d ->
  frame_wf d -> NoDup (index d) ->
  get_num d "signal" = Ok signal -> get_num d "close" = Ok close ->
  exists (plan : PlotPlan) (d' : DataFrame),
    plot self _result (Some <$> title) type st
    = (inr plan, with_frame st (r_data self) d') /\
    plan_title plan = default (from_option rep_name "Backtesting Plot" _result) title /\
    plan_type plan = type /\
    index d' = index d /\
    get_num d' "signal1"
    = Ok (zip_with (fun s c => if feqb s (Fin long) then c else NaN) signal close) /\
    get_num d' "signal0"
    = Ok (zip_with (fun s c => if feqb s (Fin offset) then c else NaN) signal close) /\
    get_num d' "signal-1"
    = Ok (zip_with (fun s c => if feqb s (Fin short) then c else NaN) signal close) /\
    (forall n, n ∉ ["signal1"; "signal0"; "signal-1"] ->
       assoc_get n (columns d') = assoc_get n (columns d)) /\
    plot self _result (Some <$> title) type (with_frame st (r_data self) d')
    = (inr plan, with_frame st (r_data self) d').
Proof.
  intros Hty Hl Hwf Hnd Hs Hc.
  pose proof (plot_eval self _result title type st d signal close Hty Hl Hwf Hnd Hs Hc) as E.
  cbv zeta in E.
  set (m1 := zip_with (fun s c => if feqb s (Fin 1%Qc) then c else NaN) signal close) in *.
  set (m0 := zip_with (fun s c => if feqb s (Fin 0%Qc) then c else NaN) signal close) in *.
  set (m_1 := zip_with (fun s c => if feqb s (Fin (- 1)%Qc) then c else NaN) signal close) in *.
  set (d' := mkFrame (index d)
               (assoc_set "signal-1" (NumCol m_1)
                  (assoc_set "signal0" (NumCol m0)
                     (assoc_set "signal1" (NumCol m1) (columns d))))) in *.
  assert (G1 : assoc_get "signal1" (columns d') = Some (NumCol m1)).
  { unfold d'. cbn [columns]. rewrite !assoc_get_set_ne by done. apply assoc_get_set_eq. }
  assert (G0 : assoc_get "signal0" (columns d') = Some (NumCol m0)).
  { unfold d'. cbn [columns]. rewrite assoc_get_set_ne by done. apply assoc_get_set_eq. }
  assert (G_1 : assoc_get "signal-1" (columns d') = Some (NumCol m_1)).
  { unfold d'. cbn [columns]. apply assoc_get_set_eq. }
  assert (Hother : forall n, n ∉ ["signal1"; "signal0"; "signal-1"] ->
            assoc_get n (columns d') = assoc_get n (columns d)).
  { intros n Hn. unfold d'. cbn [columns].
    rewrite !assoc_get_set_ne; [done|..]; intros <-; apply Hn;
      rewrite !elem_of_cons; auto. }
  eexists _, d'. split; [exact E|].
  split_and!; try done.
  - unfold get_num. by rewrite G1.
  - unfold get_num. by rewrite G0.
  - unfold get_num. by rewrite G_1.
  - assert (Hwf' : frame_wf d').
    { unfold d'. apply (marker_wf (mkFrame (index d) _) signal close "signal-1").
      - apply (marker_wf (mkFrame (index d) _) signal close "signal0").
        + by apply marker_wf.
        + by rewrite get_num_marker.
        + by rewrite get_num_marker.
      - change (index d) with
          (index (mkFrame (index d) (assoc_set "signal1" (NumCol m1) (columns d)))) at 1.
        rewrite get_num_marker by done. by rewrite get_num_marker.
      - change (index d) with
          (index (mkFrame (index d) (assoc_set "signal1" (NumCol m1) (columns d)))) at 1.
        rewrite get_num_marker by done. by rewrite get_num_marker. }
    assert (Hs' : get_num d' "signal" = Ok signal).
    { rewrite <- Hs. apply get_num_ext. apply Hother.
      rewrite !elem_of_cons, elem_of_nil. intuition discriminate. }
    assert (Hc' : get_num d' "close" = Ok close).
    { rewrite <- Hc. apply get_num_ext. apply Hother.
      rewrite !elem_of_cons, elem_of_nil. intuition discriminate. }
    pose proof (plot_eval self _result title type (with_frame st (r_data self) d') d'
                  signal close Hty (lookup_with_frame _ _ _ _ Hl) Hwf' Hnd Hs' Hc') as E'.
    cbv zeta in E'. rewrite E'. f_equal.
    rewrite with_frame_twice. f_equal.
    change (index d') with (index d).
    fold m1 m0 m_1.
    rewrite (assoc_set_same "signal1" _ _ G1).
    rewrite (assoc_set_same "signal0" _ _ G0).
    rewrite (assoc_set_same "signal-1" _ _ G_1).
    done.
Qed.

Lemma some_number_spec (xs : list fnum) :
  some_number xs = true <-> exists x, x ∈ xs /\ isnan x = false.
Proof.
  unfold some_number. rewrite bool_decide_eq_true. split.
  - intros H. induction xs as [|x xs IH]; [done|].
    destruct (isnan x) eqn:E.
    + rewrite filter_cons_True in H by done. cbn [length] in H.
      destruct IH as (y & Hy & Hn); [lia|]. exists y. split; [by right|done].
    + exists x. split; [by left|done].
  - intros (x & Hx & Hn).
    assert (Hx' : ~ isnan x = true) by by rewrite Hn.
    pose proof (length_filter_lt (fun y => isnan y = true) xs x Hx Hx') as H. lia.
Qed.

Lemma feqb_refl (v : Qc) : feqb (Fin v) (Fin v) = true.
Proof.
  unfold feqb. cbn [fcmp].
  assert ((v ?= v)%Qc = Eq) as ->; [|done]. by apply Qceq_alt.
Qed.

Lemma marker_some_number (sigs : list (option Qc)) (close : list fnum) (v : Qc) :
  length sigs = length close ->
  Forall (fun c => isnan c = false) close ->
  some_number (zip_with (fun s c => if feqb s (Fin v) then c else NaN)
                        (signal_column sigs) close) = true
  <-> Some v ∈ sigs.
Proof.
  intros Hlen Hclose. rewrite some_number_spec. split.
  - intros (x & Hx & Hn).
    apply list_elem_of_lookup_1 in Hx as [i Hi].
    apply lookup_zip_with_Some in Hi as (s & c & -> & Hs & Hc).
    destruct (feqb s (Fin v)) eqn:E; [|done].
    apply feqb_Fin in E. subst s.
    unfold signal_column in Hs. rewrite list_lookup_fmap in Hs.
    destruct (sigs !! i) as [[q|]|] eqn:Eo; [|done..].
    injection Hs as ->. by eapply list_elem_of_lookup_2.
  - intros Hin. apply list_elem_of_lookup_1 in Hin as [i Hi].
    destruct (lookup_lt_is_Some_2 close i) as [c Hc].
    { apply lookup_lt_Some in Hi. lia. }
    exists c. split.
    + apply list_elem_of_lookup_2 with i. rewrite lookup_zip_with.
      unfold signal_column. rewrite list_lookup_fmap, Hi. csimpl. rewrite Hc. csimpl.
      by rewrite feqb_refl.
    + rewrite list.Forall_forall in Hclose. apply Hclose.
      by eapply list_elem_of_lookup_2.
Qed.

(** X22.  On a table whose closes are all numbers the legend of the chart
    tells which orders the strategy gave: it has the label long, short or
    offset exactly when some bar carries the order 1, -1 or 0, and the
    labels come in that order, whatever the order of the trades.  A
    strategy that never trades gets a chart without markers. *)
Theorem plot_legend (self : BacktestRun) (_result : option Report)
  (title : option string) (type : string) (st : State) (d : DataFrame)
  (sigs : list (option Qc)) (close : list fnum) :
  type ∈ plot_types ->
  heap st !! r_data self = Some d ->
  frame_wf d -> NoDup (index d) ->
  get_num d "signal" = Ok (signal_column sigs) -> get_num d "close" = Ok close ->
  Forall (fun c => isnan c = false) close ->
  exists (plan : PlotPlan) (st' : State),
    plot self _result (Some <$> title) type st = (inr plan, st') /\
    ("long" ∈ (plan_addplot plan).*1 <-> Some long ∈ sigs) /\
    ("short" ∈ (plan_addplot plan).*1 <-> Some short ∈ sigs) /\
    ("offset" ∈ (plan_addplot plan).*1 <-> Some offset ∈ sigs) /\
    sublist (plan_addplot plan).*1 ["long"; "short"; "offset"] /\
    (Forall (fun o => o = None) sigs -> plan_addplot plan = []).
Proof.
  intros Hty Hl Hwf Hnd Hs Hc Hclose.
  pose proof (plot_eval self _result title type st d _ close Hty Hl Hwf Hnd Hs Hc) as E.
  cbv zeta in E.
  assert (Hlen : length sigs = length close).
  { apply (get_num_length d "signal") in Hs; [|done].
    apply (get_num_length d "close") in Hc; [|done].
    unfold signal_column in Hs. rewrite length_fmap in Hs. lia. }
  pose proof (marker_some_number sigs close 1%Qc Hlen Hclose) as B1.
  pose proof (marker_some_number sigs close (- 1)%Qc Hlen Hclose) as B2.
  pose proof (marker_some_number sigs close 0%Qc Hlen Hclose) as B3.
  set (m1 := zip_with (fun s c => if feqb s (Fin 1%Qc) then c else NaN)
                      (signal_column sigs) close) in *.
  set (m0 := zip_with (fun s c => if feqb s (Fin 0%Qc) then c else NaN)
                      (signal_column sigs) close) in *.
  set (m_1 := zip_with (fun s c => if feqb s (Fin (- 1)%Qc) then c else NaN)
                       (signal_column sigs) close) in *.
  clearbody m1 m0 m_1.
  eexists _, _. split; [exact E|]. cbn [plan_addplot].
  unfold long, short, offset.
  assert (K : (filter (fun e : string * list fnum => some_number e.2 = true)
                 [("long", m1); ("short", m_1); ("offset", m0)]).*1
              = (if some_number m1 then ["long"] else [])
                ++ (if some_number m_1 then ["short"] else [])
                ++ (if some_number m0 then ["offset"] else [])).
  { destruct (some_number m1) eqn:E1, (some_number m_1) eqn:E2, (some_number m0) eqn:E3;
      repeat first
        [ rewrite filter_cons_True by (cbn [snd]; congruence)
        | rewrite filter_cons_False by (cbn [snd]; congruence) ];
      by rewrite filter_nil. }
  rewrite K. rewrite <- B1, <- B2, <- B3. split_and!.
  - destruct (some_number m1), (some_number m_1), (some_number m0); csimpl;
      rewrite ?elem_of_cons, ?elem_of_nil; intuition congruence.
  - destruct (some_number m1), (some_number m_1), (some_number m0); csimpl;
      rewrite ?elem_of_cons, ?elem_of_nil; intuition congruence.
  - destruct (some_number m1), (some_number m_1), (some_number m0); csimpl;
      rewrite ?elem_of_cons, ?elem_of_nil; intuition congruence.
  - destruct (some_number m1), (some_number m_1), (some_number m0); csimpl;
      repeat first [ apply sublist_nil | apply sublist_skip | apply sublist_cons ].
  - intros Hnone. rewrite list.Forall_forall in Hnone.
    assert (F : forall v m, (some_number m = true <-> Some v ∈ sigs) -> some_number m = false).
    { intros v m B. destruct (some_number m); [|done].
      specialize (Hnone (Some v) (proj1 B eq_refl)). discriminate. }
    assert (E0 : filter (fun e : string * list fnum => some_number e.2 = true)
                   [("long", m1); ("short", m_1); ("offset", m0)] = []).
    { rewrite !filter_cons_False; [by rewrite filter_nil|..]; cbn [snd].
      - by rewrite (F _ _ B3).
      - by rewrite (F _ _ B2).
      - by rewrite (F _ _ B1). }
    by rewrite E0.
Qed.

Lemma plot_requires_run_witness :
  let T := table_of_closes [10; 11; 12; 11; 9]%Z in
  let self := mkRun 0 (long_at 2) in
  plot self None (Some <$> None) "bar" (fresh_state T)
  = (inl PlotValueError, fresh_state T) /\
  plot self None (Some <$> None) "candle" (fresh_state T)
  = (inl _PlotBeforeRun, fresh_state T).
Proof.
  split.
  - apply (proj1 (plot_requires_run (mkRun 0 (long_at 2)) None None "bar"
                    (fresh_state (table_of_closes [10; 11; 12; 11; 9]%Z))
                    (table_of_closes [10; 11; 12; 11; 9]%Z) eq_refl)).
    apply (bool_decide_unpack _). vm_compute. reflexivity.
  - apply (proj1 (proj2 (plot_requires_run (mkRun 0 (long_at 2)) None None "candle"
                    (fresh_state (table_of_closes [10; 11; 12; 11; 9]%Z))
                    (table_of_closes [10; 11; 12; 11; 9]%Z) eq_refl))).
    + apply (bool_decide_unpack _). vm_compute. reflexivity.
    + left. vm_compute. reflexivity.
Defined.

Lemma plot_markers_witness :
  let T := table_of_closes [10; 11; 12; 11; 9]%Z in
  let signal := signal_column [None; None; Some long; None; Some short] in
  let close := qz <$> [10; 11; 12; 11; 9]%Z in
  let d := mkFrame (index T) (assoc_set "signal" (NumCol signal) (columns T)) in
  let self := mkRun 0 (long_at 2) in
  let st := fresh_state d in
  exists (plan : PlotPlan) (d' : DataFrame),
    plot self None (Some <$> Some "Chart") "line" st = (inr plan, with_frame st 0 d') /\
    plan_title plan = "Chart" /\
    plan_type plan = "line" /\
    index d' = index d /\
    get_num d' "signal1"
    = Ok (zip_with (fun s c => if feqb s (Fin long) then c else NaN) signal close) /\
    get_num d' "signal0"
    = Ok (zip_with (fun s c => if feqb s (Fin offset) then c else NaN) signal close) /\
    get_num d' "signal-1"
    = Ok (zip_with (fun s c => if feqb s (Fin short) then c else NaN) signal close) /\
    (forall n, n ∉ ["signal1"; "signal0"; "signal-1"] ->
       assoc_get n (columns d') = assoc_get n (columns d)) /\
    plot self None (Some <$> Some "Chart") "line" (with_frame st 0 d')
    = (inr plan, with_frame st 0 d').
Proof.
  apply (plot_markers (mkRun 0 (long_at 2)) None (Some "Chart") "line"
           (fresh_state
              (mkFrame (index (table_of_closes [10; 11; 12; 11; 9]%Z))
                 (assoc_set "signal"
                    (NumCol (signal_column [None; None; Some long; None; Some short]))
                    (columns (table_of_closes [10; 11; 12; 11; 9]%Z)))))
           (mkFrame (index (table_of_closes [10; 11; 12; 11; 9]%Z))
              (assoc_set "signal"
                 (NumCol (signal_column [None; None; Some long; None; Some short]))
                 (columns (table_of_closes [10; 11; 12; 11; 9]%Z))))
           (signal_column [None; None; Some long; None; Some short])
           (qz <$> [10; 11; 12; 11; 9]%Z)).
  - apply (bool_decide_unpack _). vm_compute. reflexivity.
  - reflexivity.
  - apply (bool_decide_unpack _). vm_compute. reflexivity.
  - apply (bool_decide_unpack _). vm_compute. reflexivity.
  - reflexivity.
  - reflexivity.
Defined.

Lemma plot_legend_witness :
  let T := table_of_closes [10; 11; 12; 11; 9]%Z in
  let sigs := [None; None; Some long; None; Some short] in
  let d := mkFrame (index T) (assoc_set "signal" (NumCol (signal_column sigs)) (columns T)) in
  let self := mkRun 0 (long_at 2) in
  exists (plan : PlotPlan) (st' : State),
    plot self None (Some <$> None) "candle" (fresh_state d) = (inr plan, st') /\
    ("long" ∈ (plan_addplot plan).*1 <-> Some long ∈ sigs) /\
    ("short" ∈ (plan_addplot plan).*1 <-> Some short ∈ sigs) /\
    ("offset" ∈ (plan_addplot plan).*1 <-> Some offset ∈ sigs) /\
    sublist (plan_addplot plan).*1 ["long"; "short"; "offset"] /\
    (Forall (fun o => o = None) sigs -> plan_addplot plan = []).
Proof.
  apply (plot_legend (mkRun 0 (long_at 2)) None None "candle"
           (fresh_state
              (mkFrame (index (table_of_closes [10; 11; 12; 11; 9]%Z))
                 (assoc_set "signal"
                    (NumCol (signal_column [None; None; Some long; None; Some short]))
                    (columns (table_of_closes [10; 11; 12; 11; 9]%Z)))))
           (mkFrame (index (table_of_closes [10; 11; 12; 11; 9]%Z))
              (assoc_set "signal"
                 (NumCol (signal_column [None; None; Some long; None; Some short]))
                 (columns (table_of_closes [10; 11; 12; 11; 9]%Z))))
           [None; None; Some long; None; Some short]
           (qz <$> [10; 11; 12; 11; 9]%Z)).
  - apply (bool_decide_unpack _). vm_compute. reflexivity.
  - reflexivity.
  - apply (bool_decide_unpack _). vm_compute. reflexivity.
  - apply (bool_decide_unpack _). vm_compute. reflexivity.
  - reflexivity.
  - reflexivity.
  - repeat constructor.
Defined.
